(** * TripPointsList: the day-grouped list of trip points (src/ui/trip-points-list.js)

    A shallow embedding of the component: its fields, the JavaScript arrays
    it shares with the data source, the view objects it creates and the tree
    it renders under its container element.  Methods are state transformers
    that either return or raise a TypeError.  [Array.prototype.sort] is the
    engine's: the development is parametric in it. *)

From Stdlib Require Import String ZArith List Bool Lia Permutation Sorted.
Import ListNotations.
Local Open Scope Z_scope.

(** ** Data model *)

(** A trip point as the data source hands it out.  Dates are timestamps in
    milliseconds, as [Date] values compare and subtract. *)
Record TripPointRecord := mkRecord {
  id : Z;
  dateFrom : Z;
  dateTo : Z;
  destination : string;
  offers : list string
}.

(** A value that can be assigned to [sortFunction] or [filterFunction]. *)
Inductive jsval (F : Type) :=
| JUndefined
| JNull
| JBoolean (b : bool)
| JNumber (n : Z)
| JString (s : string)
| JObject
| JFunction (f : F).
Arguments JUndefined {F}.
Arguments JNull {F}.
Arguments JBoolean {F} b.
Arguments JNumber {F} n.
Arguments JString {F} s.
Arguments JObject {F}.
Arguments JFunction {F} f.

Definition typeof {F} (v : jsval F) : string :=
  match v with
  | JUndefined => "undefined"
  | JNull => "object"
  | JBoolean _ => "boolean"
  | JNumber _ => "number"
  | JString _ => "string"
  | JObject => "object"
  | JFunction _ => "function"
  end.

(** The functions the component holds: a comparator and a predicate whose
    calls return.  A value of type function whose call raises is a
    [callback] below; it is passed to [getDisplayedPoints_with]. *)
Definition comparator := TripPointRecord -> TripPointRecord -> Z.
Definition predicate := TripPointRecord -> bool.

(** A function value as [Array.prototype.filter] calls it: the call on a
    record returns a boolean, or raises ([None]), as calling a class or a
    predicate that throws does. *)
Definition callback := TripPointRecord -> option bool.

Definition returning (f : predicate) : callback := fun point => Some (f point).

(** A value the component holds, as a value to call. *)
Definition called (v : jsval predicate) : jsval callback :=
  match v with
  | JUndefined => JUndefined
  | JNull => JNull
  | JBoolean b => JBoolean b
  | JNumber n => JNumber n
  | JString s => JString s
  | JObject => JObject
  | JFunction f => JFunction (returning f)
  end.

(** Blocking state of an edit form. *)
Inductive block_state := Unblocked | SavingBlock | DeletingBlock.

(** A read-only view object: its data, whether [element] is non-null and
    whether that element has a parent element. *)
Record TripPoint := mkTripPoint {
  tp_data : TripPointRecord;
  tp_element : bool;
  tp_parent : bool
}.

(** An edit view object. [te_shakes] counts calls of [shake()]. *)
Record TripPointEdit := mkTripPointEdit {
  te_data : TripPointRecord;
  te_element : bool;
  te_block : block_state;
  te_shakes : nat;
  te_unsaved : bool
}.

(** A rendered view: the element of view object [view], showing [shown]. *)
Inductive item :=
| PointNode (view : nat) (shown : TripPointRecord)
| EditNode (view : nat) (shown : TripPointRecord).

(** Children of the container: the message paragraph and the day sections.
    A day number of [None] stands for NaN. *)
Inductive node :=
| MessageNode (text : string) (hidden : bool)
| DayNode (number : option Z) (title : string) (items : list item).

(** A call to the data source whose promise is not settled yet; [req_edit]
    is the edit view captured by its rejection handler. *)
Inductive request :=
| UpdateRequest (req_edit : nat) (newData : TripPointRecord)
| DeleteRequest (req_edit : nat) (data : TripPointRecord).

(** The component with everything it can reach.  Arrays and view objects
    live in stores and are referred to by position, so that two references
    to one array see the same contents. *)
Record World := mkWorld {
  arrays : list (list TripPointRecord);
  points : list TripPoint;
  edits : list TripPointEdit;
  requests : list request;
  getTripPoints : option nat;          (* what the data source returns: null or an array *)
  _sortFunction : jsval comparator;
  _filterFunction : jsval predicate;
  _tripPointEdit : option nat;
  _tripPoints : list nat;
  _message : string;
  _element : list node                 (* children of the container section *)
}.

Definition set_arrays v w := mkWorld v (points w) (edits w) (requests w)
  (getTripPoints w) (_sortFunction w) (_filterFunction w) (_tripPointEdit w)
  (_tripPoints w) (_message w) (_element w).
Definition set_points v w := mkWorld (arrays w) v (edits w) (requests w)
  (getTripPoints w) (_sortFunction w) (_filterFunction w) (_tripPointEdit w)
  (_tripPoints w) (_message w) (_element w).
Definition set_edits v w := mkWorld (arrays w) (points w) v (requests w)
  (getTripPoints w) (_sortFunction w) (_filterFunction w) (_tripPointEdit w)
  (_tripPoints w) (_message w) (_element w).
Definition set_requests v w := mkWorld (arrays w) (points w) (edits w) v
  (getTripPoints w) (_sortFunction w) (_filterFunction w) (_tripPointEdit w)
  (_tripPoints w) (_message w) (_element w).
Definition set_getTripPoints v w := mkWorld (arrays w) (points w) (edits w)
  (requests w) v (_sortFunction w) (_filterFunction w) (_tripPointEdit w)
  (_tripPoints w) (_message w) (_element w).
Definition set_sortFunction v w := mkWorld (arrays w) (points w) (edits w)
  (requests w) (getTripPoints w) v (_filterFunction w) (_tripPointEdit w)
  (_tripPoints w) (_message w) (_element w).
Definition set_filterFunction v w := mkWorld (arrays w) (points w) (edits w)
  (requests w) (getTripPoints w) (_sortFunction w) v (_tripPointEdit w)
  (_tripPoints w) (_message w) (_element w).
Definition set_tripPointEdit v w := mkWorld (arrays w) (points w) (edits w)
  (requests w) (getTripPoints w) (_sortFunction w) (_filterFunction w) v
  (_tripPoints w) (_message w) (_element w).
Definition set_tripPoints v w := mkWorld (arrays w) (points w) (edits w)
  (requests w) (getTripPoints w) (_sortFunction w) (_filterFunction w)
  (_tripPointEdit w) v (_message w) (_element w).
Definition set_message v w := mkWorld (arrays w) (points w) (edits w)
  (requests w) (getTripPoints w) (_sortFunction w) (_filterFunction w)
  (_tripPointEdit w) (_tripPoints w) v (_element w).
Definition set_element v w := mkWorld (arrays w) (points w) (edits w)
  (requests w) (getTripPoints w) (_sortFunction w) (_filterFunction w)
  (_tripPointEdit w) (_tripPoints w) (_message w) v.

(** ** Computations that may raise *)

Inductive outcome (A : Type) :=
| Ok (a : A) (w : World)
| Throw (w : World).           (* a TypeError, with the state it leaves behind *)
Arguments Ok {A} a w.
Arguments Throw {A} w.

Definition M (A : Type) := World -> outcome A.

Definition ret {A} (a : A) : M A := fun w => Ok a w.
Definition bind {A B} (m : M A) (k : A -> M B) : M B :=
  fun w => match m w with Ok a w' => k a w' | Throw w' => Throw w' end.
Definition throw {A} : M A := fun w => Throw w.
Definition get {A} (f : World -> A) : M A := fun w => Ok (f w) w.
Definition modify (f : World -> World) : M unit := fun w => Ok tt (f w).

Notation "x <- m ;; k" := (bind m (fun x => k))
  (at level 61, m at next level, right associativity).
Notation "m ;; k" := (bind m (fun _ => k))
  (at level 61, right associativity).

Definition returned {A} (o : outcome A) : bool :=
  match o with Ok _ _ => true | Throw _ => false end.

(** The state a call leaves behind, whether it returned or raised. *)
Definition final {A} (o : outcome A) : World :=
  match o with Ok _ w => w | Throw w => w end.

(** ** Stores *)

(** Change the object at position [i]. *)
Fixpoint upd {A} (i : nat) (f : A -> A) (l : list A) : list A :=
  match l, i with
  | [], _ => []
  | x :: l', O => f x :: l'
  | x :: l', S i' => x :: upd i' f l'
  end.

Definition deref (a : nat) (w : World) : list TripPointRecord :=
  nth a (arrays w) [].

Definition new_array (xs : list TripPointRecord) : M nat :=
  fun w => Ok (length (arrays w)) (set_arrays (arrays w ++ [xs]) w).

Definition read_array (a : nat) : M (list TripPointRecord) := get (deref a).

Definition write_array (a : nat) (xs : list TripPointRecord) : M unit :=
  modify (fun w => set_arrays (upd a (fun _ => xs) (arrays w)) w).

(** ** The earlier version of the list (part_000)

    There the list holds its records itself and computes the trip start
    date in [_getTripStartDate]; a record has a [date] and a [startTime]. *)
Module Earlier.

Record MockTripPoint := mkMockTripPoint {
  date : Z;
  startTime : Z
}.

(** A date, or the Infinity the reduction starts from. *)
Inductive jsnumber :=
| Finite (z : Z)
| Infinity.

(** [point.date < min] *)
Definition before (d : Z) (min : jsnumber) : bool :=
  match min with
  | Finite m => d <? m
  | Infinity => true
  end.

Definition _getTripStartDate (_tripPointsData : list MockTripPoint) : jsnumber :=
  fold_left (fun min point =>
               if before (date point) min then Finite (date point) else min)
            _tripPointsData Infinity.

End Earlier.

(** ** Array.prototype.filter *)

(** [filter] calls the callback on each element in turn and keeps those it
    returns true for; it raises when a call raises. *)
Fixpoint filter_calling (f : callback) (xs : list TripPointRecord)
    : option (list TripPointRecord) :=
  match xs with
  | [] => Some []
  | x :: rest =>
      match f x with
      | Some keep =>
          option_map (fun kept => if keep then x :: kept else kept)
                     (filter_calling f rest)
      | None => None
      end
  end.

(** [filter] raises a TypeError when its argument is not callable, and
    raises what a call of the callback raises; otherwise it returns a new
    array. *)
Definition array_filter (v : jsval callback) (a : nat) : M nat :=
  match v with
  | JFunction f =>
      xs <- read_array a ;;
      match filter_calling f xs with
      | Some kept => new_array kept
      | None => throw
      end
  | _ => throw
  end.

(** ** Array.prototype.sort *)

Definition ordered_by (cmp : comparator) : list TripPointRecord -> Prop :=
  StronglySorted (fun a b => cmp a b <= 0).

(** A consistent comparison function, as ECMAScript defines it for
    [Array.prototype.sort] (here over all records): a record ties with
    itself, ties are symmetric and transitive, and so are "below" and
    "above".  The default comparator, by [dateFrom], is one;
    [(a, b) => a <= b ? -1 : 1] and [(a, b) => a > b ? 1 : 0] are not. *)
Definition consistent (cmp : comparator) : Prop :=
  (forall a, cmp a a = 0) /\
  (forall a b, cmp a b = 0 -> cmp b a = 0) /\
  (forall a b c, cmp a b = 0 -> cmp b c = 0 -> cmp a c = 0) /\
  (forall a b c, cmp a b < 0 -> cmp b c < 0 -> cmp a c < 0) /\
  (forall a b c, 0 < cmp a b -> 0 < cmp b c -> 0 < cmp a c).

(** What ECMAScript says of the sort of an engine, for a comparator whose
    calls return: the sorted array holds the elements it held; for a
    consistent comparator it is in the comparator's order, and, the sort
    being stable, an array that is in order already stays as it is.  For
    any other comparator the order is up to the engine. *)
Record Engine := mkEngine {
  sort_of : comparator -> list TripPointRecord -> list TripPointRecord;
  sort_permutes : forall cmp l, Permutation (sort_of cmp l) l;
  sort_orders : forall cmp l, consistent cmp -> ordered_by cmp (sort_of cmp l);
  sort_stable : forall cmp l,
    consistent cmp -> ordered_by cmp l -> sort_of cmp l = l
}.

(** One engine, for the examples: insertion sort.  Each element is compared,
    as first argument, with the elements placed before it, from the last
    one down, and moves in front of those it compares below.  [placed] is
    the sorted part, last element first. *)
Fixpoint shift_in (cmp : comparator) (x : TripPointRecord)
    (placed : list TripPointRecord) : list TripPointRecord :=
  match placed with
  | [] => [x]
  | y :: rest => if cmp x y <? 0 then y :: shift_in cmp x rest else x :: placed
  end.

Definition insertion_sort (cmp : comparator) (l : list TripPointRecord)
    : list TripPointRecord :=
  rev (fold_left (fun placed x => shift_in cmp x placed) l []).

Definition insertion_engine : Engine.
Proof.
  assert (Hshift : forall cmp x r, Permutation (shift_in cmp x r) (x :: r)).
  { intros cmp x r. induction r as [|y r IH]; simpl; [reflexivity|].
    destruct (cmp x y <? 0); [|reflexivity].
    rewrite IH. apply perm_swap. }
  assert (Hfold : forall cmp l r,
            Permutation (fold_left (fun placed x => shift_in cmp x placed) l r)
                        (l ++ r)).
  { intros cmp l. induction l as [|x l IH]; intros r; simpl; [reflexivity|].
    rewrite IH, Hshift. symmetry. apply Permutation_middle. }
  assert (Hbelow : forall cmp, consistent cmp ->
            forall a b, cmp a b < 0 -> 0 < cmp b a).
  { intros cmp (Hrefl & Hsym & _ & Hlt & _) a b Hab.
    destruct (Z.lt_trichotomy (cmp b a) 0) as [H|[H|H]]; [| |exact H].
    - pose proof (Hlt a b a Hab H) as Haa. rewrite Hrefl in Haa. lia.
    - rewrite (Hsym b a H) in Hab. lia. }
  assert (Habove : forall cmp, consistent cmp ->
            forall a b, 0 < cmp a b -> cmp b a < 0).
  { intros cmp (Hrefl & Hsym & _ & _ & Hgt) a b Hab.
    destruct (Z.lt_trichotomy (cmp b a) 0) as [H|[H|H]]; [exact H| |].
    - rewrite (Hsym b a H) in Hab. lia.
    - pose proof (Hgt a b a Hab H) as Haa. rewrite Hrefl in Haa. lia. }
  assert (Hflip : forall cmp, consistent cmp ->
            forall a b, 0 <= cmp a b -> cmp b a <= 0).
  { intros cmp Hc a b Hab. pose proof Hc as (_ & Hsym & _).
    destruct (Z.eq_dec (cmp a b) 0) as [E|E]; [rewrite (Hsym _ _ E); lia|].
    pose proof (Habove cmp Hc a b). lia. }
  assert (Htrans : forall cmp, consistent cmp ->
            forall a b c, cmp a b <= 0 -> cmp b c <= 0 -> cmp a c <= 0).
  { intros cmp Hc a b c Hab Hbc.
    pose proof Hc as (_ & Hsym & Heq & Hlt & Hgt).
    destruct (Z.lt_trichotomy (cmp a c) 0) as [H|[H|H]]; [lia | lia |].
    exfalso.
    destruct (Z.eq_dec (cmp a b) 0) as [E1|E1];
      destruct (Z.eq_dec (cmp b c) 0) as [E2|E2].
    - rewrite (Heq a b c E1 E2) in H. lia.
    - pose proof (Hbelow cmp Hc b c ltac:(lia)) as Hcb.
      pose proof (Hgt a c b H Hcb). lia.
    - pose proof (Hbelow cmp Hc a b ltac:(lia)) as Hba.
      pose proof (Hgt b a c Hba H). lia.
    - pose proof (Hlt a b c ltac:(lia) ltac:(lia)). lia. }
  assert (Hplaced : forall cmp, consistent cmp -> forall x r,
            StronglySorted (fun a b => cmp b a <= 0) r ->
            StronglySorted (fun a b => cmp b a <= 0) (shift_in cmp x r)).
  { intros cmp Hc x r. induction 1 as [|y r Hs IH Hy]; simpl.
    - repeat constructor.
    - destruct (cmp x y <? 0) eqn:E.
      + apply Z.ltb_lt in E. constructor; [exact IH|].
        rewrite Forall_forall in *. intros z Hz.
        apply (Permutation_in _ (Hshift cmp x r)) in Hz.
        destruct Hz as [<-|Hz]; [lia | auto].
      + apply Z.ltb_ge in E. pose proof (Hflip cmp Hc x y E) as Hyx.
        constructor; [constructor; assumption|].
        constructor; [exact Hyx|].
        rewrite Forall_forall in *. intros z Hz.
        apply (Htrans cmp Hc z y x); auto. }
  assert (Hfolded : forall cmp, consistent cmp -> forall l r,
            StronglySorted (fun a b => cmp b a <= 0) r ->
            StronglySorted (fun a b => cmp b a <= 0)
              (fold_left (fun placed x => shift_in cmp x placed) l r)).
  { intros cmp Hc l. induction l as [|x l IH]; intros r Hr; simpl; auto. }
  assert (Hrev : forall cmp (r : list TripPointRecord),
            StronglySorted (fun a b => cmp b a <= 0) r -> ordered_by cmp (rev r)).
  { intros cmp r. unfold ordered_by. induction 1 as [|y r Hs IH Hy]; simpl.
    - constructor.
    - clear Hs. rewrite Forall_forall in Hy.
      assert (Hin : forall a, In a (rev r) -> cmp a y <= 0)
        by (intros a Ha; apply Hy, in_rev, Ha).
      clear Hy. induction IH as [|z l Hl IHl Hz]; simpl.
      + repeat constructor.
      + constructor.
        * apply IHl. intros a Ha. apply Hin. right. exact Ha.
        * apply Forall_app. split; [exact Hz|].
          constructor; [|constructor]. apply Hin. left. reflexivity. }
  assert (Hkept : forall cmp, consistent cmp -> forall l r,
            ordered_by cmp l ->
            (forall y x, In y r -> In x l -> cmp y x <= 0) ->
            fold_left (fun placed x => shift_in cmp x placed) l r = rev l ++ r).
  { intros cmp Hc l. unfold ordered_by.
    induction l as [|x l IH]; intros r Hl Hr; simpl; [reflexivity|].
    inversion Hl as [|? ? Hl' Hx]; subst. rewrite Forall_forall in Hx.
    assert (E : shift_in cmp x r = x :: r).
    { destruct r as [|y r]; [reflexivity|]. simpl.
      assert (Hyx : cmp y x <= 0) by (apply Hr; left; reflexivity).
      destruct (cmp x y <? 0) eqn:E; [|reflexivity].
      apply Z.ltb_lt in E. pose proof (Hbelow cmp Hc x y E). lia. }
    rewrite E, IH, <- app_assoc; [reflexivity | exact Hl'|].
    intros y z [<-|Hy] Hz; [apply Hx, Hz | apply Hr; [exact Hy | right; exact Hz]]. }
  refine (mkEngine insertion_sort _ _ _); unfold insertion_sort.
  - intros cmp l. rewrite <- Permutation_rev, Hfold, app_nil_r. reflexivity.
  - intros cmp l Hc. apply Hrev, Hfolded; [exact Hc | constructor].
  - intros cmp l Hc Hl. rewrite (Hkept cmp Hc l [] Hl).
    + rewrite app_nil_r. apply rev_involutive.
    + intros y x [].
Defined.

Section Component.

(** The engine the page runs on. *)
Variable engine : Engine.

(** [sort] sorts the array in place and returns the same array.  It raises
    a TypeError for a comparator that is neither undefined nor callable;
    with undefined it compares the elements as strings, which are all
    "[object Object]" here, so the stable sort changes nothing. *)
Definition array_sort (v : jsval comparator) (a : nat) : M nat :=
  match v with
  | JFunction cmp =>
      xs <- read_array a ;; write_array a (sort_of engine cmp xs) ;; ret a
  | JUndefined => ret a
  | _ => throw
  end.

(** ** getDisplayedPoints *)

Definition _getData : M nat :=
  data <- get getTripPoints ;;
  match data with
  | None => new_array []
  | Some a => ret a
  end.

(** The body of [_filterPoints] with [fn] for [this._filterFunction]. *)
Definition _filterPoints_with (fn : jsval callback) (array : nat) : M nat :=
  let hasFilterFunction := String.eqb (typeof fn) "function" in
  if hasFilterFunction then array_filter fn array else ret array.

Definition _filterPoints (array : nat) : M nat :=
  fn <- get _filterFunction ;;
  _filterPoints_with (called fn) array.

Definition _sortPoints (array : nat) : M nat :=
  fn <- get _sortFunction ;;
  let hasSortFunction := String.eqb (typeof fn) "function" in
  if hasSortFunction then array_sort fn array else ret array.

Definition getDisplayedPoints : M nat :=
  data <- _getData ;;
  filtered <- _filterPoints data ;;
  _sortPoints filtered.


(** ** View objects *)

(** component.js, trip-point.js and trip-point-edit.js are not among the
    sources.  What the list needs of a view is what the spec lists in its
    view contracts: [render()] creates the element of the view and returns
    it, [unrender()] drops it, [element] and [data] read it; an edit view
    also has [savingBlock()], [deletingBlock()], [unblock()], [shake()],
    [changesUnsaved()] and [cancelEdit()]. *)

(** Modelled from the spec: [new TripPoint(data)], a view without element. *)
Definition new_TripPoint (data : TripPointRecord) : M nat :=
  fun w => Ok (length (points w))
              (set_points (points w ++ [mkTripPoint data false false]) w).

(** Modelled from the spec: whether [tripPoint.element] is non-null. *)
Definition point_element (v : nat) : M bool :=
  get (fun w => match nth_error (points w) v with
                | Some p => tp_element p
                | None => false
                end).

(** Whether [tripPoint.element.parentElement] is non-null. *)
Definition point_parentElement (v : nat) : M bool :=
  get (fun w => match nth_error (points w) v with
                | Some p => tp_parent p
                | None => false
                end).

(** A view whose element was just created, or dropped: either way there
    is no parent element. *)
Definition point_with_element (b : bool) (p : TripPoint) : TripPoint :=
  mkTripPoint (tp_data p) b false.

Definition point_with_parent (p : TripPoint) : TripPoint :=
  mkTripPoint (tp_data p) (tp_element p) true.

(** The element of view [v] was put under a parent by [appendChild] or
    [replaceChild]. *)
Definition point_placed (v : nat) : M unit :=
  modify (fun w => set_points (upd v point_with_parent (points w)) w).

Definition point_set_element (b : bool) (v : nat) : M unit :=
  modify (fun w => set_points (upd v (point_with_element b) (points w)) w).

(** Modelled from the spec: [tripPoint.render()], for a view of [data]. *)
Definition point_render (v : nat) (data : TripPointRecord) : M item :=
  point_set_element true v ;; ret (PointNode v data).

(** Modelled from the spec: [tripPoint.unrender()]. *)
Definition point_unrender (v : nat) : M unit := point_set_element false v.

(** Modelled from the spec: [new TripPointEdit({data, ...})], an edit view
    without element, not blocked, with no unsaved changes. *)
Definition new_TripPointEdit (data : TripPointRecord) : M nat :=
  fun w => Ok (length (edits w))
    (set_edits (edits w ++ [mkTripPointEdit data false Unblocked 0 false]) w).

Definition edit_modify (f : TripPointEdit -> TripPointEdit) (e : nat) : M unit :=
  modify (fun w => set_edits (upd e f (edits w)) w).

(** Modelled from the spec: whether [tripPointEdit.element] is non-null. *)
Definition edit_element (e : nat) : M bool :=
  get (fun w => match nth_error (edits w) e with
                | Some x => te_element x
                | None => false
                end).

Definition edit_with_element (b : bool) (x : TripPointEdit) : TripPointEdit :=
  mkTripPointEdit (te_data x) b (te_block x) (te_shakes x) (te_unsaved x).

Definition edit_set_element (b : bool) : nat -> M unit :=
  edit_modify (edit_with_element b).

(** Modelled from the spec: [tripPointEdit.render()], for a view of [data]. *)
Definition edit_render (e : nat) (data : TripPointRecord) : M item :=
  edit_set_element true e ;; ret (EditNode e data).

(** Modelled from the spec: [tripPointEdit.unrender()]. *)
Definition edit_unrender : nat -> M unit := edit_set_element false.

Definition edit_with_block (b : block_state) (x : TripPointEdit) : TripPointEdit :=
  mkTripPointEdit (te_data x) (te_element x) b (te_shakes x) (te_unsaved x).

Definition edit_set_block (b : block_state) : nat -> M unit :=
  edit_modify (edit_with_block b).

(** Modelled from the spec: [savingBlock()] blocks the form while saving. *)
Definition savingBlock : nat -> M unit := edit_set_block SavingBlock.

(** Modelled from the spec: [deletingBlock()] blocks the form while
    deleting. *)
Definition deletingBlock : nat -> M unit := edit_set_block DeletingBlock.

(** Modelled from the spec: [unblock()] makes the form interactive again. *)
Definition unblock : nat -> M unit := edit_set_block Unblocked.

Definition edit_shaken (x : TripPointEdit) : TripPointEdit :=
  mkTripPointEdit (te_data x) (te_element x) (te_block x) (S (te_shakes x))
                  (te_unsaved x).

Definition edit_marked_unsaved (x : TripPointEdit) : TripPointEdit :=
  mkTripPointEdit (te_data x) (te_element x) (te_block x) (te_shakes x) true.

(** Modelled from the spec: [shake()] shakes the form once. *)
Definition shake : nat -> M unit := edit_modify edit_shaken.

(** Modelled from the spec: [changesUnsaved()] marks the form as having
    unsaved changes. *)
Definition changesUnsaved : nat -> M unit := edit_modify edit_marked_unsaved.

(** ** The rendered tree *)

Definition is_point (v : nat) (it : item) : bool :=
  match it with PointNode v' _ => Nat.eqb v v' | EditNode _ _ => false end.

Definition is_edit (e : nat) (it : item) : bool :=
  match it with EditNode e' _ => Nat.eqb e e' | PointNode _ _ => false end.

Fixpoint replace_first (old : item -> bool) (new : item) (l : list item) :=
  match l with
  | [] => []
  | x :: l' => if old x then new :: l' else x :: replace_first old new l'
  end.

(** [parent.replaceChild(new, element)] for the parent element of
    [element], as seen from the container: the element is replaced where it
    sits; when its parent is in a tree that was taken off the page, the
    container's tree stays as it is.  An element without parent has no
    [parentElement] to call this on: [show_edit] and [onCancel] raise
    before they get here. *)
Fixpoint replaceChild (old : item -> bool) (new : item) (dom : list node) :=
  match dom with
  | [] => []
  | DayNode n t its :: rest =>
      if existsb old its then DayNode n t (replace_first old new its) :: rest
      else DayNode n t its :: replaceChild old new rest
  | m :: rest => m :: replaceChild old new rest
  end.

Definition appendChild (ns : list node) : M unit :=
  modify (fun w => set_element (_element w ++ ns) w).

(** Modelled from the spec: utils/dom-utils.js is not among the sources;
    [removeChilds] clears the children of the container. *)
Definition removeChilds : M unit := modify (set_element []).

Fixpoint indexOf (v : nat) (l : list nat) : option nat :=
  match l with
  | [] => None
  | x :: l' => if Nat.eqb x v then Some O else option_map S (indexOf v l')
  end.

Fixpoint remove_at {A} (i : nat) (l : list A) : list A :=
  match l, i with
  | [], _ => []
  | _ :: l', O => l'
  | x :: l', S i' => x :: remove_at i' l'
  end.

(** [l.splice(l.indexOf(v), 1)]: an index of -1 counts from the end, so the
    last element goes when [v] is not in the list. *)
Definition splice_indexOf (v : nat) (l : list nat) : list nat :=
  match indexOf v l with
  | Some i => remove_at i l
  | None => removelast l
  end.

(** ** Edit sessions *)

(** The handlers that [_createTripPoint] and [_createTripPointEdit] attach
    to the views they create are the functions [onEdit], [onCancel],
    [onSubmit] and [onDelete] below; each takes the view and the data its
    closure captured. *)
Definition _createTripPoint (data : TripPointRecord) : M nat :=
  new_TripPoint data.

Definition _createTripPointEdit (data : TripPointRecord) : M nat :=
  new_TripPointEdit data.

(** The [onCancel] handler of edit view [tripPointEdit].  Reading
    [tripPointEdit.element.parentElement] raises when the view holds no
    element, before the new read-only view is rendered.  The element of an
    edit view always has a parent: it is created in [show_edit] as the
    argument of the [replaceChild] that puts it on the page. *)
Definition onCancel (tripPointEdit : nat) (data : TripPointRecord) : M unit :=
  tripPoint <- _createTripPoint data ;;
  el <- edit_element tripPointEdit ;;
  if el : bool then
    n <- point_render tripPoint data ;;
    modify (fun w =>
      set_element (replaceChild (is_edit tripPointEdit) n (_element w)) w) ;;
    point_placed tripPoint ;;
    edit_unrender tripPointEdit ;;
    modify (set_tripPointEdit None)
  else throw.

(** Modelled from the spec: trip-point-edit.js is not among the sources;
    [cancelEdit()] takes the edit view back to viewing, that is, it fires
    the view's [onCancel] handler. *)
Definition cancelEdit (e : nat) : M unit :=
  fun w => match nth_error (edits w) e with
           | Some x => onCancel e (te_data x) w
           | None => Throw w
           end.

(** [if (this._tripPointEdit) this._tripPointEdit.cancelEdit()] *)
Definition cancel_current : M unit :=
  edit <- get _tripPointEdit ;;
  match edit with
  | Some e => cancelEdit e
  | None => ret tt
  end.

(** Create the edit view for [data], make it the current one and put it in
    the place of the read-only view [tripPoint], which leaves the tracked
    list.  In [tripPoint.element.parentElement.replaceChild(...)], reading
    [parentElement] raises when the view holds no element, and reading
    [replaceChild] raises when the element has no parent; both happen
    before the edit view is rendered. *)
Definition show_edit (tripPoint : nat) (data : TripPointRecord) : M unit :=
  e <- _createTripPointEdit data ;;
  modify (set_tripPointEdit (Some e)) ;;
  el <- point_element tripPoint ;;
  if el : bool then
    parent <- point_parentElement tripPoint ;;
    if parent : bool then
      n <- edit_render e data ;;
      modify (fun w =>
        set_element (replaceChild (is_point tripPoint) n (_element w)) w) ;;
      modify (fun w =>
        set_tripPoints (splice_indexOf tripPoint (_tripPoints w)) w) ;;
      point_unrender tripPoint
    else throw
  else throw.

(** What [onEdit] and [openTripPointInEditMode] do with a view: cancel the
    edit session there is, then open the new one. *)
Definition open_edit (tripPoint : nat) (data : TripPointRecord) : M unit :=
  cancel_current ;; show_edit tripPoint data.

(** The [onEdit] handler that [_createTripPoint] gives to a view. *)
Definition onEdit (tripPoint : nat) (data : TripPointRecord) : M unit :=
  open_edit tripPoint data.

(** [(point) => point.data.id === id] *)
Definition has_id (i : Z) (w : World) (v : nat) : bool :=
  match nth_error (points w) v with
  | Some p => id (tp_data p) =? i
  | None => false
  end.

(** [scrollIntoView] has no effect on the model and its failure is caught. *)
Definition openTripPointInEditMode (i : Z) : M unit :=
  fun w =>
    match find (has_id i w) (_tripPoints w) with
    | Some tripPoint =>
        match nth_error (points w) tripPoint with
        | Some p => open_edit tripPoint (tp_data p) w
        | None => Throw w
        end
    | None => Ok tt w
    end.

(** The [onSubmit] handler: block the form and send the update. *)
Definition onSubmit (tripPointEdit : nat) (newData : TripPointRecord) : M unit :=
  savingBlock tripPointEdit ;;
  modify (fun w =>
    set_requests (requests w ++ [UpdateRequest tripPointEdit newData]) w).

(** The [onDelete] handler: block the form and send the deletion. *)
Definition onDelete (tripPointEdit : nat) (data : TripPointRecord) : M unit :=
  deletingBlock tripPointEdit ;;
  modify (fun w =>
    set_requests (requests w ++ [DeleteRequest tripPointEdit data]) w).

(** The promise of request [k] rejects: the request is settled and its
    [catch] handler runs. *)
Definition reject (k : nat) : M unit :=
  fun w =>
    match nth_error (requests w) k with
    | Some (UpdateRequest tripPointEdit _) =>
        (modify (fun w => set_requests (remove_at k (requests w)) w) ;;
         shake tripPointEdit ;;
         changesUnsaved tripPointEdit ;;
         unblock tripPointEdit) w
    | Some (DeleteRequest tripPointEdit _) =>
        (modify (fun w => set_requests (remove_at k (requests w)) w) ;;
         changesUnsaved tripPointEdit ;;
         unblock tripPointEdit) w
    | None => Ok tt w
    end.

(** The promise of request [k] resolves: no handler is attached. *)
Definition resolve (k : nat) : M unit :=
  modify (fun w => set_requests (remove_at k (requests w)) w).

(** ** update *)

Definition _unrenderContent : M unit :=
  edit <- get _tripPointEdit ;;
  match edit with
  | Some e => edit_unrender e ;; modify (set_tripPointEdit None)
  | None => ret tt
  end ;;
  tracked <- get _tripPoints ;;
  fold_right (fun tripPoint k => point_unrender tripPoint ;; k) (ret tt) tracked ;;
  removeChilds.

Definition _createMessage (text : string) : node :=
  MessageNode text (String.eqb text "").

(** Modelled from the spec: utils/date-utils.js is not among the sources;
    the default sort function orders two records by [dateFrom]. *)
Definition compareDate (date1 date2 : Z) : Z :=
  match date1 ?= date2 with Lt => -1 | Eq => 0 | Gt => 1 end.

(** Modelled from the spec: utils/trip-utils.js is not among the sources;
    the trip start date is the minimum [dateFrom] over the records it is
    given.  [None] is the result for no records (the earlier in-class
    version reduces from Infinity). *)
Definition getTripStartDate (tripPoints : list TripPointRecord) : option Z :=
  fold_left (fun min point =>
               match min with
               | Some m => if dateFrom point <? m then Some (dateFrom point) else min
               | None => Some (dateFrom point)
               end) tripPoints None.

Section Rendering.

(** The calendar day a timestamp falls on, and the "MMM D" title of a date,
    both in the time zone of the page. *)
Variable dayOf : Z -> Z.
Variable formatDate : Z -> string.

(** Modelled from the spec: utils/date-utils.js is not among the sources;
    [calcDaysDiff] is the calendar-day difference between two dates. *)
Definition calcDaysDiff (date1 date2 : Z) : Z := dayOf date2 - dayOf date1.

(** The template [#trip-day-template] is taken to be in the document. *)
Definition _createTripDayElement (date : Z) (tripStartDate : option Z) : node :=
  let dayNumber := option_map (fun s => calcDaysDiff s date + 1) tripStartDate in
  DayNode dayNumber (formatDate date) [].

(** [_addTripPointElementToDayElement] on the current [dayElement], which is
    the section appended to the fragment last, or null while the fragment is
    empty: [null.querySelector] raises, and the element, already created by
    [render()], stays without parent. *)
Fixpoint _addTripPointElementToDayElement (fragment : list node) (el : item)
    : option (list node) :=
  match fragment with
  | [] => None
  | [DayNode n t its] => Some [DayNode n t (its ++ [el])]
  | [MessageNode _ _] => None
  | x :: rest => option_map (cons x) (_addTripPointElementToDayElement rest el)
  end.

(** The loop of [update] over the displayed records. *)
Fixpoint render_days (tripStartDate : option Z)
    (displayedTripPoints : list TripPointRecord) (prevTripPointDate : Z)
    (fragment : list node) : M (list node) :=
  match displayedTripPoints with
  | [] => ret fragment
  | tripPointData :: rest =>
      let fragment1 :=
        if negb (calcDaysDiff prevTripPointDate (dateFrom tripPointData) =? 0)
        then fragment ++ [_createTripDayElement (dateFrom tripPointData) tripStartDate]
        else fragment in
      tripPoint <- _createTripPoint tripPointData ;;
      modify (fun w => set_tripPoints (_tripPoints w ++ [tripPoint]) w) ;;
      el <- point_render tripPoint tripPointData ;;
      match _addTripPointElementToDayElement fragment1 el with
      | Some fragment2 =>
          point_placed tripPoint ;;
          render_days tripStartDate rest (dateFrom tripPointData) fragment2
      | None => throw
      end
  end.

Definition update : M unit :=
  _unrenderContent ;;
  displayed <- getDisplayedPoints ;;
  displayedTripPoints <- read_array displayed ;;
  message <- get _message ;;
  (if negb (String.eqb message "")
   then appendChild [_createMessage message] else ret tt) ;;
  match displayedTripPoints with
  | [] => ret tt
  | _ :: _ =>
      data <- _getData ;;
      tripPoints <- read_array data ;;
      let tripStartDate := getTripStartDate tripPoints in
      tripPointsFragment <- render_days tripStartDate displayedTripPoints 0 [] ;;
      appendChild tripPointsFragment
  end.

(** The setters [sortFunction] and [filterFunction]. *)
Definition sortFunction (fn : jsval comparator) : M unit :=
  modify (set_sortFunction fn) ;; update.

Definition filterFunction (fn : jsval predicate) : M unit :=
  modify (set_filterFunction fn) ;; update.

Definition showErrorMessage : M unit :=
  modify (set_message
    "Something went wrong. Check your connection or try again later") ;;
  update.

Definition showLoadingMessage : M unit :=
  modify (set_message "Loading route...") ;; update.

Definition hideMessage : M unit :=
  modify (set_message "") ;; update.

(** ** What can happen to the component *)

Inductive event :=
| CallSortFunction (fn : jsval comparator)
| CallFilterFunction (fn : jsval predicate)
| CallUpdate
| CallShowErrorMessage
| CallShowLoadingMessage
| CallHideMessage
| CallOpenTripPointInEditMode (i : Z)
| ClickEdit (tripPoint : nat) (data : TripPointRecord)
| ClickCancel (tripPointEdit : nat) (data : TripPointRecord)
| ClickSubmit (tripPointEdit : nat) (newData : TripPointRecord)
| ClickDelete (tripPointEdit : nat) (data : TripPointRecord)
| Rejected (k : nat)
| Resolved (k : nat)
| SourceChanged (data : option (list TripPointRecord)).

Definition run (ev : event) : M unit :=
  match ev with
  | CallSortFunction fn => sortFunction fn
  | CallFilterFunction fn => filterFunction fn
  | CallUpdate => update
  | CallShowErrorMessage => showErrorMessage
  | CallShowLoadingMessage => showLoadingMessage
  | CallHideMessage => hideMessage
  | CallOpenTripPointInEditMode i => openTripPointInEditMode i
  | ClickEdit tripPoint data => onEdit tripPoint data
  | ClickCancel tripPointEdit data => onCancel tripPointEdit data
  | ClickSubmit tripPointEdit newData => onSubmit tripPointEdit newData
  | ClickDelete tripPointEdit data => onDelete tripPointEdit data
  | Rejected k => reject k
  | Resolved k => resolve k
  | SourceChanged None => modify (set_getTripPoints None)
  | SourceChanged (Some xs) =>
      a <- new_array xs ;; modify (set_getTripPoints (Some a))
  end.

Fixpoint dom_items (dom : list node) : list item :=
  match dom with
  | [] => []
  | DayNode _ _ its :: rest => its ++ dom_items rest
  | MessageNode _ _ :: rest => dom_items rest
  end.

(** A handler of a view fires only while the view's element is on the
    page; the methods of the component can be called at any time. *)
Definition enabled (w : World) (ev : event) : Prop :=
  match ev with
  | ClickEdit tripPoint data => In (PointNode tripPoint data) (dom_items (_element w))
  | ClickCancel e data | ClickDelete e data =>
      In (EditNode e data) (dom_items (_element w))
  | ClickSubmit e _ => exists data, In (EditNode e data) (dom_items (_element w))
  | _ => True
  end.

(** The component as the constructor and [render()] leave it, for a data
    source that returns [data]. *)
Definition initial (data : option (list TripPointRecord)) : World :=
  mkWorld (match data with Some xs => [xs] | None => [] end) [] [] []
          (match data with Some _ => Some O | None => None end)
          (JFunction (fun point1 point2 =>
                        compareDate (dateFrom point1) (dateFrom point2)))
          JNull None [] "" [].

Inductive reachable : World -> Prop :=
| reachable_initial data : reachable (initial data)
| reachable_event w ev :
    reachable w -> enabled w ev -> reachable (final (run ev w)).

End Rendering.

(** ** What the spec calls the displayed records *)

(** The records the data source holds (null counts as none). *)
Definition source_records (w : World) : list TripPointRecord :=
  match getTripPoints w with
  | Some a => deref a w
  | None => []
  end.

(** The function a value is, if it is one. *)
Definition as_function {F} (v : jsval F) : option F :=
  match v with JFunction f => Some f | _ => None end.

(** The records passed through the filter (all of them unless the filter
    is a function), then through the comparator (source order unless it is
    a function). *)
Definition displayed_records (w : World) : list TripPointRecord :=
  let filtered := match as_function (_filterFunction w) with
                  | Some f => filter f (source_records w)
                  | None => source_records w
                  end in
  match as_function (_sortFunction w) with
  | Some cmp => sort_of engine cmp filtered
  | None => filtered
  end.

(** A reference handed out by the data source refers to an existing array. *)
Definition source_valid (w : World) : Prop :=
  match getTripPoints w with
  | Some a => (a < length (arrays w))%nat
  | None => True
  end.

(** The comparator of the component, if it has one, is consistent. *)
Definition sort_consistent (w : World) : Prop :=
  forall cmp, _sortFunction w = JFunction cmp -> consistent cmp.

(** Two worlds that differ in the array store only. *)
Definition same_component (w w' : World) : Prop :=
  points w' = points w /\ edits w' = edits w /\ requests w' = requests w /\
  getTripPoints w' = getTripPoints w /\ _sortFunction w' = _sortFunction w /\
  _filterFunction w' = _filterFunction w /\
  _tripPointEdit w' = _tripPointEdit w /\ _tripPoints w' = _tripPoints w /\
  _message w' = _message w /\ _element w' = _element w.


(** ** The state update leaves behind, step by step *)

(** The state after [_unrenderContent]. *)
Definition unrender_content (w : World) : World :=
  set_element []
    (set_points
       (fold_left (fun pts v => upd v (point_with_element false) pts)
                  (_tripPoints w) (points w))
       (set_tripPointEdit None
          (set_edits
             (match _tripPointEdit w with
              | Some e => upd e (edit_with_element false) (edits w)
              | None => edits w
              end) w))).

Definition message_nodes (message : string) : list node :=
  if negb (String.eqb message "") then [_createMessage message] else [].

(** The state after the loop of [update] went over [ds]: a rendered view
    for each record, its element in a day section, tracked in order. *)
Definition with_views (ds : list TripPointRecord) (w : World) : World :=
  set_tripPoints (_tripPoints w ++ seq (length (points w)) (length ds))
    (set_points (points w ++ map (fun d => mkTripPoint d true true) ds) w).

(** The state in which the loop raises on [d]: the view is created,
    tracked and rendered, and its element is left without parent. *)
Definition with_orphan (d : TripPointRecord) (w : World) : World :=
  set_tripPoints (_tripPoints w ++ [length (points w)])
    (set_points (points w ++ [mkTripPoint d true false]) w).

(** Two worlds with the same arrays, data source, filter and comparator. *)
Definition same_data (w w' : World) : Prop :=
  arrays w' = arrays w /\ getTripPoints w' = getTripPoints w /\
  _sortFunction w' = _sortFunction w /\ _filterFunction w' = _filterFunction w.

(** The state in which the loop of [update] starts. *)
Definition before_days (w wd : World) : Prop :=
  same_component (set_element (message_nodes (_message w)) (unrender_content w)) wd.

(** ** The rendered tree, read back *)

Definition shown (it : item) : TripPointRecord :=
  match it with PointNode _ d => d | EditNode _ d => d end.

(** The elements of fresh read-only views for [ds], numbered from [k]. *)
Fixpoint views_from (k : nat) (ds : list TripPointRecord) : list item :=
  match ds with
  | [] => []
  | d :: rest => PointNode k d :: views_from (S k) rest
  end.

(** The records shown in each day section, section by section. *)
Fixpoint shown_days (dom : list node) : list (list TripPointRecord) :=
  match dom with
  | [] => []
  | DayNode _ _ its :: rest => map shown its :: shown_days rest
  | MessageNode _ _ :: rest => shown_days rest
  end.



Definition is_edit_node (it : item) : bool :=
  match it with EditNode _ _ => true | PointNode _ _ => false end.

(** The tree as it looks: which view object an element belongs to is
    forgotten, since every rendering creates its views anew. *)
Definition look_item (it : item) : item :=
  match it with PointNode _ d => PointNode 0 d | EditNode _ d => EditNode 0 d end.

Definition look_node (n : node) : node :=
  match n with
  | MessageNode text hidden => MessageNode text hidden
  | DayNode number title its => DayNode number title (map look_item its)
  end.

Definition rendered (dom : list node) : list node := map look_node dom.

(** The number of places where a value differs from the one before it. *)
Fixpoint changes (l : list Z) : nat :=
  match l with
  | a :: (b :: _) as rest => if a =? b then changes rest else S (changes rest)
  | _ => O
  end.

Section Grouping.

Variable dayOf : Z -> Z.
Variable formatDate : Z -> string.

(** The fragment the loop of [update] builds when nothing raises, given the
    reference [k] the next view gets. *)
Fixpoint days_from (tripStartDate : option Z) (ds : list TripPointRecord)
    (prev : Z) (fragment : list node) (k : nat) : option (list node) :=
  match ds with
  | [] => Some fragment
  | d :: rest =>
      let fragment1 :=
        if negb (calcDaysDiff dayOf prev (dateFrom d) =? 0)
        then fragment ++ [_createTripDayElement dayOf formatDate (dateFrom d) tripStartDate]
        else fragment in
      match _addTripPointElementToDayElement fragment1 (PointNode k d) with
      | Some fragment2 => days_from tripStartDate rest (dateFrom d) fragment2 (S k)
      | None => None
      end
  end.

(** The day difference of a record from the trip start date. *)
Definition day_diff (start : Z) (d : TripPointRecord) : Z :=
  calcDaysDiff dayOf start (dateFrom d).

(** The spec's grouping: walking the records in order with [cur] the
    section being filled and [last] its latest record, a record whose day
    difference from the trip start equals that of [last] joins [cur], any
    other record closes [cur] and opens a new section. *)
Fixpoint groups_from (start : Z) (cur : list TripPointRecord)
    (last : TripPointRecord) (ds : list TripPointRecord)
    : list (list TripPointRecord) :=
  match ds with
  | [] => [cur]
  | d :: rest =>
      if day_diff start d =? day_diff start last
      then groups_from start (cur ++ [d]) d rest
      else cur :: groups_from start [d] d rest
  end.

Definition day_groups (start : Z) (ds : list TripPointRecord)
    : list (list TripPointRecord) :=
  match ds with
  | [] => []
  | d :: rest => groups_from start [d] d rest
  end.

(** A day section is well labelled for trip start [start]: it is not
    empty, its title is the date of its first record, and its number is the
    day difference of each of its records plus 1. *)
Definition section_ok (start : Z) (n : node) : Prop :=
  match n with
  | DayNode number title its =>
      (exists it rest, its = it :: rest /\
                       title = formatDate (dateFrom (shown it))) /\
      (forall it, In it its -> number = Some (day_diff start (shown it) + 1))
  | MessageNode _ _ => True
  end.

End Grouping.

(** [s] is the least [dateFrom] among [l]. *)
Definition least_dateFrom (s : Z) (l : list TripPointRecord) : Prop :=
  In s (map dateFrom l) /\ forall r, In r l -> s <= dateFrom r.

(** ** Edit sessions, counted *)

(** The edit view at [e] in the store holds an element. *)
Definition open_in (eds : list TripPointEdit) (e : nat) : Prop :=
  exists x, nth_error eds e = Some x /\ te_element x = true.

(** The same, computed. *)
Definition element_of (eds : list TripPointEdit) (e : nat) : bool :=
  match nth_error eds e with Some x => te_element x | None => false end.

(** Edit view [e] holds an element: its edit session is open. *)
Definition edit_open (w : World) (e : nat) : Prop := open_in (edits w) e.

(** The edit forms on the page. *)
Definition edit_nodes (w : World) : list item :=
  filter is_edit_node (dom_items (_element w)).

(** At most one edit session: any two edit views holding an element are
    one view, and the page shows at most one edit form, the one of the
    current session. *)
Definition at_most_one_session (w : World) : Prop :=
  (forall e1 e2, edit_open w e1 -> edit_open w e2 -> e1 = e2) /\
  (length (edit_nodes w) <= 1)%nat /\
  (forall e d, In (EditNode e d) (dom_items (_element w)) ->
               _tripPointEdit w = Some e).

(** The invariant behind it, on the store of edit views, the current edit
    session and the elements on the page. *)
Definition sessions (eds : list TripPointEdit) (cur : option nat)
    (its : list item) : Prop :=
  (forall e, open_in eds e -> cur = Some e) /\
  (length (filter is_edit_node its) <= 1)%nat /\
  (forall e d, In (EditNode e d) its -> open_in eds e) /\
  (forall e, cur = Some e -> (e < length eds)%nat).

(** No edit session is open and no edit form is on the page. *)
Definition none_open (eds : list TripPointEdit) (its : list item) : Prop :=
  (forall e, ~ open_in eds e) /\ filter is_edit_node its = [].

Definition sessions_inv (w : World) : Prop :=
  sessions (edits w) (_tripPointEdit w) (dom_items (_element w)).

(** An event that opens an edit session: an edit request of a view on the
    page, or [openTripPointInEditMode] with the id of a tracked view. *)
Definition opens (w : World) (ev : event) : Prop :=
  match ev with
  | ClickEdit tripPoint data =>
      In (PointNode tripPoint data) (dom_items (_element w))
  | CallOpenTripPointInEditMode i =>
      find (has_id i w) (_tripPoints w) <> None
  | _ => False
  end.

(** ** A page in UTC, for the examples *)

Definition MSEC_IN_DAY : Z := 86400000.
Definition MSEC_IN_HOUR : Z := 3600000.

(** The calendar day of a timestamp for a page in UTC. *)
Definition utcDay (date : Z) : Z := date / MSEC_IN_DAY.

(** A stand-in for the "MMM D" title; nothing below depends on its text. *)
Definition titleOf (date : Z) : string :=
  if date <? 0 then "before 1970" else "MMM D".

(** A one-hour trip point starting at [hour] o'clock on [day]. *)
Definition point_at (i day hour : Z) : TripPointRecord :=
  mkRecord i (day * MSEC_IN_DAY + hour * MSEC_IN_HOUR)
           (day * MSEC_IN_DAY + (hour + 1) * MSEC_IN_HOUR) "Geneva" [].

(** Three points on days 0, 0 and 1 of a trip that starts on day 17967. *)
Definition trip_0_0_1 : list TripPointRecord :=
  [point_at 1 17967 9; point_at 2 17967 15; point_at 3 17968 8].

(** Three points on days 0, 1 and 0, in this order at the data source. *)
Definition trip_0_1_0 : list TripPointRecord :=
  [point_at 1 17967 9; point_at 2 17968 8; point_at 3 17967 15].

(** Two points on days 0 and 2. *)
Definition trip_0_2 : list TripPointRecord :=
  [point_at 1 17967 9; point_at 3 17969 8].

(** A single point. *)
Definition trip_single : list TripPointRecord := [point_at 1 17967 9].

(** The component showing [trip_0_0_1], and the same after an edit request
    on its first point. *)
Definition viewing_0_0_1 : World :=
  final (run utcDay titleOf CallUpdate (initial (Some trip_0_0_1))).

Definition editing_0_0_1 : World :=
  final (run utcDay titleOf (ClickEdit 0 (point_at 1 17967 9)) viewing_0_0_1).

(** What a failed request may change: the edit view [e] and nothing else;
    in particular no request is pending that was not pending before. *)
Definition only_edit_changed (e : nat) (w w' : World) : Prop :=
  arrays w' = arrays w /\ points w' = points w /\ requests w' = requests w /\
  getTripPoints w' = getTripPoints w /\ _sortFunction w' = _sortFunction w /\
  _filterFunction w' = _filterFunction w /\
  _tripPointEdit w' = _tripPointEdit w /\ _tripPoints w' = _tripPoints w /\
  _message w' = _message w /\ _element w' = _element w /\
  length (edits w') = length (edits w) /\
  forall e', e' <> e -> nth_error (edits w') e' = nth_error (edits w) e'.

(** A trip whose only point is on the day of timestamp 0. *)
Definition trip_epoch : list TripPointRecord := [point_at 1 0 9].


(** Two points, the later one first. *)
Definition trip_1_0 : list TripPointRecord :=
  [point_at 2 17968 8; point_at 1 17967 9].


(** [(a, b) => a.dateFrom > b.dateFrom ? 1 : 0]: not consistent, of two
    records with different dates one ties with the other and is above it
    the other way round. *)
Definition above_or_equal : comparator :=
  fun a b => if dateFrom b <? dateFrom a then 1 else 0.


(** The list after [update] raised on the record of [trip_epoch]. *)
Definition after_epoch_raise : World :=
  final (run utcDay titleOf CallUpdate (initial (Some trip_epoch))).

(** ** More of the component, read back *)

(** The records shown on the page, in page order. *)
Definition page_records (w : World) : list TripPointRecord :=
  map shown (dom_items (_element w)).

(** The view objects of the read-only views among [its]. *)
Fixpoint point_refs (its : list item) : list nat :=
  match its with
  | [] => []
  | PointNode v _ :: rest => v :: point_refs rest
  | EditNode _ _ :: rest => point_refs rest
  end.

(** Day sections as runs of days: no section is empty, the records of a
    section fall on one day, and neighbouring sections are for different
    days. *)
Fixpoint day_runs (day : TripPointRecord -> Z)
    (gs : list (list TripPointRecord)) : Prop :=
  match gs with
  | [] => True
  | g :: rest =>
      g <> [] /\
      (forall a b, In a g -> In b g -> day a = day b) /\
      match rest with
      | g' :: _ => forall a b, In a g -> In b g' -> day a <> day b
      | [] => True
      end /\
      day_runs day rest
  end.

(** View [v] holds an element. *)
Definition holds_element (w : World) (v : nat) : bool :=
  match nth_error (points w) v with
  | Some p => tp_element p
  | None => false
  end.

(** The element of view [v] has a parent element. *)
Definition has_parent (w : World) (v : nat) : bool :=
  match nth_error (points w) v with
  | Some p => tp_parent p
  | None => false
  end.

(** View [v] holds an element that has a parent element. *)
Definition attached (w : World) (v : nat) : bool :=
  holds_element w v && has_parent w v.

(** There is no current edit session, or its view holds an element. *)
Definition session_ok (w : World) : bool :=
  match _tripPointEdit w with
  | Some e => element_of (edits w) e
  | None => true
  end.

(** The read-only view an opening event is about: the view whose edit
    request fires, or the first tracked view with the id. *)
Definition opened_view (w : World) (ev : event) : option nat :=
  match ev with
  | ClickEdit tripPoint _ => Some tripPoint
  | CallOpenTripPointInEditMode i => find (has_id i w) (_tripPoints w)
  | _ => None
  end.

(** The read-only views on the page and in the tracked list: no view
    object is on the page twice, a view on the page holds its element and
    the record it shows, the element has a parent, and the tracked views
    are distinct view objects. *)
Definition views_inv (w : World) : Prop :=
  NoDup (point_refs (dom_items (_element w))) /\
  (forall v d, In (PointNode v d) (dom_items (_element w)) ->
     nth_error (points w) v = Some (mkTripPoint d true true)) /\
  (forall v, In v (_tripPoints w) -> (v < length (points w))%nat) /\
  NoDup (_tripPoints w).

(** ** Stores: lemmas *)

Lemma upd_length {A} (i : nat) (f : A -> A) (l : list A) :
  length (upd i f l) = length l.
Proof.
  revert i; induction l as [|x l IH]; intros [|i]; simpl; auto.
Qed.

Lemma nth_error_upd {A} (i j : nat) (f : A -> A) (l : list A) :
  nth_error (upd i f l) j =
  if Nat.eqb i j then option_map f (nth_error l j) else nth_error l j.
Proof.
  revert i j; induction l as [|x l IH]; intros [|i] [|j]; simpl; auto.
  destruct (Nat.eqb i j); reflexivity.
Qed.

Lemma nth_upd_same {A} (i : nat) (v d : A) (l : list A) :
  (i < length l)%nat -> nth i (upd i (fun _ => v) l) d = v.
Proof.
  revert i; induction l as [|x l IH]; intros [|i] H; simpl in *; try lia; auto.
  apply IH; lia.
Qed.

Lemma nth_upd_other {A} (i j : nat) (f : A -> A) (d : A) (l : list A) :
  i <> j -> nth j (upd i f l) d = nth j l d.
Proof.
  revert i j; induction l as [|x l IH]; intros [|i] [|j] H; simpl; auto;
    try congruence.
Qed.

Lemma upd_beyond {A} (i : nat) (f : A -> A) (l : list A) :
  (length l <= i)%nat -> upd i f l = l.
Proof.
  revert i; induction l as [|x l IH]; intros [|i] H; simpl in *; auto; try lia.
  rewrite IH by lia; reflexivity.
Qed.

Lemma upd_app_last {A} (f : A -> A) (l : list A) (x : A) :
  upd (length l) f (l ++ [x]) = l ++ [f x].
Proof.
  induction l as [|y l IH]; simpl; auto. rewrite IH; reflexivity.
Qed.

(** ** Sorting and filtering: lemmas *)

Lemma sort_of_nil cmp : sort_of engine cmp [] = [].
Proof. apply Permutation_nil. symmetry. apply sort_permutes. Qed.

(** Sorting what is sorted changes nothing, for a consistent comparator. *)
Lemma sort_of_again cmp l :
  consistent cmp ->
  sort_of engine cmp (sort_of engine cmp l) = sort_of engine cmp l.
Proof. intros Hc. apply sort_stable; [exact Hc | apply sort_orders, Hc]. Qed.

(** A predicate whose calls return filters as [filter] does. *)
Lemma filter_calling_returning f xs :
  filter_calling (returning f) xs = Some (filter f xs).
Proof.
  induction xs as [|x xs IH]; simpl; [reflexivity|].
  rewrite IH. simpl. destruct (f x); reflexivity.
Qed.

Lemma typeof_called v : typeof (called v) = typeof v.
Proof. destruct v; reflexivity. Qed.

(** ** getDisplayedPoints: lemmas *)


Lemma as_function_some {F} (v : jsval F) f :
  as_function v = Some f <-> v = JFunction f.
Proof.
  destruct v; simpl; split; intros H; try discriminate; congruence.
Qed.

Lemma _getData_run w :
  _getData w = match getTripPoints w with
               | Some a => Ok a w
               | None => Ok (length (arrays w)) (set_arrays (arrays w ++ [[]]) w)
               end.
Proof.
  unfold _getData, bind, get. destruct (getTripPoints w); reflexivity.
Qed.

Lemma _filterPoints_run a w :
  _filterPoints a w =
  match as_function (_filterFunction w) with
  | Some f =>
      Ok (length (arrays w)) (set_arrays (arrays w ++ [filter f (deref a w)]) w)
  | None => Ok a w
  end.
Proof.
  unfold _filterPoints, _filterPoints_with, bind, get.
  destruct (_filterFunction w); try reflexivity.
  simpl. unfold bind, read_array, get. rewrite filter_calling_returning.
  reflexivity.
Qed.

Lemma _sortPoints_run a w :
  _sortPoints a w =
  match as_function (_sortFunction w) with
  | Some cmp =>
      Ok a (set_arrays (upd a (fun _ => sort_of engine cmp (deref a w)) (arrays w)) w)
  | None => Ok a w
  end.
Proof.
  unfold _sortPoints, bind, get. destruct (_sortFunction w); reflexivity.
Qed.

Lemma nth_new {A} (l : list A) (x d : A) : nth (length l) (l ++ [x]) d = x.
Proof.
  rewrite app_nth2 by lia. rewrite Nat.sub_diag. reflexivity.
Qed.

Lemma nth_upd_sort cmp a (l : list (list TripPointRecord)) :
  nth a (upd a (fun _ => sort_of engine cmp (nth a l [])) l) []
  = sort_of engine cmp (nth a l []).
Proof.
  destruct (Nat.lt_ge_cases a (length l)) as [H|H].
  - apply nth_upd_same; assumption.
  - rewrite upd_beyond by assumption.
    rewrite (nth_overflow l [] H). symmetry. apply sort_of_nil.
Qed.

Lemma same_component_refl w : same_component w w.
Proof. unfold same_component; repeat split. Qed.

Lemma same_component_arrays v w : same_component w (set_arrays v w).
Proof. unfold same_component; repeat split. Qed.

Lemma same_component_trans w1 w2 w3 :
  same_component w1 w2 -> same_component w2 w3 -> same_component w1 w3.
Proof.
  unfold same_component; intros H1 H2.
  repeat match goal with H : _ /\ _ |- _ => destruct H end.
  repeat split; congruence.
Qed.

Lemma same_component_set v w w' :
  same_component w w' -> same_component w (set_arrays v w').
Proof.
  intros H. eapply same_component_trans; [exact H | apply same_component_arrays].
Qed.

(** Worlds with the same component and the same records in the array of
    the data source display the same records. *)
Lemma displayed_records_same w w' :
  same_component w w' -> source_records w' = source_records w ->
  displayed_records w' = displayed_records w.
Proof.
  intros (_ & _ & _ & _ & Hs & Hf & _) Hr.
  unfold displayed_records. rewrite Hs, Hf, Hr. reflexivity.
Qed.

Lemma _getData_ok w :
  exists a w',
    _getData w = Ok a w' /\ deref a w' = source_records w /\
    same_component w w' /\
    source_records w' = source_records w /\
    (source_valid w -> source_valid w') /\
    (forall s, getTripPoints w = Some s -> a = s /\ w' = w).
Proof.
  rewrite _getData_run. unfold source_records, source_valid.
  destruct (getTripPoints w) as [s|] eqn:Hs; do 2 eexists; (split; [reflexivity|]).
  - rewrite Hs. repeat split; auto using same_component_refl; congruence.
  - unfold deref; simpl. rewrite nth_new, Hs.
    repeat split; auto using same_component_arrays; discriminate.
Qed.

(** [getDisplayedPoints] returns for the values the component holds: the
    guards keep [filter] and [sort] away from values that are not
    functions.  The array it returns holds the displayed records, and only
    the array store changes. *)
Lemma getDisplayedPoints_ok w :
  exists a w',
    getDisplayedPoints w = Ok a w' /\
    deref a w' = displayed_records w /\
    same_component w w'.
Proof.
  unfold getDisplayedPoints, bind.
  rewrite _getData_run.
  set (w1 := match getTripPoints w with
             | Some _ => w | None => set_arrays (arrays w ++ [[]]) w end).
  set (a := match getTripPoints w with
            | Some a => a | None => length (arrays w) end).
  assert (Hd : deref a w1 = source_records w /\ same_component w w1).
  { unfold a, w1, source_records, deref.
    destruct (getTripPoints w); simpl;
      rewrite ?nth_new; auto using same_component_refl, same_component_arrays. }
  destruct Hd as [Hd Hc1].
  replace (match getTripPoints w with
           | Some a0 => Ok a0 w
           | None => Ok (length (arrays w)) (set_arrays (arrays w ++ [[]]) w)
           end) with (Ok a w1)
    by (unfold a, w1; destruct (getTripPoints w); reflexivity).
  rewrite _filterPoints_run, Hd.
  assert (Hf : _filterFunction w1 = _filterFunction w) by apply Hc1.
  assert (Hs : _sortFunction w1 = _sortFunction w) by apply Hc1.
  unfold displayed_records. rewrite Hf.
  destruct (as_function (_filterFunction w)) as [f|].
  - rewrite _sortPoints_run. simpl. rewrite Hs.
    destruct (as_function (_sortFunction w)) as [cmp|];
      do 2 eexists; (split; [reflexivity|]); unfold deref; simpl;
      rewrite ?upd_app_last, ?nth_new; (split; [reflexivity|]);
      repeat apply same_component_set; assumption.

  - rewrite _sortPoints_run, Hs, Hd.
    destruct (as_function (_sortFunction w)) as [cmp|];
      do 2 eexists; (split; [reflexivity|]); unfold deref; simpl.
    + unfold deref in Hd. rewrite <- Hd, nth_upd_sort. split; [reflexivity|].
      apply same_component_set; assumption.
    + auto.
Qed.

(** The array of a valid data source keeps its records through
    [getDisplayedPoints], up to their order; with a consistent comparator
    the displayed records are the same when asked for again. *)
Lemma getDisplayedPoints_stable w a w' :
  source_valid w ->
  getDisplayedPoints w = Ok a w' ->
  source_valid w' /\
  Permutation (source_records w') (source_records w) /\
  (sort_consistent w -> displayed_records w' = displayed_records w).
Proof.
  unfold getDisplayedPoints, bind, sort_consistent.
  rewrite _getData_run.
  unfold displayed_records, source_records, source_valid, deref.
  destruct (getTripPoints w) as [s|] eqn:Hs.
  - rewrite _filterPoints_run.
    destruct (as_function (_filterFunction w)) as [f|] eqn:Hf.
    + rewrite _sortPoints_run. simpl.
      destruct (as_function (_sortFunction w)) as [cmp|] eqn:Hc;
        intros Hv H; injection H as <- <-; simpl; rewrite ?Hs, ?Hf, ?Hc;
        rewrite ?upd_length, ?length_app; simpl.
      * rewrite nth_upd_other by lia. rewrite app_nth1 by assumption.
        split; [lia|]. split; reflexivity.
      * rewrite app_nth1 by assumption.
        split; [lia|]. split; reflexivity.
    + rewrite _sortPoints_run.
      destruct (as_function (_sortFunction w)) as [cmp|] eqn:Hc;
        intros Hv H; injection H as <- <-; simpl; rewrite ?Hs, ?Hf, ?Hc;
        rewrite ?upd_length.
      * unfold deref. rewrite nth_upd_sort.
        split; [assumption|]. split; [apply sort_permutes|].
        intros Ht. apply sort_of_again, Ht, as_function_some, Hc.
      * split; [assumption|]. split; reflexivity.
  - intros _ H. rewrite _filterPoints_run in H. simpl in H.
    assert (Hg : getTripPoints w' = None /\ _filterFunction w' = _filterFunction w
                 /\ _sortFunction w' = _sortFunction w).
    { destruct (as_function (_filterFunction w));
        rewrite _sortPoints_run in H; simpl in H;
        destruct (as_function (_sortFunction w));
        injection H as <- <-; simpl; auto. }
    destruct Hg as (-> & -> & ->). split; [exact I|]. split; reflexivity.
Qed.

(** ** update: lemmas *)

Lemma unrender_tracked_run l w :
  fold_right (fun tripPoint k => point_unrender tripPoint ;; k) (ret tt) l w =
  Ok tt (set_points
           (fold_left (fun pts v => upd v (point_with_element false) pts)
                      l (points w)) w).
Proof.
  revert w; induction l as [|v l IH]; intros w; simpl.
  - destruct w; reflexivity.
  - unfold bind at 1. unfold point_unrender, point_set_element, modify.
    rewrite IH. destruct w; reflexivity.
Qed.

Lemma _unrenderContent_run w : _unrenderContent w = Ok tt (unrender_content w).
Proof.
  unfold _unrenderContent, unrender_content, bind, get.
  destruct (_tripPointEdit w) as [e|] eqn:He.
  - unfold edit_unrender, edit_set_element, edit_modify, modify.
    rewrite unrender_tracked_run. unfold removeChilds, modify.
    destruct w; simpl in *; subst; reflexivity.
  - unfold ret. rewrite unrender_tracked_run. unfold removeChilds, modify.
    destruct w; simpl in *; subst; reflexivity.
Qed.

Lemma view_step {A} d (K : nat -> item -> M A) w :
  (tripPoint <- _createTripPoint d ;;
   modify (fun w => set_tripPoints (_tripPoints w ++ [tripPoint]) w) ;;
   el <- point_render tripPoint d ;;
   K tripPoint el) w
  = K (length (points w)) (PointNode (length (points w)) d) (with_orphan d w).
Proof.
  unfold bind, _createTripPoint, new_TripPoint, modify, point_render,
    point_set_element, bind, modify, ret, with_orphan.
  simpl. rewrite upd_app_last. reflexivity.
Qed.

(** Appended to its day section, the element has a parent. *)
Lemma point_placed_orphan d w :
  point_placed (length (points w)) (with_orphan d w) = Ok tt (with_views [d] w).
Proof.
  unfold point_placed, modify, with_orphan, with_views.
  simpl. rewrite upd_app_last. reflexivity.
Qed.

Lemma with_views_nil w : with_views [] w = w.
Proof.
  unfold with_views; destruct w; simpl. rewrite !app_nil_r. reflexivity.
Qed.

Lemma with_views_cons d ds w :
  with_views ds (with_views [d] w) = with_views (d :: ds) w.
Proof.
  unfold with_views; destruct w; simpl.
  rewrite length_app, <- !app_assoc; simpl.
  rewrite Nat.add_1_r. reflexivity.
Qed.

Section RenderingLemmas.

Variable dayOf : Z -> Z.
Variable formatDate : Z -> string.

Lemma add_item_day F n t its el :
  _addTripPointElementToDayElement (F ++ [DayNode n t its]) el
  = Some (F ++ [DayNode n t (its ++ [el])]).
Proof.
  induction F as [|x F IH]; simpl; auto.
  rewrite IH. destruct F; simpl; destruct x; reflexivity.
Qed.

(** Once the fragment ends in a day section the loop cannot raise, and
    what it builds is what [days_from] computes. *)
Lemma render_days_day start ds : forall prev F n t its w,
  exists frag,
    days_from dayOf formatDate start ds prev (F ++ [DayNode n t its])
              (length (points w)) = Some frag /\
    render_days dayOf formatDate start ds prev (F ++ [DayNode n t its]) w
    = Ok frag (with_views ds w).
Proof.
  induction ds as [|d ds IH]; intros prev F n t its w.
  - exists (F ++ [DayNode n t its]). simpl. rewrite with_views_nil.
    split; reflexivity.
  - cbn [render_days days_from]. rewrite view_step.
    destruct (negb (calcDaysDiff dayOf prev (dateFrom d) =? 0)).
    + unfold _createTripDayElement.
      rewrite !add_item_day. unfold bind at 1. rewrite point_placed_orphan.
      destruct (IH (dateFrom d) (F ++ [DayNode n t its])
                   (option_map (fun s => calcDaysDiff dayOf s (dateFrom d) + 1) start)
                   (formatDate (dateFrom d)) ([] ++ [PointNode (length (points w)) d])
                   (with_views [d] w)) as (frag & H1 & H2).
      exists frag. rewrite with_views_cons in H2. split; [|exact H2].
      rewrite <- H1. f_equal.
      unfold with_views; simpl. rewrite length_app; simpl. lia.
    + rewrite !add_item_day. unfold bind at 1. rewrite point_placed_orphan.
      destruct (IH (dateFrom d) F n t (its ++ [PointNode (length (points w)) d])
                   (with_views [d] w)) as (frag & H1 & H2).
      exists frag. rewrite with_views_cons in H2. split; [|exact H2].
      rewrite <- H1. f_equal.
      unfold with_views; simpl. rewrite length_app; simpl. lia.
Qed.

(** The loop as [update] starts it: it raises exactly when the first
    displayed record falls on the day of timestamp 0, for which no day
    section is created. *)
Lemma render_days_start start d ds w :
  if dayOf (dateFrom d) =? dayOf 0
  then days_from dayOf formatDate start (d :: ds) 0 [] (length (points w)) = None /\
       render_days dayOf formatDate start (d :: ds) 0 [] w
       = Throw (with_orphan d w)
  else exists frag,
       days_from dayOf formatDate start (d :: ds) 0 [] (length (points w))
       = Some frag /\
       render_days dayOf formatDate start (d :: ds) 0 [] w
       = Ok frag (with_views (d :: ds) w).
Proof.
  cbn [render_days days_from]. rewrite view_step. unfold calcDaysDiff.
  destruct (dayOf (dateFrom d) =? dayOf 0) eqn:E.
  - apply Z.eqb_eq in E. rewrite E, Z.sub_diag. simpl. split; reflexivity.
  - apply Z.eqb_neq in E.
    replace (dayOf (dateFrom d) - dayOf 0 =? 0) with false
      by (symmetry; apply Z.eqb_neq; lia).
    simpl. unfold bind at 1. rewrite point_placed_orphan.
    destruct (render_days_day start ds (dateFrom d) []
                (option_map (fun s => dayOf (dateFrom d) - dayOf s + 1) start)
                (formatDate (dateFrom d)) [PointNode (length (points w)) d]
                (with_views [d] w)) as (frag & H1 & H2).
    exists frag. rewrite with_views_cons in H2. simpl in H1, H2.
    split; [|exact H2]. rewrite <- H1. f_equal.
    unfold with_views; simpl. rewrite length_app; simpl. lia.
Qed.

Lemma same_data_facts w w' :
  same_data w w' ->
  source_records w' = source_records w /\
  displayed_records w' = displayed_records w /\
  (source_valid w <-> source_valid w') /\
  (sort_consistent w <-> sort_consistent w').
Proof.
  intros (Ha & Hg & Hs & Hf).
  unfold displayed_records, source_records, source_valid, sort_consistent, deref.
  rewrite Ha, Hg, Hs, Hf.
  split; [reflexivity|]. split; [reflexivity|]. split; reflexivity.
Qed.

Lemma same_data_unrender w : same_data w (unrender_content w).
Proof. unfold same_data; repeat split. Qed.

Lemma same_data_views ds el w :
  same_data w (set_element el (with_views ds w)).
Proof. unfold same_data; repeat split. Qed.

Lemma same_data_orphan d w : same_data w (with_orphan d w).
Proof. unfold same_data; repeat split. Qed.

(** What [update] does, by the displayed records.  [wd] is the state in
    which the loop starts. *)
Lemma update_cases w :
  exists wd,
    before_days w wd /\
    (source_valid w ->
     source_valid wd /\
     Permutation (source_records wd) (source_records w) /\
     (sort_consistent w -> displayed_records wd = displayed_records w)) /\
    match displayed_records w with
    | [] => update dayOf formatDate w = Ok tt wd
    | d :: ds =>
        if dayOf (dateFrom d) =? dayOf 0
        then update dayOf formatDate w = Throw (with_orphan d wd)
        else exists frag,
          days_from dayOf formatDate (getTripStartDate (source_records wd))
                    (d :: ds) 0 [] (length (points wd)) = Some frag /\
          update dayOf formatDate w
          = Ok tt (set_element (message_nodes (_message w) ++ frag)
                               (with_views (d :: ds) wd))
    end.
Proof.
  unfold update, bind. rewrite _unrenderContent_run.
  destruct (same_data_facts _ _ (same_data_unrender w)) as (Hu1 & Hu2 & Hu3 & Hu4).
  destruct (getDisplayedPoints_ok (unrender_content w)) as (a & w1 & Hg & Ha & Hc).
  pose proof (fun Hv => getDisplayedPoints_stable _ _ _ Hv Hg) as Hst.
  rewrite Hg, Hu2 in *. clear Hg.
  unfold read_array, get. rewrite Ha.
  assert (Hm : _message w1 = _message w) by apply Hc.
  rewrite Hm.
  set (w2 := final ((if negb (String.eqb (_message w) "")
                     then appendChild [_createMessage (_message w)]
                     else ret tt) w1)).
  assert (H2 : (if negb (String.eqb (_message w) "")
                then appendChild [_createMessage (_message w)]
                else ret tt) w1 = Ok tt w2).
  { unfold w2. destruct (negb (String.eqb (_message w) "")); reflexivity. }
  rewrite H2.
  assert (Hb : before_days w w2 /\ same_data w1 w2).
  { unfold w2, before_days, message_nodes, same_data.
    destruct Hc as (? & ? & ? & ? & ? & ? & ? & ? & ? & He).
    destruct (negb (String.eqb (_message w) "")); simpl;
      unfold same_component; simpl; rewrite ?He; simpl;
      repeat split; assumption. }
  destruct Hb as [Hb Hsd].
  destruct (same_data_facts _ _ Hsd) as (Hd1 & Hd2 & Hd3 & Hd4).
  assert (Hst2 : source_valid w ->
                 source_valid w2 /\
                 Permutation (source_records w2) (source_records w) /\
                 (sort_consistent w -> displayed_records w2 = displayed_records w)).
  { intros Hv. destruct (Hst (proj1 Hu3 Hv)) as (Hv1 & Hp1 & Hs1).
    rewrite Hd1, Hd2, <- Hu1.
    split; [apply Hd3, Hv1|]. split; [exact Hp1|].
    intros Ht. apply Hs1, Hu4, Ht. }
  destruct (displayed_records w) as [|d ds] eqn:Hd.
  - exists w2. split; [exact Hb|]. split; [exact Hst2 | reflexivity].
  - destruct (_getData_ok w2) as (a' & w3 & -> & Ha' & Hc' & Hr' & Hv' & _).
    exists w3. split; [|split].
    + unfold before_days in *. eauto using same_component_trans.
    + intros Hv. destruct (Hst2 Hv) as (Hv2 & Hp2 & Hs2).
      rewrite Hr'. repeat split; auto.
      intros Ht. rewrite <- (Hs2 Ht). apply displayed_records_same; assumption.
    + rewrite <- Hr' in Ha'. rewrite Ha'.
      pose proof (render_days_start (getTripStartDate (source_records w3)) d ds w3) as Hr.
      destruct (dayOf (dateFrom d) =? dayOf 0).
      * destruct Hr as [_ ->]. reflexivity.
      * destruct Hr as (frag & Hf & ->). exists frag. split; [exact Hf|].
        unfold appendChild, modify. f_equal. f_equal.
        unfold with_views; simpl.
        replace (_element w3) with (message_nodes (_message w)); [reflexivity|].
        destruct Hc' as (_ & _ & _ & _ & _ & _ & _ & _ & _ & ->).
        destruct Hb as (_ & _ & _ & _ & _ & _ & _ & _ & _ & ->).
        reflexivity.
Qed.

(** *** What the loop builds *)

Lemma shown_days_app F G : shown_days (F ++ G) = shown_days F ++ shown_days G.
Proof.
  induction F as [|[text hidden|n t its] F IH]; simpl; auto.
  rewrite IH; reflexivity.
Qed.

Lemma dom_items_app F G : dom_items (F ++ G) = dom_items F ++ dom_items G.
Proof.
  induction F as [|[text hidden|n t its] F IH]; simpl; auto.
  rewrite IH, app_assoc; reflexivity.
Qed.

Lemma same_day_diff s prev d :
  (calcDaysDiff dayOf (dateFrom prev) (dateFrom d) =? 0)
  = (day_diff dayOf s d =? day_diff dayOf s prev).
Proof.
  unfold day_diff, calcDaysDiff.
  destruct (dayOf (dateFrom d) - dayOf (dateFrom prev) =? 0) eqn:E;
    symmetry; [apply Z.eqb_eq; apply Z.eqb_eq in E | apply Z.eqb_neq; apply Z.eqb_neq in E];
    lia.
Qed.

(** The sections are the spec's groups. *)
Lemma days_from_groups s start ds : forall prev F n t its k res,
  days_from dayOf formatDate start ds (dateFrom prev) (F ++ [DayNode n t its]) k
  = Some res ->
  shown_days res = shown_days F ++ groups_from dayOf s (map shown its) prev ds.
Proof.
  induction ds as [|d ds IH]; intros prev F n t its k res H.
  - simpl in H. injection H as <-. rewrite shown_days_app. reflexivity.
  - cbn [days_from groups_from] in *.
    rewrite <- (same_day_diff s prev d).
    destruct (calcDaysDiff dayOf (dateFrom prev) (dateFrom d) =? 0); simpl in H.
    + rewrite add_item_day in H. apply IH in H.
      rewrite H, map_app. reflexivity.
    + unfold _createTripDayElement in H. rewrite add_item_day in H.
      apply IH in H. rewrite H, shown_days_app, <- app_assoc. reflexivity.
Qed.

(** The elements of the sections, in order, are the views of the records
    in displayed order. *)
Lemma days_from_items start ds : forall prev F n t its k res,
  days_from dayOf formatDate start ds prev (F ++ [DayNode n t its]) k = Some res ->
  dom_items res = dom_items (F ++ [DayNode n t its]) ++ views_from k ds.
Proof.
  induction ds as [|d ds IH]; intros prev F n t its k res H.
  - simpl in H. injection H as <-. simpl. rewrite app_nil_r. reflexivity.
  - cbn [days_from views_from] in *.
    destruct (calcDaysDiff dayOf prev (dateFrom d) =? 0); simpl in H.
    + rewrite add_item_day in H. apply IH in H.
      rewrite H, !dom_items_app. simpl. rewrite !app_nil_r, <- !app_assoc.
      reflexivity.
    + unfold _createTripDayElement in H. rewrite add_item_day in H.
      apply IH in H.
      rewrite H, !dom_items_app. simpl. rewrite !app_nil_r, <- !app_assoc.
      reflexivity.
Qed.

(** Every section is labelled from the trip start date. *)
Lemma days_from_labels s ds : forall prev F n t its k res,
  Forall (section_ok dayOf formatDate s) F ->
  section_ok dayOf formatDate s (DayNode n t its) ->
  n = Some (calcDaysDiff dayOf s prev + 1) ->
  days_from dayOf formatDate (Some s) ds prev (F ++ [DayNode n t its]) k = Some res ->
  Forall (section_ok dayOf formatDate s) res.
Proof.
  induction ds as [|d ds IH]; intros prev F n t its k res HF HD Hn H.
  - simpl in H. injection H as <-. apply Forall_app. split; auto.
  - cbn [days_from] in H.
    destruct (calcDaysDiff dayOf prev (dateFrom d) =? 0) eqn:E; simpl in H.
    + rewrite add_item_day in H. apply Z.eqb_eq in E.
      assert (Hd : n = Some (calcDaysDiff dayOf s (dateFrom d) + 1)).
      { rewrite Hn. f_equal. unfold calcDaysDiff in *. lia. }
      eapply IH; [exact HF | | exact Hd | exact H].
      destruct HD as [(it & rest & -> & Ht) Hall]. split.
      * exists it, (rest ++ [PointNode k d]). split; [reflexivity | exact Ht].
      * intros it' Hin. apply in_app_or in Hin. destruct Hin as [Hin|[<-|[]]].
        -- apply Hall, Hin.
        -- exact Hd.
    + unfold _createTripDayElement in H. rewrite add_item_day in H.
      eapply IH; [ | | | exact H].
      * apply Forall_app. split; auto.
      * split.
        -- exists (PointNode k d), []. split; reflexivity.
        -- intros it' [<-|[]]. reflexivity.
      * reflexivity.
Qed.

Lemma days_from_first start d ds k :
  dayOf (dateFrom d) <> dayOf 0 ->
  days_from dayOf formatDate start (d :: ds) 0 [] k
  = days_from dayOf formatDate start ds (dateFrom d)
      ([] ++ [DayNode (option_map (fun s => calcDaysDiff dayOf s (dateFrom d) + 1) start)
                      (formatDate (dateFrom d)) [PointNode k d]]) (S k).
Proof.
  intros H. cbn [days_from]. unfold calcDaysDiff at 1.
  replace (dayOf (dateFrom d) - dayOf 0 =? 0) with false
    by (symmetry; apply Z.eqb_neq; lia).
  reflexivity.
Qed.

Lemma days_from_start_groups s start d ds k res :
  dayOf (dateFrom d) <> dayOf 0 ->
  days_from dayOf formatDate start (d :: ds) 0 [] k = Some res ->
  shown_days res = day_groups dayOf s (d :: ds) /\
  dom_items res = views_from k (d :: ds).
Proof.
  intros Hd H. rewrite days_from_first in H by assumption. split.
  - apply (days_from_groups s) in H. exact H.
  - apply days_from_items in H. rewrite H. reflexivity.
Qed.

Lemma days_from_start_labels s d ds k res :
  dayOf (dateFrom d) <> dayOf 0 ->
  days_from dayOf formatDate (Some s) (d :: ds) 0 [] k = Some res ->
  Forall (section_ok dayOf formatDate s) res.
Proof.
  intros Hd H. rewrite days_from_first in H by assumption.
  eapply days_from_labels; [ | | | exact H].
  - constructor.
  - split.
    + exists (PointNode k d), []. split; reflexivity.
    + intros it [<-|[]]. reflexivity.
  - reflexivity.
Qed.

(** *** The spec's groups *)

Lemma groups_from_length s ds : forall cur last,
  length (groups_from dayOf s cur last ds)
  = S (changes (day_diff dayOf s last :: map (day_diff dayOf s) ds)).
Proof.
  induction ds as [|d ds IH]; intros cur last; simpl; auto.
  rewrite Z.eqb_sym.
  destruct (day_diff dayOf s last =? day_diff dayOf s d); simpl; rewrite IH;
    reflexivity.
Qed.

Lemma groups_from_concat s ds : forall cur last,
  concat (groups_from dayOf s cur last ds) = cur ++ ds.
Proof.
  induction ds as [|d ds IH]; intros cur last; simpl.
  - reflexivity.
  - destruct (day_diff dayOf s d =? day_diff dayOf s last); simpl; rewrite IH.
    + rewrite <- app_assoc. reflexivity.
    + reflexivity.
Qed.

Lemma day_groups_length s d ds :
  length (day_groups dayOf s (d :: ds))
  = S (changes (map (day_diff dayOf s) (d :: ds))).
Proof. apply groups_from_length. Qed.

Lemma day_groups_concat s ds : concat (day_groups dayOf s ds) = ds.
Proof. destruct ds as [|d ds]; [reflexivity|]. apply groups_from_concat. Qed.

End RenderingLemmas.

(** In a sequence that never decreases, the places where the value changes
    are as many as its distinct values, less one. *)
Lemma changes_distinct (l : list Z) :
  Sorted Z.le l -> l <> [] -> S (changes l) = length (nodup Z.eq_dec l).
Proof.
  intros Hs. apply Sorted_StronglySorted in Hs; [|exact Z.le_trans].
  induction Hs as [|a l Hs IH Ha]; intros Hne; [congruence|].
  destruct l as [|b r]; [reflexivity|].
  cbn [changes nodup].
  specialize (IH ltac:(discriminate)).
  destruct (a =? b) eqn:E.
  - apply Z.eqb_eq in E. subst b.
    destruct (in_dec Z.eq_dec a (a :: r)) as [_|Hn]; [exact IH|].
    exfalso; apply Hn; left; reflexivity.
  - apply Z.eqb_neq in E.
    destruct (in_dec Z.eq_dec a (b :: r)) as [Hin|_].
    + exfalso. inversion Hs as [|? ? _ Hb]; subst.
      rewrite Forall_forall in Ha, Hb.
      assert (a <= b) by (apply Ha; left; reflexivity).
      destruct Hin as [->|Hin]; [congruence|].
      specialize (Hb _ Hin). lia.
    + cbn [length]. f_equal. exact IH.
Qed.

(** ** getTripStartDate: lemmas *)

Lemma getTripStartDate_from l : forall m,
  exists s,
    fold_left (fun min point =>
                 match min with
                 | Some m => if dateFrom point <? m then Some (dateFrom point) else min
                 | None => Some (dateFrom point)
                 end) l (Some m) = Some s /\
    (s = m \/ In s (map dateFrom l)) /\ s <= m /\
    (forall r, In r l -> s <= dateFrom r).
Proof.
  induction l as [|x l IH]; intros m; simpl.
  - exists m. repeat split; auto; try lia; intros r [].
  - destruct (dateFrom x <? m) eqn:E.
    + apply Z.ltb_lt in E.
      destruct (IH (dateFrom x)) as (s & -> & Hin & Hle & Hall).
      exists s. repeat split; try lia.
      * destruct Hin as [->|Hin]; auto.
      * intros r [<-|Hr]; auto.
    + apply Z.ltb_ge in E.
      destruct (IH m) as (s & -> & Hin & Hle & Hall).
      exists s. repeat split; try lia.
      * destruct Hin as [->|Hin]; auto.
      * intros r [<-|Hr]; [lia | auto].
Qed.

Lemma getTripStartDate_least d l :
  exists s, getTripStartDate (d :: l) = Some s /\ least_dateFrom s (d :: l).
Proof.
  unfold getTripStartDate; simpl.
  destruct (getTripStartDate_from l (dateFrom d)) as (s & -> & Hin & Hle & Hall).
  exists s. split; [reflexivity|]. split.
  - simpl. destruct Hin as [->|Hin]; auto.
  - intros r [<-|Hr]; auto.
Qed.

Lemma least_dateFrom_unique s s' l :
  least_dateFrom s l -> least_dateFrom s' l -> s = s'.
Proof.
  intros [Hin Hle] [Hin' Hle'].
  apply in_map_iff in Hin as (r & <- & Hr).
  apply in_map_iff in Hin' as (r' & <- & Hr').
  specialize (Hle _ Hr'). specialize (Hle' _ Hr). lia.
Qed.

Lemma least_dateFrom_perm s l l' :
  Permutation l l' -> least_dateFrom s l -> least_dateFrom s l'.
Proof.
  intros Hp [Hin Hle]. split.
  - eapply Permutation_in; [apply Permutation_map, Hp | exact Hin].
  - intros r Hr. apply Hle. eapply Permutation_in; [symmetry; exact Hp | exact Hr].
Qed.

Lemma getTripStartDate_perm l l' :
  Permutation l l' -> getTripStartDate l = getTripStartDate l'.
Proof.
  intros Hp. destruct l as [|d l], l' as [|d' l'].
  - reflexivity.
  - apply Permutation_nil in Hp. discriminate.
  - symmetry in Hp. apply Permutation_nil in Hp. discriminate.
  - destruct (getTripStartDate_least d l) as (s & -> & Hs).
    destruct (getTripStartDate_least d' l') as (s' & -> & Hs').
    f_equal. eapply least_dateFrom_unique; [|exact Hs'].
    eapply least_dateFrom_perm; eassumption.
Qed.

(** ** Edit sessions: lemmas *)

Lemma replace_first_app_found old new l r :
  existsb old l = true ->
  replace_first old new (l ++ r) = replace_first old new l ++ r.
Proof.
  induction l as [|x l IH]; simpl; intros H; [discriminate|].
  destruct (old x); simpl in *; [reflexivity|]. rewrite IH by assumption.
  reflexivity.
Qed.

Lemma replace_first_app_missing old new l r :
  existsb old l = false ->
  replace_first old new (l ++ r) = l ++ replace_first old new r.
Proof.
  induction l as [|x l IH]; simpl; intros H; [reflexivity|].
  destruct (old x); simpl in *; [discriminate|]. rewrite IH by assumption.
  reflexivity.
Qed.

Lemma dom_items_replaceChild old new dom :
  dom_items (replaceChild old new dom) = replace_first old new (dom_items dom).
Proof.
  induction dom as [|[text hidden|n t its] dom IH]; simpl; auto.
  destruct (existsb old its) eqn:E; simpl.
  - rewrite replace_first_app_found by assumption. reflexivity.
  - rewrite replace_first_app_missing, IH by assumption. reflexivity.
Qed.

Lemma no_edit_nodes_in l e d :
  filter is_edit_node l = [] -> ~ In (EditNode e d) l.
Proof.
  intros H Hin.
  assert (Hf : In (EditNode e d) (filter is_edit_node l))
    by (apply filter_In; split; [exact Hin | reflexivity]).
  rewrite H in Hf. destruct Hf.
Qed.

(** Replacing a read-only view by the edit form [e] where there was no
    edit form gives at most one, and it is [e]. *)
Lemma replace_point_by_edit old e d l :
  filter is_edit_node l = [] ->
  (length (filter is_edit_node (replace_first old (EditNode e d) l)) <= 1)%nat /\
  (forall e' d', In (EditNode e' d') (replace_first old (EditNode e d) l) -> e' = e).
Proof.
  induction l as [|x l IH]; simpl; intros H.
  - split; [lia | intros e' d' []].
  - destruct (is_edit_node x) eqn:Ex; [discriminate|].
    destruct (old x); simpl.
    + rewrite H. split; [simpl; lia|].
      intros e' d' [Heq|Hin]; [congruence|].
      exfalso. eapply no_edit_nodes_in; eassumption.
    + rewrite Ex. destruct (IH H) as [Hl Hin]. split; [exact Hl|].
      intros e' d' [Heq|Hin']; [subst x; discriminate | eauto].
Qed.

(** Replacing the only edit form by a read-only view leaves none. *)
Lemma replace_edit_by_point e v d l :
  (length (filter is_edit_node l) <= 1)%nat ->
  (forall e' d', In (EditNode e' d') l -> e' = e) ->
  filter is_edit_node (replace_first (is_edit e) (PointNode v d) l) = [].
Proof.
  induction l as [|x l IH]; simpl; intros Hl Hall; [reflexivity|].
  destruct x as [v' d'|e' d']; simpl in *.
  - apply IH; [exact Hl | eauto].
  - assert (e' = e) as -> by (eapply Hall; left; reflexivity).
    rewrite Nat.eqb_refl. simpl.
    destruct (filter is_edit_node l); [reflexivity | simpl in Hl; lia].
Qed.

Lemma open_in_upd_closed eds e e' :
  open_in (upd e (edit_with_element false) eds) e' -> open_in eds e' /\ e' <> e.
Proof.
  intros (x & Hx & Ht). rewrite nth_error_upd in Hx.
  destruct (Nat.eqb e e') eqn:E.
  - destruct (nth_error eds e'); simpl in Hx; [|discriminate].
    injection Hx as <-. discriminate.
  - apply Nat.eqb_neq in E. split; [exists x; auto | congruence].
Qed.

Lemma sessions_none_open eds its :
  none_open eds its -> sessions eds None its.
Proof.
  intros [Hn Hf]. repeat split.
  - intros e He. destruct (Hn e He).
  - rewrite Hf. simpl. lia.
  - intros e d Hin. exfalso. eapply no_edit_nodes_in; eassumption.
  - discriminate.
Qed.

(** Closing the current session, as [update] does on a cleared page. *)
Lemma sessions_unrender eds cur its its' :
  sessions eds cur its ->
  filter is_edit_node its' = [] ->
  none_open (match cur with
             | Some e => upd e (edit_with_element false) eds
             | None => eds
             end) its'.
Proof.
  intros (H1 & _ & _ & _) Hf. split; [|exact Hf].
  destruct cur as [e|]; intros e' He'.
  - apply open_in_upd_closed in He'. destruct He' as [Ho Hne].
    apply H1 in Ho. congruence.
  - apply H1 in He'. discriminate.
Qed.

(** Cancelling the current session, as [onCancel] does. *)
Lemma sessions_cancel eds e its v d :
  sessions eds (Some e) its ->
  none_open (upd e (edit_with_element false) eds)
            (replace_first (is_edit e) (PointNode v d) its).
Proof.
  intros (H1 & H2 & H3 & _). split.
  - intros e' He'. apply open_in_upd_closed in He'. destruct He' as [Ho Hne].
    apply H1 in Ho. congruence.
  - apply replace_edit_by_point; [exact H2|].
    intros e' d' Hin. apply H3, H1 in Hin. congruence.
Qed.

Lemma open_in_new eds x e :
  open_in (eds ++ [x]) e -> open_in eds e \/ (e = length eds /\ te_element x = true).
Proof.
  intros (y & Hy & Ht).
  destruct (Nat.lt_ge_cases e (length eds)) as [Hlt|Hge].
  - rewrite nth_error_app1 in Hy by assumption. left. exists y. auto.
  - rewrite nth_error_app2 in Hy by assumption.
    destruct (e - length eds)%nat as [|k] eqn:E; simpl in Hy.
    + injection Hy as <-. right. split; [lia | exact Ht].
    + destruct k; discriminate.
Qed.

(** A new edit view that is not rendered yet, as [open_edit] has it when
    the view to replace holds no element. *)
Lemma sessions_created eds its data :
  none_open eds its ->
  sessions (eds ++ [mkTripPointEdit data false Unblocked 0 false])
           (Some (length eds)) its.
Proof.
  intros [Hn Hf]. repeat split.
  - intros e He. apply open_in_new in He. destruct He as [He|[_ He]].
    + destruct (Hn e He).
    + discriminate.
  - rewrite Hf. simpl. lia.
  - intros e d Hin. exfalso. eapply no_edit_nodes_in; eassumption.
  - intros e He. injection He as <-. rewrite length_app. simpl. lia.
Qed.

(** The new edit view rendered in place of a read-only view. *)
Lemma sessions_opened eds its data old :
  none_open eds its ->
  sessions (upd (length eds) (edit_with_element true)
                (eds ++ [mkTripPointEdit data false Unblocked 0 false]))
           (Some (length eds))
           (replace_first old (EditNode (length eds) data) its).
Proof.
  intros [Hn Hf]. rewrite upd_app_last.
  destruct (replace_point_by_edit old (length eds) data its Hf) as [Hl Hin].
  repeat split.
  - intros e He. apply open_in_new in He. destruct He as [He|[-> _]].
    + destruct (Hn e He).
    + reflexivity.
  - exact Hl.
  - intros e d Hd. apply Hin in Hd. subst e.
    exists (edit_with_element true (mkTripPointEdit data false Unblocked 0 false)).
    split; [|reflexivity].
    rewrite nth_error_app2, Nat.sub_diag by lia. reflexivity.
  - intros e He. injection He as <-. rewrite length_app. simpl. lia.
Qed.

(** Changes to an edit view that keep its element. *)
Lemma sessions_modify eds cur its e f :
  (forall x, te_element (f x) = te_element x) ->
  sessions eds cur its -> sessions (upd e f eds) cur its.
Proof.
  intros Hf (H1 & H2 & H3 & H4).
  assert (Ho : forall e', open_in (upd e f eds) e' <-> open_in eds e').
  { intros e'. unfold open_in. rewrite nth_error_upd.
    destruct (Nat.eqb e e'); [|reflexivity].
    destruct (nth_error eds e') as [x|]; simpl.
    - split; intros (y & Hy & Ht).
      + injection Hy as <-. rewrite Hf in Ht. eauto.
      + injection Hy as <-. exists (f x). rewrite Hf. auto.
    - split; intros (y & Hy & _); discriminate. }
  repeat split.
  - intros e' He'. apply H1, Ho, He'.
  - exact H2.
  - intros e' d Hin. apply Ho, H3 with d, Hin.
  - intros e' He'. rewrite upd_length. apply H4, He'.
Qed.

Lemma sessions_at_most_one w : sessions_inv w -> at_most_one_session w.
Proof.
  intros (H1 & H2 & H3 & _). repeat split.
  - intros e1 e2 He1 He2. apply H1 in He1, He2. congruence.
  - exact H2.
  - intros e d Hin. apply H1, H3 with d, Hin.
Qed.

Lemma replace_first_in old new l x :
  In x (replace_first old new l) -> x = new \/ In x l.
Proof.
  induction l as [|y l IH]; simpl; [intros []|].
  destruct (old y); simpl; intros [H|H]; auto.
  destruct (IH H); auto.
Qed.

Lemma no_edit_nodes l :
  (forall e d, ~ In (EditNode e d) l) -> filter is_edit_node l = [].
Proof.
  induction l as [|[v d|e d] l IH]; simpl; intros H.
  - reflexivity.
  - apply IH. intros e d' Hin. apply (H e d'). right. exact Hin.
  - destruct (H e d). left. reflexivity.
Qed.

Lemma views_from_no_edit ds : forall k, filter is_edit_node (views_from k ds) = [].
Proof. induction ds as [|d ds IH]; intros k; simpl; auto. Qed.

Lemma dom_items_message m : dom_items (message_nodes m) = [].
Proof. unfold message_nodes. destruct (negb (String.eqb m "")); reflexivity. Qed.

Lemma element_of_open eds e : element_of eds e = true <-> open_in eds e.
Proof.
  unfold element_of, open_in. destruct (nth_error eds e) as [x|]; split.
  - eauto.
  - intros (y & Hy & Ht). congruence.
  - discriminate.
  - intros (y & Hy & _). discriminate.
Qed.

(** What [onCancel] leaves behind: with an element to replace it closes
    the edit view; without one it raises. *)
Lemma onCancel_final e d w :
  let o := onCancel e d w in
  returned o = element_of (edits w) e /\
  edits (final o)
  = (if element_of (edits w) e
     then upd e (edit_with_element false) (edits w) else edits w) /\
  _tripPointEdit (final o)
  = (if element_of (edits w) e then None else _tripPointEdit w) /\
  _element (final o)
  = (if element_of (edits w) e
     then replaceChild (is_edit e) (PointNode (length (points w)) d) (_element w)
     else _element w).
Proof.
  unfold onCancel, bind, _createTripPoint, new_TripPoint, edit_element, get,
    element_of.
  simpl. destruct (nth_error (edits w) e) as [x|]; [destruct (te_element x)|];
    simpl; repeat split; reflexivity.
Qed.

Lemma cancel_current_final w :
  sessions_inv w ->
  let o := cancel_current w in
  sessions_inv (final o) /\
  length (edits (final o)) = length (edits w) /\
  (returned o = true ->
   none_open (edits (final o)) (dom_items (_element (final o)))) /\
  (forall e, _tripPointEdit w = Some e ->
     ~ edit_open (final o) e /\
     forall d, ~ In (EditNode e d) (dom_items (_element (final o)))).
Proof.
  intros Hinv. unfold sessions_inv in Hinv.
  pose proof Hinv as (H1 & H2 & H3 & H4).
  unfold cancel_current, bind, get.
  destruct (_tripPointEdit w) as [e|] eqn:Hc.
  - unfold cancelEdit.
    destruct (nth_error (edits w) e) as [x|] eqn:Hx.
    + destruct (onCancel_final e (te_data x) w) as (Hr & He & Ht & Hel).
      cbv zeta. unfold sessions_inv, edit_open.
      rewrite Hr, He, Ht, Hel.
      destruct (element_of (edits w) e) eqn:Ho.
      * rewrite dom_items_replaceChild, upd_length.
        pose proof (sessions_cancel _ _ _ (length (points w)) (te_data x) Hinv) as Hn.
        split; [apply sessions_none_open, Hn|]. split; [reflexivity|].
        split; [intros _; exact Hn|].
        intros e' He'. injection He' as <-. destruct Hn as [Hn Hf].
        split; [apply Hn | intros d'; apply no_edit_nodes_in, Hf].
      * rewrite Hc. split; [exact Hinv|]. split; [reflexivity|].
        split; [discriminate|].
        intros e' He'. injection He' as <-.
        assert (Hno : ~ open_in (edits w) e).
        { intros Hopen. apply element_of_open in Hopen. congruence. }
        split; [exact Hno | intros d' Hin; apply Hno, H3 with d', Hin].
    + exfalso. assert (e < length (edits w))%nat by (apply H4; reflexivity).
      apply nth_error_None in Hx. lia.
  - simpl. unfold sessions_inv. rewrite Hc.
    split; [exact Hinv|]. split; [reflexivity|]. split; [|discriminate].
    intros _. split.
    + intros e He. apply H1 in He. discriminate.
    + apply no_edit_nodes. intros e d' Hin. apply H3, H1 in Hin. discriminate.
Qed.

(** What [show_edit] leaves behind. *)
Lemma show_edit_final v d w :
  let o := show_edit v d w in
  let el := attached w v in
  let e := length (edits w) in
  let created := edits w ++ [mkTripPointEdit d false Unblocked 0 false] in
  returned o = el /\
  _tripPointEdit (final o) = Some e /\
  edits (final o) = (if el then upd e (edit_with_element true) created else created) /\
  _element (final o)
  = (if el then replaceChild (is_point v) (EditNode e d) (_element w)
     else _element w).
Proof.
  unfold show_edit, bind, _createTripPointEdit, new_TripPointEdit, modify,
    point_element, point_parentElement, get, attached, holds_element, has_parent.
  simpl.
  destruct (nth_error (points w) v) as [p|] eqn:E; simpl;
    [destruct (tp_element p); simpl; rewrite ?E; simpl;
     [destruct (tp_parent p); simpl|] |];
    repeat split; reflexivity.
Qed.

Lemma show_edit_sessions v d w :
  none_open (edits w) (dom_items (_element w)) ->
  sessions_inv (final (show_edit v d w)).
Proof.
  intros Hn. destruct (show_edit_final v d w) as (_ & Hc & He & Hel).
  unfold sessions_inv. rewrite Hc, He, Hel.
  destruct (attached w v).
  - rewrite dom_items_replaceChild. apply sessions_opened, Hn.
  - apply sessions_created, Hn.
Qed.

(** Opening an edit session keeps the invariant, and the session that was
    current before is closed afterwards. *)
Lemma open_edit_final v d w :
  sessions_inv w ->
  let o := open_edit v d w in
  sessions_inv (final o) /\
  forall e, _tripPointEdit w = Some e ->
    ~ edit_open (final o) e /\
    (forall d', ~ In (EditNode e d') (dom_items (_element (final o)))) /\
    (returned o = true ->
     exists e', _tripPointEdit (final o) = Some e' /\ e' <> e /\
                edit_open (final o) e').
Proof.
  intros Hinv. pose proof Hinv as (_ & _ & _ & H4).
  destruct (cancel_current_final w Hinv) as (Hi1 & Hlen & Hn1 & Hold).
  unfold open_edit, bind. cbv zeta in *.
  destruct (cancel_current w) as [[] w1|w1]; simpl in *.
  - specialize (Hn1 eq_refl). split; [apply show_edit_sessions, Hn1|].
    intros e Hc. destruct (Hold e Hc) as [Hno Hnin].
    assert (Hlt : (e < length (edits w1))%nat) by (rewrite Hlen; apply H4, Hc).
    destruct (show_edit_final v d w1) as (Hr & Hcur & He & Hel).
    cbv zeta in *. unfold edit_open. rewrite Hr, Hcur, He, Hel.
    destruct (attached w1 v).
    + rewrite upd_app_last, dom_items_replaceChild. split; [|split].
      * intros Hopen. apply open_in_new in Hopen.
        destruct Hopen as [Hopen|[Heq _]]; [exact (Hno Hopen) | lia].
      * intros d' Hin. apply replace_first_in in Hin.
        destruct Hin as [Heq|Hin]; [injection Heq; lia | exact (Hnin d' Hin)].
      * intros _. exists (length (edits w1)). split; [reflexivity|].
        split; [lia|].
        exists (edit_with_element true (mkTripPointEdit d false Unblocked 0 false)).
        split; [|reflexivity].
        rewrite nth_error_app2, Nat.sub_diag by lia. reflexivity.
    + split; [|split].
      * intros Hopen. apply open_in_new in Hopen.
        destruct Hopen as [Hopen|[Heq _]]; [exact (Hno Hopen) | lia].
      * exact Hnin.
      * discriminate.
  - split; [exact Hi1|]. intros e Hc. destruct (Hold e Hc) as [Hno Hnin].
    split; [exact Hno|]. split; [exact Hnin | discriminate].
Qed.

(** * The properties of the specification *)

(** C4, amended: with a null filter predicate, [getDisplayedPoints] returns
    the very array the data source handed out, holding exactly the records
    it held: sorted in place by the sort of the engine when a comparator is
    set, which puts them in the order of the comparator when the comparator
    is consistent, and untouched, in source order, when the sort function is
    not a function. *)
Theorem getDisplayedPoints_null_filter (w : World) (s : nat) :
  _filterFunction w = JNull ->
  getTripPoints w = Some s ->
  (s < length (arrays w))%nat ->
  exists w',
    getDisplayedPoints w = Ok s w' /\
    same_component w w' /\
    source_records w' = deref s w' /\
    Permutation (deref s w') (source_records w) /\
    (forall cmp, _sortFunction w = JFunction cmp ->
       arrays w' = upd s (fun _ => sort_of engine cmp (source_records w)) (arrays w) /\
       deref s w' = sort_of engine cmp (source_records w) /\
       (consistent cmp -> ordered_by cmp (deref s w'))) /\
    (as_function (_sortFunction w) = None ->
       w' = w /\ deref s w' = source_records w).
Proof.
  intros Hf Hs Hv.
  unfold getDisplayedPoints, bind.
  rewrite _getData_run, Hs, _filterPoints_run, Hf. simpl.
  rewrite _sortPoints_run.
  unfold source_records. rewrite Hs.
  destruct (as_function (_sortFunction w)) as [cmp|] eqn:Hc.
  - eexists. split; [reflexivity|].
    split; [apply same_component_arrays|].
    simpl. rewrite Hs.
    assert (Hd : deref s (set_arrays (upd s (fun _ => sort_of engine cmp (deref s w))
                                          (arrays w)) w)
                 = sort_of engine cmp (deref s w)).
    { unfold deref; simpl. apply nth_upd_sort. }
    rewrite Hd. split; [reflexivity|]. split; [apply sort_permutes|]. split.
    + intros cmp' Hc'. apply as_function_some in Hc'.
      assert (cmp' = cmp) as -> by congruence.
      split; [reflexivity|]. split; [reflexivity|].
      intros Hcons. apply sort_orders, Hcons.
    + discriminate.
  - exists w. split; [reflexivity|].
    split; [apply same_component_refl|]. rewrite Hs.
    split; [reflexivity|]. split; [reflexivity|]. split.
    + intros cmp Hc'. apply as_function_some in Hc'. congruence.
    + auto.
Qed.

(** *** Function values whose call raises *)





Section Properties.

Variable dayOf : Z -> Z.
Variable formatDate : Z -> string.

Lemma shown_days_message m : shown_days (message_nodes m) = [].
Proof. unfold message_nodes. destruct (negb (String.eqb m "")); reflexivity. Qed.

Lemma no_day_in_message m n t its : ~ In (DayNode n t its) (message_nodes m).
Proof.
  unfold message_nodes, _createMessage.
  destruct (negb (String.eqb m "")); simpl; [intros [H|[]]; discriminate | auto].
Qed.

Lemma before_days_element w wd :
  before_days w wd -> _element wd = message_nodes (_message w).
Proof. intros (_ & _ & _ & _ & _ & _ & _ & _ & _ & ->). reflexivity. Qed.



(** C1, amended: unless the first displayed record falls on the day of
    timestamp 0, [update] returns, and it opens a new day section exactly
    where a record's day difference from the trip start date differs from
    that of the record before it: the sections are the runs of records with
    equal day difference, their number is one more than the number of
    places where the difference changes, and for records displayed in the
    order of their days it is the number of distinct day differences. *)
Theorem update_day_sections (w : World) (start : Z) :
  (forall d ds, displayed_records w = d :: ds -> dayOf (dateFrom d) <> dayOf 0) ->
  exists w',
    update dayOf formatDate w = Ok tt w' /\
    shown_days (_element w') = day_groups dayOf start (displayed_records w) /\
    concat (shown_days (_element w')) = displayed_records w /\
    length (shown_days (_element w'))
    = match displayed_records w with
      | [] => O
      | ds => S (changes (map (day_diff dayOf start) ds))
      end /\
    (Sorted Z.le (map (day_diff dayOf start) (displayed_records w)) ->
     length (shown_days (_element w'))
     = length (nodup Z.eq_dec (map (day_diff dayOf start) (displayed_records w)))).
Proof.
  intros Hfirst.
  destruct (update_cases dayOf formatDate w) as (wd & Hb & _ & Hu).
  apply before_days_element in Hb.
  destruct (displayed_records w) as [|d ds] eqn:Hd.
  - exists wd. split; [exact Hu|]. rewrite Hb, shown_days_message.
    repeat split; reflexivity.
  - specialize (Hfirst d ds eq_refl).
    replace (dayOf (dateFrom d) =? dayOf 0) with false in Hu
      by (symmetry; apply Z.eqb_neq; exact Hfirst).
    destruct Hu as (frag & Hf & Hu).
    eexists. split; [exact Hu|].
    destruct (days_from_start_groups dayOf formatDate start _ d ds _ frag Hfirst Hf)
      as [Hg _].
    assert (Hs : shown_days (_element
                   (set_element (message_nodes (_message w) ++ frag)
                                (with_views (d :: ds) wd)))
                 = day_groups dayOf start (d :: ds)).
    { simpl _element. rewrite shown_days_app, shown_days_message. exact Hg. }
    rewrite Hs. split; [reflexivity|]. split; [apply day_groups_concat|].
    split; [apply day_groups_length|].
    intros Hsorted. rewrite day_groups_length.
    apply changes_distinct; [exact Hsorted | discriminate].
Qed.

Lemma in_dom_items dom n t its it :
  In (DayNode n t its) dom -> In it its -> In it (dom_items dom).
Proof.
  induction dom as [|[text hidden|n' t' its'] dom IH]; simpl; intros H Hit.
  - destruct H.
  - destruct H as [H|H]; [discriminate | auto].
  - apply in_or_app. destruct H as [H|H]; [injection H as -> -> ->|]; auto.
Qed.

Lemma views_from_shown ds : forall k it,
  In it (views_from k ds) -> In (shown it) ds.
Proof.
  induction ds as [|d ds IH]; simpl; intros k it H; [exact H|].
  destruct H as [<-|H]; [left; reflexivity | right; eauto].
Qed.

Lemma unrender_tracked_length l : forall pts : list TripPoint,
  length (fold_left (fun pts v => upd v (point_with_element false) pts) l pts)
  = length pts.
Proof.
  induction l as [|v l IH]; intros pts; simpl; [reflexivity|].
  rewrite IH. apply upd_length.
Qed.

Lemma before_days_views w wd :
  before_days w wd ->
  _tripPoints wd = _tripPoints w /\ length (points wd) = length (points w).
Proof.
  intros (Hp & _ & _ & _ & _ & _ & _ & Ht & _). split.
  - rewrite Ht. reflexivity.
  - rewrite Hp. simpl. apply unrender_tracked_length.
Qed.

(** C6: the number of every day section [update] renders is the day
    difference of the records it shows from the least [dateFrom] among all
    records of the data source, plus 1; the section is titled by the date
    of its first record, and its records are displayed ones. *)
Theorem day_numbers_from_trip_start (w : World) (s : Z) n t its :
  source_valid w ->
  least_dateFrom s (source_records w) ->
  In (DayNode n t its) (_element (final (update dayOf formatDate w))) ->
  (exists it rest, its = it :: rest /\ t = formatDate (dateFrom (shown it))) /\
  (forall it, In it its ->
     In (shown it) (displayed_records w) /\
     n = Some (calcDaysDiff dayOf s (dateFrom (shown it)) + 1)).
Proof.
  intros Hv Hs Hin.
  destruct (update_cases dayOf formatDate w) as (wd & Hb & Hst & Hu).
  apply before_days_element in Hb.
  destruct (Hst Hv) as (_ & Hp & _).
  destruct (displayed_records w) as [|d ds] eqn:Hd.
  - rewrite Hu in Hin. simpl in Hin. rewrite Hb in Hin.
    apply no_day_in_message in Hin. destruct Hin.
  - destruct (dayOf (dateFrom d) =? dayOf 0) eqn:E.
    + rewrite Hu in Hin. simpl in Hin. rewrite Hb in Hin.
      apply no_day_in_message in Hin. destruct Hin.
    + apply Z.eqb_neq in E. destruct Hu as (frag & Hf & Hu).
      rewrite Hu in Hin. simpl in Hin.
      apply in_app_or in Hin. destruct Hin as [Hin|Hin];
        [apply no_day_in_message in Hin; destruct Hin|].
      assert (Hstart : getTripStartDate (source_records wd) = Some s).
      { apply (least_dateFrom_perm _ _ _ (Permutation_sym Hp)) in Hs.
        destruct (source_records wd) as [|d0 l0].
        - destruct Hs as [[] _].
        - destruct (getTripStartDate_least d0 l0) as (s' & -> & Hs').
          f_equal. eapply least_dateFrom_unique; eassumption. }
      rewrite Hstart in Hf.
      pose proof (days_from_start_labels dayOf formatDate s d ds _ frag E Hf) as Hl.
      rewrite Forall_forall in Hl. specialize (Hl _ Hin).
      destruct Hl as [Hfirst Hall]. split; [exact Hfirst|].
      intros it Hit. split; [|apply Hall, Hit].
      destruct (days_from_start_groups dayOf formatDate s _ d ds _ frag E Hf)
        as [_ Hitems].
      apply (views_from_shown _ (length (points wd))).
      rewrite <- Hitems. eapply in_dom_items; eassumption.
Qed.

(** C3: what [update] does to the list of tracked views.  It only ever
    appends to it: the views of the renderings before stay in the list, and
    a view for each displayed record is added. *)
Theorem update_keeps_tracked_views (w w' : World) :
  update dayOf formatDate w = Ok tt w' ->
  _tripPoints w'
  = _tripPoints w ++ seq (length (points w)) (length (displayed_records w)).
Proof.
  intros H.
  destruct (update_cases dayOf formatDate w) as (wd & Hb & _ & Hu).
  apply before_days_views in Hb. destruct Hb as [Ht Hl].
  destruct (displayed_records w) as [|d ds] eqn:Hd.
  - rewrite Hu in H. injection H as <-. rewrite Ht, app_nil_r. reflexivity.
  - destruct (dayOf (dateFrom d) =? dayOf 0).
    + rewrite Hu in H. discriminate.
    + destruct Hu as (frag & _ & Hu). rewrite Hu in H. injection H as <-.
      simpl. rewrite Ht, Hl. reflexivity.
Qed.

(** *** What [update] returns with *)

Lemma shown_views_from ds : forall k, map shown (views_from k ds) = ds.
Proof. induction ds as [|d ds IH]; intros k; simpl; [|rewrite IH]; reflexivity. Qed.

(** The state [update] returns with. *)
Lemma update_returned w w' :
  update dayOf formatDate w = Ok tt w' ->
  dom_items (_element w')
  = views_from (length (points w)) (displayed_records w) /\
  points w'
  = points (unrender_content w)
    ++ map (fun d => mkTripPoint d true true) (displayed_records w) /\
  edits w' = edits (unrender_content w) /\
  _tripPointEdit w' = None /\
  requests w' = requests w /\ getTripPoints w' = getTripPoints w /\
  _sortFunction w' = _sortFunction w /\ _filterFunction w' = _filterFunction w /\
  _message w' = _message w.
Proof.
  intros H.
  destruct (update_cases dayOf formatDate w) as (wd & Hb & _ & Hu).
  pose proof (before_days_element _ _ Hb) as Hel.
  pose proof (before_days_views _ _ Hb) as [_ Hlen].
  destruct Hb as (Hp & He & Hr & Hg & Hs & Hf & Hc & _ & Hm & _).
  simpl in Hp, He, Hr, Hg, Hs, Hf, Hc, Hm.
  destruct (displayed_records w) as [|d ds] eqn:Hd.
  - rewrite Hu in H. injection H as <-.
    rewrite Hel, dom_items_message, Hp, app_nil_r.
    repeat split; assumption.
  - destruct (dayOf (dateFrom d) =? dayOf 0) eqn:E.
    + rewrite Hu in H. discriminate.
    + apply Z.eqb_neq in E. destruct Hu as (frag & Hfr & Hu).
      rewrite Hu in H. injection H as <-.
      destruct (days_from_start_groups dayOf formatDate 0 _ d ds _ frag E Hfr)
        as [_ Hitems].
      simpl. rewrite dom_items_app, dom_items_message, Hitems, Hlen, Hp.
      repeat split; assumption.
Qed.

Lemma update_page_records w w' :
  update dayOf formatDate w = Ok tt w' -> page_records w' = displayed_records w.
Proof.
  intros H. destruct (update_returned w w' H) as (Hi & _).
  unfold page_records. rewrite Hi. apply shown_views_from.
Qed.


(** *** Rendering again *)

Lemma rendered_app F G : rendered (F ++ G) = rendered F ++ rendered G.
Proof. apply map_app. Qed.

(** What the loop renders does not depend on the references its views
    get. *)
Lemma days_from_look start ds : forall prev F F' n t its its' k k' res res',
  rendered F = rendered F' ->
  map look_item its = map look_item its' ->
  days_from dayOf formatDate start ds prev (F ++ [DayNode n t its]) k = Some res ->
  days_from dayOf formatDate start ds prev (F' ++ [DayNode n t its']) k' = Some res' ->
  rendered res = rendered res'.
Proof.
  induction ds as [|d ds IH]; intros prev F F' n t its its' k k' res res' HF Hi H H'.
  - simpl in H, H'. injection H as <-. injection H' as <-.
    rewrite !rendered_app, HF. simpl. rewrite Hi. reflexivity.
  - cbn [days_from] in H, H'.
    destruct (calcDaysDiff dayOf prev (dateFrom d) =? 0); simpl in H, H'.
    + rewrite add_item_day in H, H'.
      eapply IH; [exact HF | | exact H | exact H'].
      rewrite !map_app, Hi. reflexivity.
    + unfold _createTripDayElement in H, H'. rewrite add_item_day in H, H'.
      eapply IH; [ | | exact H | exact H'].
      * rewrite !rendered_app, HF. simpl. rewrite Hi. reflexivity.
      * reflexivity.
Qed.

Lemma days_from_start_look start d ds k k' res res' :
  dayOf (dateFrom d) <> dayOf 0 ->
  days_from dayOf formatDate start (d :: ds) 0 [] k = Some res ->
  days_from dayOf formatDate start (d :: ds) 0 [] k' = Some res' ->
  rendered res = rendered res'.
Proof.
  intros Hd H H'. rewrite days_from_first in H, H' by assumption.
  eapply days_from_look; [ | | exact H | exact H']; reflexivity.
Qed.



Lemma same_data_trans w1 w2 w3 :
  same_data w1 w2 -> same_data w2 w3 -> same_data w1 w3.
Proof.
  unfold same_data. intros (? & ? & ? & ?) (? & ? & ? & ?).
  repeat split; congruence.
Qed.

(** Two states that display the same records of the same data render the
    same tree, message apart. *)
Lemma update_look w w' :
  source_valid w -> source_valid w' ->
  displayed_records w' = displayed_records w ->
  Permutation (source_records w') (source_records w) ->
  _message w' = _message w ->
  returned (update dayOf formatDate w') = returned (update dayOf formatDate w) /\
  rendered (_element (final (update dayOf formatDate w')))
  = rendered (_element (final (update dayOf formatDate w))).
Proof.
  intros Hv Hv' Hd Hp Hm.
  destruct (update_cases dayOf formatDate w) as (wd & Hb & Hst & Hu).
  destruct (update_cases dayOf formatDate w') as (wd' & Hb' & Hst' & Hu').
  apply before_days_element in Hb, Hb'.
  destruct (Hst Hv) as (_ & Hp1 & _). destruct (Hst' Hv') as (_ & Hp1' & _).
  rewrite Hd in Hu'. rewrite Hm in *.
  destruct (displayed_records w) as [|d ds].
  - rewrite Hu, Hu'. simpl. rewrite Hb, Hb'. split; reflexivity.
  - destruct (dayOf (dateFrom d) =? dayOf 0) eqn:E.
    + rewrite Hu, Hu'. simpl. rewrite Hb, Hb'. split; reflexivity.
    + apply Z.eqb_neq in E.
      destruct Hu as (frag & Hf & ->). destruct Hu' as (frag' & Hf' & ->).
      simpl. split; [reflexivity|]. rewrite !rendered_app. f_equal.
      rewrite (getTripStartDate_perm (source_records wd') (source_records wd)) in Hf'.
      * eapply days_from_start_look; eassumption.
      * rewrite Hp1', Hp, <- Hp1. reflexivity.
Qed.


(** *** The invariant of edit sessions *)

Lemma update_sessions w :
  sessions_inv w -> sessions_inv (final (update dayOf formatDate w)).
Proof.
  intros Hinv.
  destruct (update_cases dayOf formatDate w) as (wd & Hb & _ & Hu).
  pose proof (before_days_element _ _ Hb) as Hel.
  assert (He : edits wd = match _tripPointEdit w with
                          | Some e => upd e (edit_with_element false) (edits w)
                          | None => edits w
                          end) by apply Hb.
  assert (Hc : _tripPointEdit wd = None) by apply Hb.
  assert (Hgoal : forall w' its,
            edits w' = edits wd -> _tripPointEdit w' = None ->
            dom_items (_element w') = its -> filter is_edit_node its = [] ->
            sessions_inv w').
  { intros w' its He' Hc' Hi Hf. unfold sessions_inv.
    rewrite He', Hc', Hi, He. apply sessions_none_open.
    eapply sessions_unrender; eassumption. }
  destruct (displayed_records w) as [|d ds].
  - rewrite Hu. simpl. apply (Hgoal wd []); auto.
    rewrite Hel. apply dom_items_message.
  - destruct (dayOf (dateFrom d) =? dayOf 0) eqn:E.
    + rewrite Hu. simpl. apply (Hgoal _ []); auto.
      simpl. rewrite Hel. apply dom_items_message.
    + apply Z.eqb_neq in E. destruct Hu as (frag & Hf & ->). simpl.
      destruct (days_from_start_groups dayOf formatDate 0 _ d ds _ frag E Hf)
        as [_ Hitems].
      apply (Hgoal _ (views_from (length (points wd)) (d :: ds))); auto.
      * simpl. rewrite dom_items_app, dom_items_message. exact Hitems.
      * apply views_from_no_edit.
Qed.

Lemma remove_at_last {A} (l : list A) (x : A) : remove_at (length l) (l ++ [x]) = l.
Proof. induction l as [|y l IH]; simpl; [reflexivity|]. rewrite IH. reflexivity. Qed.

Lemma find_has_id i w v :
  find (has_id i w) (_tripPoints w) = Some v ->
  exists p, nth_error (points w) v = Some p /\ id (tp_data p) = i.
Proof.
  intros H. apply find_some in H. destruct H as [_ H].
  unfold has_id in H. destruct (nth_error (points w) v) as [p|]; [|discriminate].
  exists p. split; [reflexivity | apply Z.eqb_eq, H].
Qed.

(** An opening event runs [open_edit]. *)
Lemma opens_open_edit w ev :
  opens w ev ->
  exists v d, run dayOf formatDate ev w = open_edit v d w.
Proof.
  destruct ev; simpl; try (intros []; fail).
  - intros H. unfold openTripPointInEditMode.
    destruct (find (has_id i w) (_tripPoints w)) as [v|] eqn:Hf; [|congruence].
    destruct (find_has_id _ _ _ Hf) as (p & -> & _). eauto.
  - intros _. unfold onEdit. eauto.
Qed.

Lemma run_sessions w ev :
  sessions_inv w -> enabled w ev ->
  sessions_inv (final (run dayOf formatDate ev w)).
Proof.
  intros Hinv Hen. pose proof Hinv as (H1 & H2 & H3 & H4).
  destruct ev; simpl in *.
  - apply (update_sessions (set_sortFunction fn w)), Hinv.
  - apply (update_sessions (set_filterFunction fn w)), Hinv.
  - apply update_sessions, Hinv.
  - apply (update_sessions (set_message _ w)), Hinv.
  - apply (update_sessions (set_message _ w)), Hinv.
  - apply (update_sessions (set_message _ w)), Hinv.
  - unfold openTripPointInEditMode.
    destruct (find (has_id i w) (_tripPoints w)) as [v|]; [|exact Hinv].
    destruct (nth_error (points w) v) as [p|]; [|exact Hinv].
    apply open_edit_final, Hinv.
  - apply open_edit_final, Hinv.
  - destruct (onCancel_final tripPointEdit data w) as (_ & He & Hc & Hel).
    cbv zeta in *. unfold sessions_inv. rewrite He, Hc, Hel.
    assert (Ho : open_in (edits w) tripPointEdit) by (eapply H3; exact Hen).
    pose proof (H1 _ Ho) as Hcur.
    apply element_of_open in Ho. rewrite Ho, dom_items_replaceChild.
    apply sessions_none_open, sessions_cancel.
    unfold sessions_inv in Hinv. rewrite Hcur in Hinv. exact Hinv.
  - unfold sessions_inv. simpl. apply sessions_modify; auto.
  - unfold sessions_inv. simpl. apply sessions_modify; auto.
  - unfold reject.
    destruct (nth_error (requests w) k) as [[e nd|e nd]|]; simpl; [| |exact Hinv];
      unfold sessions_inv; simpl; repeat apply sessions_modify; auto.
  - exact Hinv.
  - destruct data; exact Hinv.
Qed.

Lemma initial_sessions data : sessions_inv (initial data).
Proof.
  unfold sessions_inv, initial; simpl. apply sessions_none_open. split.
  - intros e (x & Hx & _). destruct e; discriminate.
  - reflexivity.
Qed.

Lemma reachable_sessions w :
  reachable dayOf formatDate w -> sessions_inv w.
Proof.
  induction 1 as [data|w ev _ IH Hen].
  - apply initial_sessions.
  - apply run_sessions; assumption.
Qed.

(** C2: in every state the component can reach there is at most one edit
    session.  An event that opens one, an edit request of a view on the
    page or [openTripPointInEditMode] with the id of a tracked view, first
    cancels the current one: afterwards the previous edit view holds no
    element and is not on the page, and when the event returns the current
    session is a new, open one. *)
Theorem one_edit_session (w : World) :
  reachable dayOf formatDate w ->
  at_most_one_session w /\
  forall ev e, opens w ev -> _tripPointEdit w = Some e ->
    let o := run dayOf formatDate ev w in
    at_most_one_session (final o) /\
    ~ edit_open (final o) e /\
    (forall d, ~ In (EditNode e d) (dom_items (_element (final o)))) /\
    (returned o = true ->
     exists e', _tripPointEdit (final o) = Some e' /\ e' <> e /\
                edit_open (final o) e').
Proof.
  intros Hr. apply reachable_sessions in Hr.
  split; [apply sessions_at_most_one, Hr|].
  intros ev e Hop Hc. cbv zeta.
  destruct (opens_open_edit w ev Hop) as (v & d & ->).
  destruct (open_edit_final v d w Hr) as [Hinv Hclose].
  split; [apply sessions_at_most_one, Hinv | apply Hclose, Hc].
Qed.

End Properties.

(** C9: [openTripPointInEditMode] with an id that no tracked view has
    returns and changes nothing. *)
Theorem openTripPointInEditMode_unknown_id (w : World) (i : Z) :
  (forall v p, In v (_tripPoints w) -> nth_error (points w) v = Some p ->
               id (tp_data p) <> i) ->
  openTripPointInEditMode i w = Ok tt w.
Proof.
  intros H. unfold openTripPointInEditMode.
  destruct (find (has_id i w) (_tripPoints w)) as [v|] eqn:Hf; [|reflexivity].
  pose proof (find_some _ _ Hf) as [Hin _].
  destruct (find_has_id _ _ _ Hf) as (p & Hp & Hid).
  destruct (H v p Hin Hp Hid).
Qed.

Lemma nth_error_new {A} (l : list A) (x : A) :
  nth_error (l ++ [x]) (length l) = Some x.
Proof. rewrite nth_error_app2, Nat.sub_diag by lia. reflexivity. Qed.

(** C5: what the two rejection handlers do.  When [updateTripPoint]
    fails, the edit view that was submitted is shaken, marked as having
    unsaved changes and unblocked; when [deleteTripPoint] fails, it is
    marked and unblocked but not shaken.  Either way the edit view keeps
    its element, nothing else in the component changes and no request is
    pending afterwards that was not pending before. *)
Theorem failed_request (w : World) (e : nat) (x : TripPointEdit)
    (data : TripPointRecord) :
  nth_error (edits w) e = Some x ->
  (exists w',
     (onSubmit e data ;; reject (length (requests w))) w = Ok tt w' /\
     nth_error (edits w') e
     = Some (mkTripPointEdit (te_data x) (te_element x) Unblocked
                             (S (te_shakes x)) true) /\
     only_edit_changed e w w') /\
  (exists w',
     (onDelete e data ;; reject (length (requests w))) w = Ok tt w' /\
     nth_error (edits w') e
     = Some (mkTripPointEdit (te_data x) (te_element x) Unblocked
                             (te_shakes x) true) /\
     only_edit_changed e w w').
Proof.
  intros Hx. split.
  - unfold onSubmit, onDelete, bind, savingBlock, deletingBlock, edit_set_block,
      edit_modify, modify, reject. simpl.
    rewrite nth_error_new. simpl.
    eexists. split; [reflexivity|]. simpl. rewrite remove_at_last. split.
    + rewrite !nth_error_upd, Nat.eqb_refl, Hx. reflexivity.
    + unfold only_edit_changed; simpl. rewrite !upd_length.
      repeat split; try reflexivity.
      intros e' Hne. rewrite !nth_error_upd.
      apply Nat.eqb_neq in Hne. rewrite Nat.eqb_sym, Hne. reflexivity.
  - unfold onSubmit, onDelete, bind, savingBlock, deletingBlock, edit_set_block,
      edit_modify, modify, reject. simpl.
    rewrite nth_error_new. simpl.
    eexists. split; [reflexivity|]. simpl. rewrite remove_at_last. split.
    + rewrite !nth_error_upd, Nat.eqb_refl, Hx. reflexivity.
    + unfold only_edit_changed; simpl. rewrite !upd_length.
      repeat split; try reflexivity.
      intros e' Hne. rewrite !nth_error_upd.
      apply Nat.eqb_neq in Hne. rewrite Nat.eqb_sym, Hne. reflexivity.
Qed.

(** The default comparator is consistent. *)
Lemma compareDate_consistent :
  consistent (fun point1 point2 => compareDate (dateFrom point1) (dateFrom point2)).
Proof.
  unfold consistent, compareDate.
  repeat split; intros a; intros;
    repeat match goal with
           | H : context [?x ?= ?y] |- _ => destruct (Z.compare_spec x y); try lia
           | |- context [?x ?= ?y] => destruct (Z.compare_spec x y); try lia
           end.
Qed.

(** * More properties of the code *)

(** X1: with a filter function set, [getDisplayedPoints] returns a new
    array and leaves the array of the data source as it is; the new array
    holds exactly the source records that satisfy the predicate: sorted by
    the engine when a comparator is set, in the order of the comparator
    when it is consistent, and in source order when the sort function is
    not a function. *)
Theorem getDisplayedPoints_filtered (w : World) (s : nat) (f : predicate) :
  _filterFunction w = JFunction f ->
  getTripPoints w = Some s ->
  (s < length (arrays w))%nat ->
  exists a w',
    getDisplayedPoints w = Ok a w' /\
    a = length (arrays w) /\
    deref s w' = deref s w /\
    same_component w w' /\
    Permutation (deref a w') (filter f (source_records w)) /\
    (forall r, In r (deref a w') <-> In r (source_records w) /\ f r = true) /\
    (forall cmp, _sortFunction w = JFunction cmp ->
       deref a w' = sort_of engine cmp (filter f (source_records w)) /\
       (consistent cmp -> ordered_by cmp (deref a w'))) /\
    (as_function (_sortFunction w) = None ->
       deref a w' = filter f (source_records w)).
Proof.
  intros Hf Hs Hv.
  unfold getDisplayedPoints, bind.
  rewrite _getData_run, Hs, _filterPoints_run, Hf. simpl.
  rewrite _sortPoints_run. simpl.
  unfold source_records. rewrite Hs.
  assert (Hin : forall l, Permutation l (filter f (deref s w)) ->
            forall r, In r l <-> In r (deref s w) /\ f r = true).
  { intros l Hp r. rewrite <- filter_In. split; apply Permutation_in;
      [exact Hp | symmetry; exact Hp]. }
  destruct (as_function (_sortFunction w)) as [cmp|] eqn:Hc.
  - do 2 eexists. split; [reflexivity|]. split; [reflexivity|].
    unfold deref; simpl. rewrite upd_app_last, !nth_new.
    rewrite app_nth1 by assumption.
    split; [reflexivity|].
    split; [apply same_component_set, same_component_arrays|].
    split; [apply sort_permutes|]. split; [apply Hin, sort_permutes|]. split.
    + intros cmp' Hc'. apply as_function_some in Hc'.
      assert (cmp' = cmp) as -> by congruence.
      split; [reflexivity|]. intros Hcons. apply sort_orders, Hcons.
    + discriminate.
  - do 2 eexists. split; [reflexivity|]. split; [reflexivity|].
    unfold deref; simpl. rewrite nth_new.
    rewrite app_nth1 by assumption.
    split; [reflexivity|]. split; [apply same_component_arrays|].
    split; [reflexivity|]. split; [apply Hin; reflexivity|]. split.
    + intros cmp Hc'. apply as_function_some in Hc'. congruence.
    + reflexivity.
Qed.

Section MoreProperties.

Variable dayOf : Z -> Z.
Variable formatDate : Z -> string.

(** X2: when [update] returns, the page shows a new read-only view for
    each displayed record, in displayed order, and nothing else: the view
    objects are the ones created last, each holds its element, which has a
    parent, and the record it shows, and no edit session is left. *)
Theorem update_renders_views (w w' : World) :
  update dayOf formatDate w = Ok tt w' ->
  dom_items (_element w')
  = views_from (length (points w)) (displayed_records w) /\
  page_records w' = displayed_records w /\
  (forall i d, nth_error (displayed_records w) i = Some d ->
     nth_error (points w') (length (points w) + i)
     = Some (mkTripPoint d true true)) /\
  _tripPointEdit w' = None /\
  edit_nodes w' = [].
Proof.
  intros H. destruct (update_returned dayOf formatDate w w' H) as (Hi & Hp & _ & Hc & _).
  split; [exact Hi|]. split; [|split; [|split]].
  - unfold page_records. rewrite Hi. apply shown_views_from.
  - intros i d Hd. rewrite Hp.
    assert (Hl : length (points (unrender_content w)) = length (points w))
      by (simpl; apply unrender_tracked_length).
    rewrite nth_error_app2 by lia.
    replace (length (points w) + i - length (points (unrender_content w)))%nat
      with i by lia.
    exact (map_nth_error (fun d => mkTripPoint d true true) _ _ Hd).
  - exact Hc.
  - unfold edit_nodes. rewrite Hi. apply views_from_no_edit.
Qed.



(** X4: [update] is idempotent on what it renders: with a valid data
    source and a consistent comparator (or a sort function that is not a
    function), a second [update] returns or raises as the first did and
    renders the same tree (the view objects apart). *)
Theorem update_twice_rendered (w : World) :
  source_valid w ->
  sort_consistent w ->
  let once := update dayOf formatDate w in
  let twice := (update dayOf formatDate ;; update dayOf formatDate) w in
  returned twice = returned once /\
  (returned once = true ->
   rendered (_element (final twice)) = rendered (_element (final once)) /\
   _tripPointEdit (final twice) = None).
Proof.
  intros Hv Ht. cbv zeta. unfold bind.
  destruct (update_cases dayOf formatDate w) as (wd & Hb & Hst & Hu).
  destruct (Hst Hv) as (Hvd & Hpd & Hdd). specialize (Hdd Ht).
  assert (Hnext : forall w1, same_data wd w1 -> _message w1 = _message w ->
            returned (update dayOf formatDate w1)
            = returned (update dayOf formatDate w) /\
            rendered (_element (final (update dayOf formatDate w1)))
            = rendered (_element (final (update dayOf formatDate w))) /\
            _tripPointEdit (final (update dayOf formatDate w1)) = None).
  { intros w1 Hsd Hm.
    destruct (same_data_facts _ _ Hsd) as (Hs1 & Hs2 & Hs3 & _).
    destruct (update_look dayOf formatDate w w1) as [Hr Hl]; auto.
    - apply Hs3, Hvd.
    - rewrite Hs2. exact Hdd.
    - rewrite Hs1. exact Hpd.
    - split; [exact Hr|]. split; [exact Hl|].
      destruct (update_cases dayOf formatDate w1) as (wd1 & Hb1 & _ & Hu1).
      assert (Hc1 : _tripPointEdit wd1 = None) by apply Hb1.
      destruct (displayed_records w1) as [|d1 ds1].
      + rewrite Hu1. exact Hc1.
      + destruct (dayOf (dateFrom d1) =? dayOf 0).
        * rewrite Hu1. exact Hc1.
        * destruct Hu1 as (frag1 & _ & ->). exact Hc1. }
  assert (Hmd : _message wd = _message w) by apply Hb.
  destruct (displayed_records w) as [|d ds].
  - rewrite Hu in *. simpl.
    destruct (Hnext wd) as (Hr & Hl & Hc);
      [unfold same_data; repeat split | exact Hmd |].
    simpl in Hr, Hl. auto.
  - destruct (dayOf (dateFrom d) =? dayOf 0).
    + rewrite Hu. simpl. split; [reflexivity | discriminate].
    + destruct Hu as (frag & _ & Hu). rewrite Hu in *. simpl.
      destruct (Hnext (set_element (message_nodes (_message w) ++ frag)
                                   (with_views (d :: ds) wd)))
        as (Hr & Hl & Hc); [apply same_data_views | exact Hmd |].
      simpl in Hr, Hl. auto.
Qed.

End MoreProperties.

Section MoreRendering.

Variable dayOf : Z -> Z.
Variable formatDate : Z -> string.

Lemma groups_from_runs s ds : forall cur last,
  cur <> [] ->
  (forall a, In a cur -> dayOf (dateFrom a) = dayOf (dateFrom last)) ->
  day_runs (fun d => dayOf (dateFrom d)) (groups_from dayOf s cur last ds) /\
  exists g gs,
    groups_from dayOf s cur last ds = g :: gs /\
    forall b, In b g -> dayOf (dateFrom b) = dayOf (dateFrom last).
Proof.
  induction ds as [|d ds IH]; intros cur last Hne Hsame.
  - simpl. split.
    + repeat split; auto. intros a b Ha Hb. rewrite (Hsame a Ha), (Hsame b Hb).
      reflexivity.
    + exists cur, []. split; [reflexivity | exact Hsame].
  - cbn [groups_from]. rewrite <- same_day_diff.
    destruct (calcDaysDiff dayOf (dateFrom last) (dateFrom d) =? 0) eqn:E.
    + apply Z.eqb_eq in E. unfold calcDaysDiff in E.
      assert (Hd : dayOf (dateFrom d) = dayOf (dateFrom last)) by lia.
      destruct (IH (cur ++ [d]) d) as (Hr & g & gs & Hg & Hhead).
      * destruct cur; discriminate.
      * intros a Ha. apply in_app_or in Ha.
        destruct Ha as [Ha|[<-|[]]]; [rewrite Hd; auto | reflexivity].
      * split; [exact Hr|]. exists g, gs. split; [exact Hg|].
        intros b Hb. rewrite <- Hd. auto.
    + apply Z.eqb_neq in E. unfold calcDaysDiff in E.
      destruct (IH [d] d) as (Hr & g & gs & Hg & Hhead).
      * discriminate.
      * intros a [<-|[]]. reflexivity.
      * split.
        -- cbn [day_runs]. rewrite Hg in *.
           split; [exact Hne|]. split; [|split; [|exact Hr]].
           ++ intros a b Ha Hb. rewrite (Hsame a Ha), (Hsame b Hb). reflexivity.
           ++ intros a b Ha Hb. rewrite (Hsame a Ha), (Hhead b Hb). lia.
        -- exists cur, (groups_from dayOf s [d] d ds). split; [reflexivity|].
           exact Hsame.
Qed.

(** X5: the day sections [update] renders are the runs of days among the
    displayed records: no section is empty, the records of a section fall
    on one day, and two neighbouring sections are for different days. *)
Theorem day_sections_are_runs (w w' : World) :
  update dayOf formatDate w = Ok tt w' ->
  day_runs (fun d => dayOf (dateFrom d)) (shown_days (_element w')).
Proof.
  intros H.
  destruct (update_cases dayOf formatDate w) as (wd & Hb & _ & Hu).
  apply before_days_element in Hb.
  destruct (displayed_records w) as [|d ds].
  - rewrite Hu in H. injection H as <-. rewrite Hb, shown_days_message.
    exact I.
  - destruct (dayOf (dateFrom d) =? dayOf 0) eqn:E.
    + rewrite Hu in H. discriminate.
    + apply Z.eqb_neq in E. destruct Hu as (frag & Hf & Hu).
      rewrite Hu in H. injection H as <-. simpl _element.
      rewrite shown_days_app, shown_days_message. simpl app.
      destruct (days_from_start_groups dayOf formatDate 0 _ d ds _ frag E Hf)
        as [-> _].
      apply groups_from_runs.
      * discriminate.
      * intros a [<-|[]]. reflexivity.
Qed.

(** X6: after [filterFunction(fn)] returns, the page shows exactly the
    records of the data source that satisfy [fn], each once, in source
    order when no sort function is set; with a value that is not a
    function it shows all records. *)
Theorem filterFunction_shows_matching (w w' : World) (fn : jsval predicate) :
  filterFunction dayOf formatDate fn w = Ok tt w' ->
  _filterFunction w' = fn /\
  (forall f, fn = JFunction f ->
     Permutation (page_records w') (filter f (source_records w)) /\
     (forall r, In r (page_records w') <-> In r (source_records w) /\ f r = true) /\
     (as_function (_sortFunction w) = None ->
      page_records w' = filter f (source_records w))) /\
  (as_function fn = None ->
     Permutation (page_records w') (source_records w)).
Proof.
  unfold filterFunction, bind, modify. intros H.
  pose proof (update_page_records dayOf formatDate _ _ H) as Hp.
  destruct (update_returned dayOf formatDate _ _ H) as (_ & _ & _ & _ & _ & _ & _ & Hf & _).
  simpl in Hf. split; [exact Hf|].
  rewrite Hp. unfold displayed_records, source_records. simpl.
  split.
  - intros f ->. simpl.
    assert (Hperm : Permutation
              (match as_function (_sortFunction w) with
               | Some cmp => sort_of engine cmp (filter f (source_records w))
               | None => filter f (source_records w)
               end) (filter f (source_records w))).
    { destruct (as_function (_sortFunction w)); [apply sort_permutes | reflexivity]. }
    unfold source_records in Hperm. split; [exact Hperm|]. split.
    + intros r. rewrite <- filter_In. split; apply Permutation_in;
        [exact Hperm | symmetry; exact Hperm].
    + intros ->. reflexivity.
  - intros ->.
    destruct (as_function (_sortFunction w)); [apply sort_permutes | reflexivity].
Qed.

(** X7: after [sortFunction(fn)] returns, the page shows the records that
    pass the filter: in the order of [fn] when [fn] is a consistent
    comparator, in the order the engine sorts them into for any other
    comparator, and in the order the data source has them when [fn] is not
    a function. *)
Theorem sortFunction_orders_page (w w' : World) (fn : jsval comparator) :
  sortFunction dayOf formatDate fn w = Ok tt w' ->
  let filtered := match as_function (_filterFunction w) with
                  | Some f => filter f (source_records w)
                  | None => source_records w
                  end in
  _sortFunction w' = fn /\
  Permutation (page_records w') filtered /\
  (forall cmp, fn = JFunction cmp ->
     page_records w' = sort_of engine cmp filtered /\
     (consistent cmp -> ordered_by cmp (page_records w'))) /\
  (as_function fn = None -> page_records w' = filtered).
Proof.
  unfold sortFunction, bind, modify. intros H. cbv zeta.
  pose proof (update_page_records dayOf formatDate _ _ H) as Hp.
  destruct (update_returned dayOf formatDate _ _ H) as (_ & _ & _ & _ & _ & _ & Hs & _).
  simpl in Hs. split; [exact Hs|].
  rewrite Hp. unfold displayed_records, source_records. simpl.
  split; [|split].
  - destruct (as_function fn); [apply sort_permutes | reflexivity].
  - intros cmp ->. simpl. split; [reflexivity|].
    intros Hcons. apply sort_orders, Hcons.
  - intros ->. reflexivity.
Qed.

End MoreRendering.

(** ** Views on the page: lemmas *)

Lemma point_refs_views_from ds : forall k,
  point_refs (views_from k ds) = seq k (length ds).
Proof. induction ds as [|d ds IH]; intros k; simpl; [|rewrite IH]; reflexivity. Qed.

Lemma in_point_refs its v :
  In v (point_refs its) <-> exists d, In (PointNode v d) its.
Proof.
  induction its as [|[v' d'|e d'] its IH]; simpl.
  - split; [intros [] | intros (d & [])].
  - rewrite IH. split.
    + intros [->|(d & H)]; eauto.
    + intros (d & [H|H]); [injection H as -> _; auto | eauto].
  - rewrite IH. split.
    + intros (d & H). eauto.
    + intros (d & [H|H]); [discriminate | eauto].
Qed.

Lemma in_views_from ds : forall k v d,
  In (PointNode v d) (views_from k ds) ->
  exists i, v = (k + i)%nat /\ nth_error ds i = Some d.
Proof.
  induction ds as [|d0 ds IH]; simpl; intros k v d H; [destruct H|].
  destruct H as [H|H].
  - injection H as <- <-. exists O. split; [lia | reflexivity].
  - apply IH in H. destruct H as (i & -> & Hi). exists (S i).
    split; [lia | exact Hi].
Qed.

(** Replacing a read-only view by an edit form takes its view object off
    the page and leaves the other read-only views. *)
Lemma point_refs_replace_point v new its :
  is_edit_node new = true ->
  NoDup (point_refs its) ->
  NoDup (point_refs (replace_first (is_point v) new its)) /\
  ~ In v (point_refs (replace_first (is_point v) new its)) /\
  (forall u, In u (point_refs (replace_first (is_point v) new its)) ->
             In u (point_refs its)).
Proof.
  intros Hnew. destruct new as [?|e d]; [discriminate|].
  induction its as [|[v' d'|e' d'] its IH]; simpl; intros Hnd.
  - repeat split; auto using NoDup_nil.
  - inversion Hnd as [|? ? Hnin Hnd']; subst.
    destruct (Nat.eqb v v') eqn:E; simpl.
    + apply Nat.eqb_eq in E. subst v'. repeat split; auto.
    + apply Nat.eqb_neq in E. destruct (IH Hnd') as (H1 & H2 & H3).
      repeat split.
      * constructor; [|exact H1]. intros Hin. apply Hnin, H3, Hin.
      * intros [Heq|Hin]; [congruence | exact (H2 Hin)].
      * intros u [->|Hin]; [left; reflexivity | right; apply H3, Hin].
  - destruct (IH Hnd) as (H1 & H2 & H3). repeat split; auto.
Qed.

(** Replacing an edit form by a new read-only view adds its view object,
    at most. *)
Lemma point_refs_replace_edit e k d its :
  (forall u, In u (point_refs (replace_first (is_edit e) (PointNode k d) its)) ->
             u = k \/ In u (point_refs its)) /\
  (~ In k (point_refs its) -> NoDup (point_refs its) ->
   NoDup (point_refs (replace_first (is_edit e) (PointNode k d) its))).
Proof.
  induction its as [|[v' d'|e' d'] its [IH1 IH2]]; simpl.
  - split; [intros u [] | intros; constructor].
  - split.
    + intros u [->|Hin]; [right; left; reflexivity|].
      destruct (IH1 u Hin); auto.
    + intros Hk Hnd. inversion Hnd as [|? ? Hnin Hnd']; subst.
      constructor; [|apply IH2; auto].
      intros Hin. destruct (IH1 _ Hin) as [->|Hin']; [apply Hk; auto | auto].
  - destruct (Nat.eqb e e'); simpl.
    + split; [intros u [->|Hin]; auto|].
      intros Hk Hnd. constructor; assumption.
    + split; [exact IH1 | exact IH2].
Qed.

Lemma splice_indexOf_sub v l u : In u (splice_indexOf v l) -> In u l.
Proof.
  unfold splice_indexOf. destruct (indexOf v l) as [i|].
  - revert i. induction l as [|x l IH]; intros [|i]; simpl; auto.
    intros [->|H]; eauto.
  - induction l as [|x l IH]; simpl; auto.
    destruct l as [|y l]; [intros [] |].
    intros [->|H]; auto.
Qed.

Lemma remove_at_NoDup {A} (l : list A) : forall i, NoDup l -> NoDup (remove_at i l).
Proof.
  induction l as [|x l IH]; intros [|i] H; simpl; auto;
    inversion H as [|? ? Hn Hd]; subst; auto.
  constructor; [|apply IH, Hd].
  intros Hin. apply Hn. clear - Hin.
  revert i Hin. induction l as [|y l IH]; intros [|i]; simpl; auto.
  intros [->|H]; eauto.
Qed.

Lemma removelast_NoDup {A} (l : list A) : NoDup l -> NoDup (removelast l).
Proof.
  induction l as [|x l IH]; intros H; simpl; auto.
  inversion H as [|? ? Hn Hd]; subst.
  destruct l as [|y l]; [constructor|].
  constructor; [|apply IH, Hd].
  intros Hin. apply Hn.
  clear - Hin. revert Hin. generalize (y :: l) as m.
  induction m as [|z m IHm]; simpl; auto.
  destruct m as [|z' m]; [intros [] |]. intros [->|H]; auto.
Qed.

Lemma splice_indexOf_NoDup v l : NoDup l -> NoDup (splice_indexOf v l).
Proof.
  unfold splice_indexOf. destruct (indexOf v l).
  - apply remove_at_NoDup.
  - apply removelast_NoDup.
Qed.

Lemma onCancel_views e d w :
  let o := onCancel e d w in
  points (final o)
  = points w ++ [mkTripPoint d (element_of (edits w) e) (element_of (edits w) e)] /\
  _tripPoints (final o) = _tripPoints w /\
  same_data w (final o) /\
  requests (final o) = requests w /\ _message (final o) = _message w.
Proof.
  unfold onCancel, bind, _createTripPoint, new_TripPoint, edit_element, get,
    element_of, same_data.
  simpl. destruct (nth_error (edits w) e) as [x|]; [destruct (te_element x)|];
    simpl; rewrite ?upd_app_last; simpl; rewrite ?upd_app_last;
    repeat split; reflexivity.
Qed.

Lemma show_edit_views v d w :
  let o := show_edit v d w in
  points (final o)
  = (if attached w v
     then upd v (point_with_element false) (points w) else points w) /\
  _tripPoints (final o)
  = (if attached w v
     then splice_indexOf v (_tripPoints w) else _tripPoints w) /\
  same_data w (final o) /\
  requests (final o) = requests w /\ _message (final o) = _message w.
Proof.
  unfold show_edit, bind, _createTripPointEdit, new_TripPointEdit, modify,
    point_element, point_parentElement, get, attached, holds_element,
    has_parent, same_data.
  simpl.
  destruct (nth_error (points w) v) as [p|] eqn:E; simpl;
    [destruct (tp_element p); simpl; rewrite ?E; simpl;
     [destruct (tp_parent p); simpl|] |];
    repeat split; reflexivity.
Qed.

Lemma onCancel_views_inv e d w :
  views_inv w -> views_inv (final (onCancel e d w)).
Proof.
  intros (V1 & V2 & T1 & T2).
  destruct (onCancel_final e d w) as (_ & _ & _ & Hel).
  destruct (onCancel_views e d w) as (Hp & Ht & _).
  cbv zeta in *. unfold views_inv. rewrite Hel, Hp, Ht.
  assert (Hfresh : ~ In (length (points w)) (point_refs (dom_items (_element w)))).
  { intros Hin. apply in_point_refs in Hin. destruct Hin as (d' & Hin).
    apply V2 in Hin.
    assert (nth_error (points w) (length (points w)) <> None) by congruence.
    apply nth_error_Some in H. lia. }
  assert (Hold : forall v d', In (PointNode v d') (dom_items (_element w)) ->
            nth_error (points w ++ [mkTripPoint d (element_of (edits w) e)
                                                (element_of (edits w) e)]) v
            = Some (mkTripPoint d' true true)).
  { intros v d' Hin. apply V2 in Hin.
    rewrite nth_error_app1; [exact Hin|].
    apply nth_error_Some. congruence. }
  assert (Htr : forall v, In v (_tripPoints w) ->
            (v < length (points w ++ [mkTripPoint d (element_of (edits w) e)
                                                  (element_of (edits w) e)]))%nat).
  { intros v Hv. rewrite length_app. apply T1 in Hv. lia. }
  destruct (element_of (edits w) e).
  - rewrite dom_items_replaceChild.
    destruct (point_refs_replace_edit e (length (points w)) d
                (dom_items (_element w))) as [_ Hnd].
    split; [apply Hnd; assumption|]. split; [|split; assumption].
    intros v d' Hin. apply replace_first_in in Hin.
    destruct Hin as [Heq|Hin]; [|apply Hold, Hin].
    injection Heq as -> ->. apply nth_error_new.
  - repeat split; assumption.
Qed.

Lemma show_edit_views_inv v d w :
  views_inv w -> views_inv (final (show_edit v d w)).
Proof.
  intros (V1 & V2 & T1 & T2).
  destruct (show_edit_final v d w) as (_ & _ & _ & Hel).
  destruct (show_edit_views v d w) as (Hp & Ht & _).
  cbv zeta in *. unfold views_inv. rewrite Hel, Hp, Ht.
  destruct (attached w v).
  - rewrite dom_items_replaceChild, upd_length.
    destruct (point_refs_replace_point v (EditNode (length (edits w)) d)
                (dom_items (_element w)) eq_refl V1) as (H1 & H2 & H3).
    split; [exact H1|]. split; [|split].
    + intros v' d' Hin.
      assert (Hr : In v' (point_refs (replace_first (is_point v)
                     (EditNode (length (edits w)) d) (dom_items (_element w)))))
        by (apply in_point_refs; eauto).
      assert (Hne : v <> v') by (intros ->; exact (H2 Hr)).
      apply replace_first_in in Hin. destruct Hin as [Heq|Hin]; [discriminate|].
      rewrite nth_error_upd. apply Nat.eqb_neq in Hne. rewrite Hne.
      apply V2, Hin.
    + intros u Hu. apply T1. eapply splice_indexOf_sub, Hu.
    + apply splice_indexOf_NoDup, T2.
  - repeat split; assumption.
Qed.

Lemma cancel_current_views_inv w :
  views_inv w -> views_inv (final (cancel_current w)).
Proof.
  intros H. unfold cancel_current, bind, get.
  destruct (_tripPointEdit w) as [e|]; [|exact H].
  unfold cancelEdit. destruct (nth_error (edits w) e) as [x|]; [|exact H].
  apply onCancel_views_inv, H.
Qed.

Lemma open_edit_views_inv v d w :
  views_inv w -> views_inv (final (open_edit v d w)).
Proof.
  intros H. apply cancel_current_views_inv in H.
  unfold open_edit, bind.
  destruct (cancel_current w) as [[] w1|w1]; simpl in *.
  - apply show_edit_views_inv, H.
  - exact H.
Qed.

Lemma views_inv_rendered (wd w' : World) (fresh : list TripPoint) :
  (forall v, In v (_tripPoints wd) -> (v < length (points wd))%nat) ->
  NoDup (_tripPoints wd) ->
  points w' = points wd ++ fresh ->
  _tripPoints w' = _tripPoints wd ++ seq (length (points wd)) (length fresh) ->
  dom_items (_element w') = [] \/
  (exists ds, fresh = map (fun d => mkTripPoint d true true) ds /\
              dom_items (_element w') = views_from (length (points wd)) ds) ->
  views_inv w'.
Proof.
  intros T1 T2 Hp Ht Hel. unfold views_inv. rewrite Hp, Ht.
  assert (Htr : (forall v, In v (_tripPoints wd ++ seq (length (points wd)) (length fresh)) ->
                   (v < length (points wd ++ fresh))%nat) /\
                NoDup (_tripPoints wd ++ seq (length (points wd)) (length fresh))).
  { split.
    - intros v Hv. rewrite length_app. apply in_app_or in Hv.
      destruct Hv as [Hv|Hv]; [apply T1 in Hv; lia | apply in_seq in Hv; lia].
    - apply NoDup_app; [exact T2 | apply seq_NoDup|].
      intros v Hv Hs. apply T1 in Hv. apply in_seq in Hs. lia. }
  destruct Htr as [Htr1 Htr2].
  destruct Hel as [-> | (ds & -> & ->)].
  - repeat split; auto; [constructor | intros v d []].
  - rewrite point_refs_views_from. split; [apply seq_NoDup|].
    rewrite length_map in *.
    split; [|split; assumption].
    intros v d Hin. apply in_views_from in Hin. destruct Hin as (i & -> & Hi).
    rewrite nth_error_app2 by lia.
    replace (length (points wd) + i - length (points wd))%nat with i by lia.
    exact (map_nth_error (fun d => mkTripPoint d true true) _ _ Hi).
Qed.

Section ViewsOnThePage.

Variable dayOf : Z -> Z.
Variable formatDate : Z -> string.

Lemma update_views_inv w :
  views_inv w -> views_inv (final (update dayOf formatDate w)).
Proof.
  intros (_ & _ & T1 & T2).
  destruct (update_cases dayOf formatDate w) as (wd & Hb & _ & Hu).
  pose proof (before_days_element _ _ Hb) as Hel.
  destruct (before_days_views _ _ Hb) as [Ht Hl].
  assert (T1' : forall v, In v (_tripPoints wd) -> (v < length (points wd))%nat)
    by (intros v Hv; rewrite Ht in Hv; rewrite Hl; auto).
  assert (T2' : NoDup (_tripPoints wd)) by (rewrite Ht; exact T2).
  destruct (displayed_records w) as [|d ds].
  - rewrite Hu. simpl. apply (views_inv_rendered wd wd []); auto.
    + simpl. rewrite app_nil_r. reflexivity.
    + simpl. rewrite app_nil_r. reflexivity.
    + left. rewrite Hel. apply dom_items_message.
  - destruct (dayOf (dateFrom d) =? dayOf 0) eqn:E.
    + rewrite Hu. simpl.
      apply (views_inv_rendered wd _ [mkTripPoint d true false]); auto.
      left. simpl. rewrite Hel. apply dom_items_message.
    + apply Z.eqb_neq in E. destruct Hu as (frag & Hf & ->). simpl.
      apply (views_inv_rendered wd _
               (map (fun d => mkTripPoint d true true) (d :: ds))); auto.
      * simpl. rewrite length_map. reflexivity.
      * right. exists (d :: ds). split; [reflexivity|]. simpl.
        destruct (days_from_start_groups dayOf formatDate 0 _ d ds _ frag E Hf)
          as [_ Hitems].
        rewrite dom_items_app, dom_items_message. exact Hitems.
Qed.

Lemma run_views_inv w ev :
  views_inv w -> views_inv (final (run dayOf formatDate ev w)).
Proof.
  intros H. destruct ev; simpl.
  - apply (update_views_inv (set_sortFunction fn w)), H.
  - apply (update_views_inv (set_filterFunction fn w)), H.
  - apply update_views_inv, H.
  - apply (update_views_inv (set_message _ w)), H.
  - apply (update_views_inv (set_message _ w)), H.
  - apply (update_views_inv (set_message _ w)), H.
  - unfold openTripPointInEditMode.
    destruct (find (has_id i w) (_tripPoints w)) as [v|]; [|exact H].
    destruct (nth_error (points w) v) as [p|]; [|exact H].
    apply open_edit_views_inv, H.
  - apply open_edit_views_inv, H.
  - apply onCancel_views_inv, H.
  - exact H.
  - exact H.
  - unfold reject.
    destruct (nth_error (requests w) k) as [[e nd|e nd]|]; exact H.
  - exact H.
  - destruct data; exact H.
Qed.

Lemma reachable_views w : reachable dayOf formatDate w -> views_inv w.
Proof.
  induction 1 as [data|w ev _ IH _].
  - unfold views_inv, initial; simpl.
    repeat split; try constructor; intros v; intros; contradiction.
  - apply run_views_inv, IH.
Qed.

(** X8: in every state the component can reach, no view object is on the
    page twice, every read-only view on the page holds its element, which
    has a parent, and the record it shows, and the tracked list holds
    distinct, existing view objects. *)
Theorem views_on_the_page (w : World) :
  reachable dayOf formatDate w ->
  NoDup (point_refs (dom_items (_element w))) /\
  (forall v d, In (PointNode v d) (dom_items (_element w)) ->
     nth_error (points w) v = Some (mkTripPoint d true true)) /\
  (forall v, In v (_tripPoints w) -> (v < length (points w))%nat) /\
  NoDup (_tripPoints w).
Proof. intros H. exact (reachable_views w H). Qed.

End ViewsOnThePage.

(** ** Opening and cancelling: lemmas *)

Lemma cancel_current_views w :
  let o := cancel_current w in
  returned o = session_ok w /\
  _tripPoints (final o) = _tripPoints w /\
  (exists extra, points (final o) = points w ++ extra) /\
  same_data w (final o) /\
  requests (final o) = requests w /\ _message (final o) = _message w.
Proof.
  unfold cancel_current, bind, get, session_ok.
  assert (Hsame : same_data w w) by (unfold same_data; repeat split).
  destruct (_tripPointEdit w) as [e|].
  - unfold cancelEdit, element_of.
    destruct (nth_error (edits w) e) as [x|] eqn:Hx.
    + destruct (onCancel_final e (te_data x) w) as (Hr & _).
      destruct (onCancel_views e (te_data x) w) as (Hp & Ht & Hd & Hq & Hm).
      cbv zeta in *. unfold element_of in Hr. rewrite Hx in Hr.
      split; [exact Hr|]. split; [exact Ht|].
      split; [eexists; exact Hp|]. split; [exact Hd|]. split; assumption.
    + simpl. split; [reflexivity|]. split; [reflexivity|].
      split; [exists []; rewrite app_nil_r; reflexivity|].
      split; [exact Hsame|]. split; reflexivity.
  - simpl. split; [reflexivity|]. split; [reflexivity|].
    split; [exists []; rewrite app_nil_r; reflexivity|].
    split; [exact Hsame|]. split; reflexivity.
Qed.

Lemma attached_app w w' extra v :
  points w' = points w ++ extra -> (v < length (points w))%nat ->
  attached w' v = attached w v.
Proof.
  intros Hp Hv. unfold attached, holds_element, has_parent.
  rewrite Hp, nth_error_app1 by assumption. reflexivity.
Qed.

Lemma attached_holds w v : holds_element w v = false -> attached w v = false.
Proof. unfold attached. intros ->. reflexivity. Qed.

(** What an opening event runs, and on which view. *)
Lemma opened_view_open_edit dayOf formatDate w ev v :
  opened_view w ev = Some v ->
  (forall d, ev = ClickEdit v d -> (v < length (points w))%nat) ->
  exists d, run dayOf formatDate ev w = open_edit v d w /\
            (v < length (points w))%nat /\
            (forall d', ev = ClickEdit v d' -> d' = d).
Proof.
  destruct ev; simpl; try discriminate.
  - intros Hf _. unfold openTripPointInEditMode. rewrite Hf.
    destruct (find_has_id _ _ _ Hf) as (p & Hp & _). rewrite Hp.
    exists (tp_data p). split; [reflexivity|]. split; [|discriminate].
    apply nth_error_Some. congruence.
  - intros H Hlt. injection H as ->. exists data.
    split; [reflexivity|]. split; [eapply Hlt; reflexivity|].
    intros d' H. injection H as <-. reflexivity.
Qed.

Lemma open_edit_views v d w :
  (v < length (points w))%nat ->
  let o := open_edit v d w in
  returned o = session_ok w && attached w v /\
  _tripPoints (final o)
  = (if returned o then splice_indexOf v (_tripPoints w) else _tripPoints w) /\
  same_data w (final o) /\
  requests (final o) = requests w /\ _message (final o) = _message w.
Proof.
  intros Hv.
  destruct (cancel_current_views w) as (Hr & Ht & (extra & Hp) & Hd & Hq & Hm).
  unfold open_edit, bind. cbv zeta in *.
  destruct (cancel_current w) as [[] w1|w1]; simpl in *.
  - destruct (show_edit_final v d w1) as (Hr1 & _).
    destruct (show_edit_views v d w1) as (_ & Ht1 & Hd1 & Hq1 & Hm1).
    cbv zeta in *.
    rewrite (attached_app w w1 extra v Hp Hv) in *.
    rewrite <- Hr. simpl. rewrite Hr1, Ht1, Ht.
    split; [reflexivity|]. split; [reflexivity|].
    split; [eapply same_data_trans; eassumption|].
    split; congruence.
  - rewrite <- Hr. simpl.
    split; [reflexivity|]. split; [exact Ht|]. split; [exact Hd|].
    split; assumption.
Qed.

Lemma indexOf_in v l :
  NoDup l -> In v l ->
  exists i, indexOf v l = Some i /\ remove_at i l = remove Nat.eq_dec v l.
Proof.
  induction l as [|x l IH]; simpl; intros Hnd Hin; [destruct Hin|].
  inversion Hnd as [|? ? Hn Hd]; subst.
  destruct (Nat.eqb x v) eqn:E.
  - apply Nat.eqb_eq in E. subst x. exists O. split; [reflexivity|].
    simpl. destruct (Nat.eq_dec v v) as [_|Hne]; [|congruence].
    symmetry. apply notin_remove. exact Hn.
  - apply Nat.eqb_neq in E. destruct Hin as [Heq|Hin]; [congruence|].
    destruct (IH Hd Hin) as (i & -> & Hi). exists (S i).
    split; [reflexivity|]. simpl.
    destruct (Nat.eq_dec v x) as [Heq|_]; [congruence|]. rewrite Hi. reflexivity.
Qed.

Lemma indexOf_not_in v l : ~ In v l -> indexOf v l = None.
Proof.
  induction l as [|x l IH]; simpl; intros H; [reflexivity|].
  destruct (Nat.eqb x v) eqn:E.
  - apply Nat.eqb_eq in E. destruct H. auto.
  - rewrite IH by auto. reflexivity.
Qed.

Lemma only_edit_node its e d e' d' :
  (length (filter is_edit_node its) <= 1)%nat ->
  In (EditNode e d) its -> In (EditNode e' d') its -> e' = e /\ d' = d.
Proof.
  intros Hl H H'.
  assert (Hf : In (EditNode e d) (filter is_edit_node its))
    by (apply filter_In; auto).
  assert (Hf' : In (EditNode e' d') (filter is_edit_node its))
    by (apply filter_In; auto).
  destruct (filter is_edit_node its) as [|x [|y l]]; simpl in *;
    [destruct Hf | | lia].
  destruct Hf as [Hx|[]]. destruct Hf' as [Hx'|[]].
  rewrite Hx in Hx'. injection Hx' as -> ->. auto.
Qed.

Lemma shown_replace_edit e k d its :
  (forall d', In (EditNode e d') its -> d' = d) ->
  map shown (replace_first (is_edit e) (PointNode k d) its) = map shown its.
Proof.
  induction its as [|[v0 d0|e0 d0] its IH]; simpl; intros H; [reflexivity| |].
  - rewrite IH by eauto. reflexivity.
  - destruct (Nat.eqb e e0) eqn:E; simpl.
    + apply Nat.eqb_eq in E. subst e0. rewrite (H d0) by auto. reflexivity.
    + rewrite IH by eauto. reflexivity.
Qed.

Lemma replace_edit_puts e k d its :
  In (EditNode e d) its ->
  In (PointNode k d) (replace_first (is_edit e) (PointNode k d) its).
Proof.
  induction its as [|[v0 d0|e0 d0] its IH]; simpl; [intros []| |].
  - intros [H|H]; [discriminate | right; auto].
  - destruct (Nat.eqb e e0) eqn:E; simpl; [left; reflexivity|].
    intros [H|H]; [|right; auto].
    injection H as -> _. rewrite Nat.eqb_refl in E. discriminate.
Qed.

(** An edit request followed by cancel, seen on one day section. *)
Lemma replace_round_trip_items v e k d its :
  existsb (is_point v) its = true ->
  (forall d', In (PointNode v d') its -> d' = d) ->
  (forall d', ~ In (EditNode e d') its) ->
  existsb (is_edit e) (replace_first (is_point v) (EditNode e d) its) = true /\
  map look_item (replace_first (is_edit e) (PointNode k d)
                   (replace_first (is_point v) (EditNode e d) its))
  = map look_item its.
Proof.
  induction its as [|[v0 d0|e0 d0] its IH]; simpl; intros Hex Hd Hne;
    [discriminate| |].
  - destruct (Nat.eqb v v0) eqn:E; simpl.
    + rewrite Nat.eqb_refl. simpl. apply Nat.eqb_eq in E. subst v0.
      rewrite (Hd d0) by auto. split; reflexivity.
    + simpl in Hex.
      destruct (IH Hex) as [H1 H2];
        [intros d' H; apply Hd; auto | intros d' H; apply (Hne d'); auto |].
      rewrite H1, H2. split; reflexivity.
  - assert (E : Nat.eqb e e0 = false).
    { apply Nat.eqb_neq. intros ->. apply (Hne d0). auto. }
    rewrite E. simpl.
    destruct (IH Hex) as [H1 H2];
      [intros d' H; apply Hd; auto | intros d' H; apply (Hne d'); auto |].
    rewrite H1, H2. split; reflexivity.
Qed.

Lemma no_edit_existsb e its :
  (forall d', ~ In (EditNode e d') its) -> existsb (is_edit e) its = false.
Proof.
  induction its as [|[v0 d0|e0 d0] its IH]; simpl; intros H.
  - reflexivity.
  - apply IH. intros d' Hin. apply (H d'). auto.
  - destruct (Nat.eqb e e0) eqn:E; simpl.
    + apply Nat.eqb_eq in E. subst e0. destruct (H d0). auto.
    + apply IH. intros d' Hin. apply (H d'). auto.
Qed.

(** An edit request followed by cancel, seen on the whole page. *)
Lemma replaceChild_round_trip v e k d dom :
  (forall d', In (PointNode v d') (dom_items dom) -> d' = d) ->
  (forall d', ~ In (EditNode e d') (dom_items dom)) ->
  rendered (replaceChild (is_edit e) (PointNode k d)
              (replaceChild (is_point v) (EditNode e d) dom))
  = rendered dom.
Proof.
  induction dom as [|[text hidden|n t its] dom IH]; simpl; intros Hd Hne.
  - reflexivity.
  - rewrite IH by assumption. reflexivity.
  - assert (Hd1 : forall d', In (PointNode v d') its -> d' = d)
      by (intros d' H; apply Hd, in_or_app; auto).
    assert (Hne1 : forall d', ~ In (EditNode e d') its)
      by (intros d' H; apply (Hne d'), in_or_app; auto).
    destruct (existsb (is_point v) its) eqn:E; simpl.
    + destruct (replace_round_trip_items v e k d its E Hd1 Hne1) as [H1 H2].
      rewrite H1. simpl. rewrite H2. reflexivity.
    + rewrite (no_edit_existsb e its Hne1). simpl. f_equal.
      apply IH.
      * intros d' H. apply Hd, in_or_app. auto.
      * intros d' H. apply (Hne d'), in_or_app. auto.
Qed.

Section OpeningAndCancelling.

Variable dayOf : Z -> Z.
Variable formatDate : Z -> string.

Lemma opening_view_exists w ev v :
  views_inv w -> opens w ev -> opened_view w ev = Some v ->
  forall d, ev = ClickEdit v d ->
    nth_error (points w) v = Some (mkTripPoint d true true).
Proof.
  intros (_ & V2 & _) Hop _ d ->. simpl in Hop. apply V2, Hop.
Qed.

Lemma opening_runs w ev v :
  views_inv w -> opens w ev -> opened_view w ev = Some v ->
  exists d, run dayOf formatDate ev w = open_edit v d w /\
            (v < length (points w))%nat.
Proof.
  intros Hv Hop Hov.
  destruct (opened_view_open_edit dayOf formatDate w ev v Hov) as (d & Hr & Hlt & _).
  - intros d Hev. apply nth_error_Some.
    rewrite (opening_view_exists w ev v Hv Hop Hov d Hev). discriminate.
  - eauto.
Qed.

(** X9: an event that opens an edit session returns exactly when the
    current edit view, if there is one, holds an element and the read-only
    view to replace holds an element that has a parent; otherwise it
    raises.  A view whose edit request fires from the page always holds its
    element, under its day section, so there the current edit view decides
    alone. *)
Theorem opening_returns (w : World) (ev : event) (v : nat) :
  reachable dayOf formatDate w ->
  opens w ev ->
  opened_view w ev = Some v ->
  returned (run dayOf formatDate ev w)
  = session_ok w && (holds_element w v && has_parent w v) /\
  (forall d, ev = ClickEdit v d ->
     returned (run dayOf formatDate ev w) = session_ok w).
Proof.
  intros Hr Hop Hov. pose proof (reachable_views dayOf formatDate w Hr) as Hv.
  destruct (opening_runs w ev v Hv Hop Hov) as (d & -> & Hlt).
  destruct (open_edit_views v d w Hlt) as (Hret & _).
  cbv zeta in Hret. split; [exact Hret|].
  intros d' Hev. rewrite Hret.
  unfold attached, holds_element, has_parent.
  rewrite (opening_view_exists w ev v Hv Hop Hov d' Hev). simpl.
  apply andb_true_r.
Qed.

(** X10: what opening an edit session does to the tracked list.  When the
    event returns, the replaced view leaves the list and the others stay in
    order; but when that view is not in the list, as a view put back by
    cancel is not, the last tracked view leaves the list instead.  When the
    event raises, as it does for a view whose element has no parent, the
    list is as before. *)
Theorem opening_untracks (w : World) (ev : event) (v : nat) :
  reachable dayOf formatDate w ->
  opens w ev ->
  opened_view w ev = Some v ->
  let o := run dayOf formatDate ev w in
  (returned o = true -> In v (_tripPoints w) ->
   _tripPoints (final o) = remove Nat.eq_dec v (_tripPoints w)) /\
  (returned o = true -> ~ In v (_tripPoints w) ->
   _tripPoints (final o) = removelast (_tripPoints w)) /\
  (returned o = false -> _tripPoints (final o) = _tripPoints w).
Proof.
  intros Hr Hop Hov. pose proof (reachable_views dayOf formatDate w Hr) as Hv.
  destruct (opening_runs w ev v Hv Hop Hov) as (d & -> & Hlt).
  destruct (open_edit_views v d w Hlt) as (_ & Ht & _).
  cbv zeta in *. rewrite Ht.
  destruct Hv as (_ & _ & _ & T2).
  split; [|split].
  - intros -> Hin. unfold splice_indexOf.
    destruct (indexOf_in v _ T2 Hin) as (i & -> & Hi). exact Hi.
  - intros -> Hnin. unfold splice_indexOf.
    rewrite indexOf_not_in by assumption. reflexivity.
  - intros ->. reflexivity.
Qed.

(** X11: cancel on the edit form that is on the page always returns.  The
    form is replaced by a new read-only view of the same record, so the
    page shows the same records in the same order, no edit session is
    left, and the tracked list is as before: the view put back is not in
    it. *)
Theorem cancel_puts_view_back (w : World) (e : nat) (d : TripPointRecord) :
  reachable dayOf formatDate w ->
  In (EditNode e d) (dom_items (_element w)) ->
  let o := onCancel e d w in
  returned o = true /\
  _tripPointEdit (final o) = None /\
  edit_nodes (final o) = [] /\
  page_records (final o) = page_records w /\
  In (PointNode (length (points w)) d) (dom_items (_element (final o))) /\
  _tripPoints (final o) = _tripPoints w /\
  ~ In (length (points w)) (_tripPoints (final o)).
Proof.
  intros Hr Hin.
  pose proof (reachable_views dayOf formatDate w Hr) as (_ & _ & T1 & _).
  pose proof (reachable_sessions dayOf formatDate w Hr) as Hs.
  pose proof Hs as (J1 & J2 & J3 & _).
  assert (Ho : open_in (edits w) e) by (eapply J3; exact Hin).
  pose proof (J1 _ Ho) as Hcur.
  destruct (onCancel_final e d w) as (Hret & _ & Hc & Hel).
  destruct (onCancel_views e d w) as (_ & Ht & _).
  cbv zeta in *. apply element_of_open in Ho. rewrite Ho in *.
  unfold edit_nodes, page_records. rewrite Hret, Hc, Hel, Ht, dom_items_replaceChild.
  split; [reflexivity|]. split; [reflexivity|]. split; [|split; [|split; [|split]]].
  - unfold sessions_inv in Hs. rewrite Hcur in Hs.
    apply (sessions_cancel _ _ _ (length (points w)) d Hs).
  - apply shown_replace_edit. intros d' Hin'.
    apply (only_edit_node _ e d e d' J2 Hin Hin').
  - apply replace_edit_puts, Hin.
  - reflexivity.
  - intros Hk. apply T1 in Hk. lia.
Qed.

(** X12: an edit request followed by cancel is a round trip for the page
    but not for the tracked list: with no edit session open, the request
    on a view on the page returns, the cancel on the form it opens returns,
    and the page is rendered as before with no edit session; the view that
    was replaced has left the tracked list and the one put back is not in
    it. *)
Theorem edit_then_cancel (w : World) (v : nat) (d : TripPointRecord) :
  reachable dayOf formatDate w ->
  _tripPointEdit w = None ->
  In (PointNode v d) (dom_items (_element w)) ->
  let e := length (edits w) in
  let o := (onEdit v d ;; onCancel e d) w in
  returned (onEdit v d w) = true /\
  In (EditNode e d) (dom_items (_element (final (onEdit v d w)))) /\
  returned o = true /\
  rendered (_element (final o)) = rendered (_element w) /\
  _tripPointEdit (final o) = None /\
  _tripPoints (final o) = splice_indexOf v (_tripPoints w) /\
  ~ In (length (points w)) (_tripPoints (final o)).
Proof.
  intros Hr Hc Hin. cbv zeta.
  pose proof (reachable_views dayOf formatDate w Hr) as (_ & V2 & T1 & _).
  pose proof (reachable_sessions dayOf formatDate w Hr) as (J1 & _ & J3 & _).
  pose proof (V2 _ _ Hin) as Hp.
  assert (Hh : attached w v = true)
    by (unfold attached, holds_element, has_parent; rewrite Hp; reflexivity).
  assert (Hcc : cancel_current w = Ok tt w).
  { unfold cancel_current, bind, get. rewrite Hc. reflexivity. }
  assert (Hone : onEdit v d w = show_edit v d w).
  { unfold onEdit, open_edit, bind. rewrite Hcc. reflexivity. }
  destruct (show_edit_final v d w) as (Hret & Hcur & Hed & Hel).
  destruct (show_edit_views v d w) as (Hpts & Ht & _).
  cbv zeta in *.
  rewrite Hh in *. rewrite upd_app_last in Hed.
  unfold bind. rewrite Hone.
  assert (Hnoedit : forall e' d', ~ In (EditNode e' d') (dom_items (_element w))).
  { intros e' d' H. apply J3, J1 in H. congruence. }
  assert (Hput : In (EditNode (length (edits w)) d)
                    (dom_items (_element (final (show_edit v d w))))).
  { rewrite Hel, dom_items_replaceChild.
    clear - Hin. induction (dom_items (_element w)) as [|x l IH]; [destruct Hin|].
    simpl. destruct (is_point v x) eqn:E; [left; reflexivity|].
    right. destruct Hin as [->|Hin]; [|auto].
    simpl in E. rewrite Nat.eqb_refl in E. discriminate. }
  split; [exact Hret|]. split; [exact Hput|].
  destruct (show_edit v d w) as [[] w1|w1]; [|discriminate]. simpl in *.
  destruct (onCancel_final (length (edits w)) d w1) as (Hret2 & _ & Hc2 & Hel2).
  destruct (onCancel_views (length (edits w)) d w1) as (_ & Ht2 & _).
  cbv zeta in *.
  assert (Hopen : element_of (edits w1) (length (edits w)) = true).
  { unfold element_of. rewrite Hed, nth_error_new. reflexivity. }
  rewrite Hopen in *. rewrite Hret2, Hc2, Hel2, Ht2, Hel, Ht, Hpts, upd_length.
  split; [reflexivity|]. split; [|split; [reflexivity|split; [reflexivity|]]].
  - apply replaceChild_round_trip.
    + intros d' Hin'. apply V2 in Hin'. congruence.
    + intros d'. apply Hnoedit.
  - intros Hk. apply splice_indexOf_sub, T1 in Hk. lia.
Qed.

End OpeningAndCancelling.

(** ** Requests and records *)

(** X13: when a save or a deletion succeeds, the component does nothing:
    the request is settled, the edit view stays blocked as [onSubmit] or
    [onDelete] left it and keeps its element, and nothing else changes.
    The update is sent with the new data, the deletion with the data of the
    view. *)
Theorem settled_request_stays_blocked (w : World) (e : nat) (x : TripPointEdit)
    (data : TripPointRecord) :
  nth_error (edits w) e = Some x ->
  requests (final (onSubmit e data w)) = requests w ++ [UpdateRequest e data] /\
  requests (final (onDelete e data w)) = requests w ++ [DeleteRequest e data] /\
  (exists w',
     (onSubmit e data ;; resolve (length (requests w))) w = Ok tt w' /\
     nth_error (edits w') e = Some (edit_with_block SavingBlock x) /\
     only_edit_changed e w w') /\
  (exists w',
     (onDelete e data ;; resolve (length (requests w))) w = Ok tt w' /\
     nth_error (edits w') e = Some (edit_with_block DeletingBlock x) /\
     only_edit_changed e w w').
Proof.
  intros Hx.
  unfold onSubmit, onDelete, bind, savingBlock, deletingBlock, edit_set_block,
    edit_modify, modify, resolve. simpl.
  split; [reflexivity|]. split; [reflexivity|]. split.
  - eexists. split; [reflexivity|]. simpl. rewrite remove_at_last. split.
    + rewrite nth_error_upd, Nat.eqb_refl, Hx. reflexivity.
    + unfold only_edit_changed; simpl. rewrite upd_length.
      repeat split; try reflexivity.
      intros e' Hne. rewrite nth_error_upd.
      apply Nat.eqb_neq in Hne. rewrite Nat.eqb_sym, Hne. reflexivity.
  - eexists. split; [reflexivity|]. simpl. rewrite remove_at_last. split.
    + rewrite nth_error_upd, Nat.eqb_refl, Hx. reflexivity.
    + unfold only_edit_changed; simpl. rewrite upd_length.
      repeat split; try reflexivity.
      intros e' Hne. rewrite nth_error_upd.
      apply Nat.eqb_neq in Hne. rewrite Nat.eqb_sym, Hne. reflexivity.
Qed.

Lemma same_data_refl w : same_data w w.
Proof. unfold same_data; repeat split. Qed.

Lemma open_edit_data v d w : same_data w (final (open_edit v d w)).
Proof.
  destruct (cancel_current_views w) as (_ & _ & _ & Hd & _).
  unfold open_edit, bind. cbv zeta in *.
  destruct (cancel_current w) as [[] w1|w1]; simpl in *; [|exact Hd].
  destruct (show_edit_views v d w1) as (_ & _ & Hd1 & _).
  eapply same_data_trans; eassumption.
Qed.

Section Records.

Variable dayOf : Z -> Z.
Variable formatDate : Z -> string.

Lemma update_records w :
  source_valid w ->
  source_valid (final (update dayOf formatDate w)) /\
  Permutation (source_records (final (update dayOf formatDate w)))
              (source_records w).
Proof.
  intros Hv.
  destruct (update_cases dayOf formatDate w) as (wd & _ & Hst & Hu).
  destruct (Hst Hv) as (Hvd & Hpd & _).
  assert (H : forall w', same_data wd w' ->
            source_valid w' /\ Permutation (source_records w') (source_records w)).
  { intros w' Hsd. destruct (same_data_facts _ _ Hsd) as (Hs & _ & Hv' & _).
    rewrite Hs. split; [apply Hv', Hvd | exact Hpd]. }
  destruct (displayed_records w) as [|d ds].
  - rewrite Hu. apply H, same_data_refl.
  - destruct (dayOf (dateFrom d) =? dayOf 0).
    + rewrite Hu. apply H. unfold same_data; repeat split.
    + destruct Hu as (frag & _ & ->). apply H, same_data_views.
Qed.

(** X14: the component never adds, drops or changes a record of the data
    source: whatever happens to it, short of the data source itself handing
    out other data, the array of the data source holds the same records
    afterwards, possibly in another order. *)
Theorem records_are_kept (w : World) (ev : event) :
  source_valid w ->
  (forall data, ev <> SourceChanged data) ->
  source_valid (final (run dayOf formatDate ev w)) /\
  Permutation (source_records (final (run dayOf formatDate ev w)))
              (source_records w).
Proof.
  intros Hv Hev.
  assert (H : forall w', same_data w w' ->
            source_valid w' /\ Permutation (source_records w') (source_records w)).
  { intros w' Hsd. destruct (same_data_facts _ _ Hsd) as (Hs & _ & Hv' & _).
    rewrite Hs. split; [apply Hv', Hv | reflexivity]. }
  destruct ev; simpl.
  - apply (update_records (set_sortFunction fn w)), Hv.
  - apply (update_records (set_filterFunction fn w)), Hv.
  - apply update_records, Hv.
  - apply (update_records (set_message _ w)), Hv.
  - apply (update_records (set_message _ w)), Hv.
  - apply (update_records (set_message _ w)), Hv.
  - unfold openTripPointInEditMode.
    destruct (find (has_id i w) (_tripPoints w)) as [v|];
      [|apply H, same_data_refl].
    destruct (nth_error (points w) v) as [p|]; [|apply H, same_data_refl].
    apply H, open_edit_data.
  - apply H, open_edit_data.
  - apply H. apply (onCancel_views tripPointEdit data w).
  - apply H. unfold same_data; repeat split.
  - apply H. unfold same_data; repeat split.
  - apply H. unfold reject.
    destruct (nth_error (requests w) k) as [[e nd|e nd]|];
      unfold same_data; repeat split.
  - apply H. unfold same_data; repeat split.
  - destruct (Hev data). reflexivity.
Qed.

End Records.

(** X15: [getDisplayedPoints] asked twice returns the same records in the
    same order, for a valid data source and a consistent comparator (or a
    sort function that is not a function), although the first call may
    have sorted the array of the data source. *)
Theorem getDisplayedPoints_again (w : World) :
  source_valid w ->
  sort_consistent w ->
  exists a w1 b w2,
    getDisplayedPoints w = Ok a w1 /\
    getDisplayedPoints w1 = Ok b w2 /\
    deref a w1 = displayed_records w /\
    deref b w2 = deref a w1.
Proof.
  intros Hv Ht.
  destruct (getDisplayedPoints_ok w) as (a & w1 & H1 & Ha & _).
  destruct (getDisplayedPoints_stable w a w1 Hv H1) as (_ & _ & Hd).
  destruct (getDisplayedPoints_ok w1) as (b & w2 & H2 & Hb & _).
  exists a, w1, b, w2. repeat split; auto.
  rewrite Hb, Ha. apply Hd, Ht.
Qed.

(** ** The earlier version *)

Lemma earlier_start_from l : forall m,
  exists s,
    fold_left (fun min point =>
                 if Earlier.before (Earlier.date point) min
                 then Earlier.Finite (Earlier.date point) else min)
              l (Earlier.Finite m) = Earlier.Finite s /\
    (s = m \/ In s (map Earlier.date l)) /\ s <= m /\
    (forall p, In p l -> s <= Earlier.date p).
Proof.
  induction l as [|x l IH]; intros m; simpl.
  - exists m. repeat split; auto; try lia; intros p [].
  - destruct (Earlier.date x <? m) eqn:E.
    + apply Z.ltb_lt in E.
      destruct (IH (Earlier.date x)) as (s & -> & Hin & Hle & Hall).
      exists s. repeat split; try lia.
      * destruct Hin as [->|Hin]; auto.
      * intros p [<-|Hp]; auto.
    + apply Z.ltb_ge in E.
      destruct (IH m) as (s & -> & Hin & Hle & Hall).
      exists s. repeat split; try lia.
      * destruct Hin as [->|Hin]; auto.
      * intros p [<-|Hp]; [lia | auto].
Qed.

(** X16: in the earlier version, [_getTripStartDate] is Infinity for a
    list without records and otherwise the least [date] in the list; the
    order of the records does not matter. *)
Theorem earlier_trip_start_date (l : list Earlier.MockTripPoint) :
  (l = [] -> Earlier._getTripStartDate l = Earlier.Infinity) /\
  (l <> [] ->
   exists s, Earlier._getTripStartDate l = Earlier.Finite s /\
             In s (map Earlier.date l) /\
             forall p, In p l -> s <= Earlier.date p) /\
  (forall l', Permutation l l' ->
              Earlier._getTripStartDate l' = Earlier._getTripStartDate l).
Proof.
  assert (Hne : forall l0 : list Earlier.MockTripPoint, l0 <> [] ->
            exists s, Earlier._getTripStartDate l0 = Earlier.Finite s /\
                      In s (map Earlier.date l0) /\
                      forall p, In p l0 -> s <= Earlier.date p).
  { intros [|x l0] H; [congruence|].
    unfold Earlier._getTripStartDate. simpl.
    destruct (earlier_start_from l0 (Earlier.date x)) as (s & -> & Hin & Hle & Hall).
    exists s. split; [reflexivity|]. split.
    - simpl. destruct Hin as [->|Hin]; auto.
    - intros p [<-|Hp]; auto. }
  split; [intros ->; reflexivity|]. split; [apply Hne|].
  intros l' Hp. destruct l as [|x l].
  - apply Permutation_nil in Hp. subst. reflexivity.
  - assert (Hl' : l' <> []).
    { intros ->. symmetry in Hp. apply Permutation_nil in Hp. discriminate. }
    destruct (Hne (x :: l) ltac:(discriminate)) as (s & -> & Hin & Hall).
    destruct (Hne l' Hl') as (s' & -> & Hin' & Hall').
    f_equal.
    apply in_map_iff in Hin as (p & <- & Hp1).
    apply in_map_iff in Hin' as (p' & <- & Hp1').
    assert (In p l') by (eapply Permutation_in; eassumption).
    assert (In p' (x :: l)) by (eapply Permutation_in; [symmetry|]; eassumption).
    specialize (Hall _ H0). specialize (Hall' _ H). lia.
Qed.

(** ** Views of an earlier rendering *)

Lemma unrender_tracked_nth l : forall (pts : list TripPoint) u,
  nth_error (fold_left (fun pts v => upd v (point_with_element false) pts) l pts) u
  = option_map (fun p => if existsb (Nat.eqb u) l
                         then point_with_element false p else p)
               (nth_error pts u).
Proof.
  induction l as [|v l IH]; intros pts u; simpl.
  - destruct (nth_error pts u); reflexivity.
  - rewrite IH, nth_error_upd, (Nat.eqb_sym u v).
    destruct (Nat.eqb v u); simpl;
      destruct (nth_error pts u) as [p|]; simpl; try reflexivity.
    destruct (existsb (Nat.eqb u) l); reflexivity.
Qed.

Lemma find_app_found {A} (f : A -> bool) (l1 l2 : list A) x :
  find f l1 = Some x -> find f (l1 ++ l2) = Some x.
Proof.
  induction l1 as [|y l1 IH]; simpl; [discriminate|].
  destruct (f y); auto.
Qed.

Lemma find_exists {A} (f : A -> bool) (l : list A) x :
  In x l -> f x = true -> exists y, find f l = Some y.
Proof.
  induction l as [|z l IH]; simpl; intros Hin Hf; [destruct Hin|].
  destruct (f z) eqn:E; [eauto|].
  destruct Hin as [->|Hin]; [congruence | auto].
Qed.

Lemma find_ext_in {A} (f g : A -> bool) (l : list A) :
  (forall x, In x l -> f x = g x) -> find f l = find g l.
Proof.
  induction l as [|z l IH]; simpl; intros H; [reflexivity|].
  rewrite (H z) by auto. destruct (g z); auto.
Qed.

Section RenderingAgain.

Variable dayOf : Z -> Z.
Variable formatDate : Z -> string.

Lemma update_tracked w w' :
  update dayOf formatDate w = Ok tt w' ->
  exists fresh, _tripPoints w' = _tripPoints w ++ fresh.
Proof.
  intros H.
  destruct (update_cases dayOf formatDate w) as (wd & Hb & _ & Hu).
  apply before_days_views in Hb. destruct Hb as [Ht _].
  destruct (displayed_records w) as [|d ds].
  - rewrite Hu in H. injection H as <-. exists []. rewrite Ht, app_nil_r.
    reflexivity.
  - destruct (dayOf (dateFrom d) =? dayOf 0).
    + rewrite Hu in H. discriminate.
    + destruct Hu as (frag & _ & Hu). rewrite Hu in H. injection H as <-.
      simpl. rewrite Ht. eexists. reflexivity.
Qed.

(** X17: every view tracked before an [update] holds no element after it,
    and it is still the first in the tracked list with its id: once the
    list was rendered twice, [openTripPointInEditMode] with the id of a
    view of the earlier rendering finds that view and raises. *)
Theorem rendering_again_breaks_opening (w w' : World) (i : Z) (v : nat) :
  reachable dayOf formatDate w ->
  In v (_tripPoints w) ->
  has_id i w v = true ->
  update dayOf formatDate w = Ok tt w' ->
  holds_element w' v = false /\
  (exists v0, find (has_id i w') (_tripPoints w') = Some v0 /\
              In v0 (_tripPoints w) /\ holds_element w' v0 = false) /\
  returned (openTripPointInEditMode i w') = false.
Proof.
  intros Hr Hin Hid Hu.
  pose proof (reachable_views dayOf formatDate w Hr) as (_ & _ & T1 & _).
  destruct (update_returned dayOf formatDate w w' Hu) as (_ & Hp & _).
  destruct (update_tracked w w' Hu) as (fresh & Ht).
  assert (Hnth : forall u, In u (_tripPoints w) ->
            nth_error (points w') u
            = option_map (point_with_element false) (nth_error (points w) u)).
  { intros u Hu'. rewrite Hp.
    assert (Hlt : (u < length (points (unrender_content w)))%nat).
    { simpl. rewrite unrender_tracked_length. apply T1, Hu'. }
    rewrite nth_error_app1 by exact Hlt. simpl.
    rewrite unrender_tracked_nth.
    assert (He : existsb (Nat.eqb u) (_tripPoints w) = true).
    { apply existsb_exists. exists u. split; [exact Hu' | apply Nat.eqb_refl]. }
    rewrite He. reflexivity. }
  assert (Hstale : forall u, In u (_tripPoints w) -> holds_element w' u = false).
  { intros u Hu'. unfold holds_element. rewrite (Hnth u Hu').
    destruct (nth_error (points w) u); reflexivity. }
  assert (Hids : forall u, In u (_tripPoints w) -> has_id i w' u = has_id i w u).
  { intros u Hu'. unfold has_id. rewrite (Hnth u Hu').
    destruct (nth_error (points w) u); reflexivity. }
  destruct (find_exists (has_id i w) (_tripPoints w) v Hin Hid) as (v0 & Hf).
  assert (Hf' : find (has_id i w') (_tripPoints w') = Some v0).
  { rewrite Ht. apply find_app_found.
    rewrite (find_ext_in _ (has_id i w) _ Hids). exact Hf. }
  pose proof (find_some _ _ Hf) as [Hin0 _].
  split; [apply Hstale, Hin|]. split.
  - exists v0. split; [exact Hf'|]. split; [exact Hin0 | apply Hstale, Hin0].
  - unfold openTripPointInEditMode. rewrite Hf'.
    destruct (find_has_id _ _ _ Hf') as (p & Hp0 & _). rewrite Hp0.
    assert (Hlt : (v0 < length (points w'))%nat)
      by (apply nth_error_Some; congruence).
    destruct (open_edit_views v0 (tp_data p) w' Hlt) as (Hret & _).
    cbv zeta in Hret.
    rewrite Hret, (attached_holds _ _ (Hstale v0 Hin0)). apply andb_false_r.
Qed.

End RenderingAgain.

(** ** The initial state *)

Lemma initial_source_valid xs : source_valid (initial (Some xs)).
Proof. unfold source_valid. simpl. lia. Qed.

Lemma initial_sort_consistent data : sort_consistent (initial data).
Proof. intros cmp H. injection H as <-. apply compareDate_consistent. Qed.

End Component.

(** * The properties at work

    The examples run the component on a page in UTC and on the insertion
    sort as the engine. *)

(** ** The example states *)

Lemma viewing_0_0_1_reachable :
  reachable insertion_engine utcDay titleOf (viewing_0_0_1 insertion_engine).
Proof.
  unfold viewing_0_0_1. apply reachable_event; [apply reachable_initial | exact I].
Qed.

Lemma viewing_0_0_1_returned :
  update insertion_engine utcDay titleOf (initial (Some trip_0_0_1))
  = Ok tt (viewing_0_0_1 insertion_engine).
Proof. vm_compute. reflexivity. Qed.

Lemma viewing_0_0_1_first :
  In (PointNode 0 (point_at 1 17967 9))
     (dom_items (_element (viewing_0_0_1 insertion_engine))).
Proof. vm_compute. left. reflexivity. Qed.

Lemma viewing_0_0_1_no_session :
  _tripPointEdit (viewing_0_0_1 insertion_engine) = None.
Proof. vm_compute. reflexivity. Qed.

Lemma viewing_0_0_1_tracked :
  In 1%nat (_tripPoints (viewing_0_0_1 insertion_engine)).
Proof. vm_compute. right. left. reflexivity. Qed.

Lemma viewing_0_0_1_id : has_id 2 (viewing_0_0_1 insertion_engine) 1 = true.
Proof. vm_compute. reflexivity. Qed.

Lemma viewing_0_0_1_again :
  update insertion_engine utcDay titleOf (viewing_0_0_1 insertion_engine)
  = Ok tt (final (update insertion_engine utcDay titleOf
                    (viewing_0_0_1 insertion_engine))).
Proof. vm_compute. reflexivity. Qed.

Lemma editing_0_0_1_reachable :
  reachable insertion_engine utcDay titleOf (editing_0_0_1 insertion_engine).
Proof.
  unfold editing_0_0_1. apply reachable_event; [apply viewing_0_0_1_reachable|].
  vm_compute. left. reflexivity.
Qed.

Lemma editing_0_0_1_opens :
  opens (editing_0_0_1 insertion_engine) (ClickEdit 1 (point_at 2 17967 15)).
Proof. vm_compute. right. left. reflexivity. Qed.

Lemma editing_0_0_1_form :
  In (EditNode 0 (point_at 1 17967 9))
     (dom_items (_element (editing_0_0_1 insertion_engine))).
Proof. vm_compute. left. reflexivity. Qed.

Lemma editing_0_0_1_edit :
  nth_error (edits (editing_0_0_1 insertion_engine)) O
  = Some (mkTripPointEdit (point_at 1 17967 9) true Unblocked 0 false).
Proof. vm_compute. reflexivity. Qed.

Lemma editing_0_0_1_session :
  _tripPointEdit (editing_0_0_1 insertion_engine) = Some O.
Proof. vm_compute. reflexivity. Qed.

Lemma after_epoch_raise_reachable :
  reachable insertion_engine utcDay titleOf (after_epoch_raise insertion_engine).
Proof.
  unfold after_epoch_raise. apply reachable_event; [apply reachable_initial | exact I].
Qed.

Lemma after_epoch_raise_opens :
  opens (after_epoch_raise insertion_engine) (CallOpenTripPointInEditMode 1).
Proof. vm_compute. discriminate. Qed.

Lemma after_epoch_raise_found :
  opened_view (after_epoch_raise insertion_engine) (CallOpenTripPointInEditMode 1)
  = Some O.
Proof. vm_compute. reflexivity. Qed.

(** ** The properties of the specification, at work *)

Lemma update_day_sections_witness :
  (forall d ds,
     displayed_records insertion_engine (initial (Some trip_0_0_1)) = d :: ds ->
     utcDay (dateFrom d) <> utcDay 0) /\
  exists w',
    update insertion_engine utcDay titleOf (initial (Some trip_0_0_1)) = Ok tt w' /\
    shown_days (_element w')
    = [[point_at 1 17967 9; point_at 2 17967 15]; [point_at 3 17968 8]] /\
    length (shown_days (_element w')) = 2%nat.
Proof.
  assert (H : forall d ds,
            displayed_records insertion_engine (initial (Some trip_0_0_1)) = d :: ds ->
            utcDay (dateFrom d) <> utcDay 0).
  { assert (Hd : displayed_records insertion_engine (initial (Some trip_0_0_1))
                 = trip_0_0_1)
      by (vm_compute; reflexivity).
    intros d ds E. rewrite Hd in E. injection E as <- _.
    vm_compute. discriminate. }
  split; [exact H|].
  destruct (update_day_sections insertion_engine utcDay titleOf
              (initial (Some trip_0_0_1)) (17967 * MSEC_IN_DAY) H)
    as (w' & Hu & Hs & _ & Hl & _).
  exists w'. split; [exact Hu|]. split.
  - rewrite Hs. vm_compute. reflexivity.
  - rewrite Hl. vm_compute. reflexivity.
Defined.

(** C1, counterexample: the number of day sections is not the number of
    distinct day differences when the records are not displayed in the
    order of their days.  With the sort function set to null and points on
    days 0, 1 and 0, [update] renders three day sections, while there are
    two distinct day differences from the trip start date. *)
Lemma day_sections_not_distinct_days :
  let w := set_sortFunction JNull (initial (Some trip_0_1_0)) in
  let o := update insertion_engine utcDay titleOf w in
  let start := dateFrom (point_at 1 17967 9) in
  returned o = true /\
  least_dateFrom start (source_records w) /\
  length (shown_days (_element (final o))) = 3%nat /\
  length (nodup Z.eq_dec (map (day_diff utcDay start)
                              (displayed_records insertion_engine w)))
  = 2%nat /\
  length (shown_days (_element (final o)))
  <> length (nodup Z.eq_dec (map (day_diff utcDay start)
                                 (displayed_records insertion_engine w))).
Proof.
  cbv zeta. split; [vm_compute; reflexivity|]. split; [|split; [|split]].
  - split.
    + left. reflexivity.
    + intros r [<-|[<-|[<-|[]]]]; vm_compute; discriminate.
  - vm_compute. reflexivity.
  - vm_compute. reflexivity.
  - vm_compute. discriminate.
Qed.

Lemma one_edit_session_witness :
  reachable insertion_engine utcDay titleOf (editing_0_0_1 insertion_engine) /\
  opens (editing_0_0_1 insertion_engine) (ClickEdit 1 (point_at 2 17967 15)) /\
  _tripPointEdit (editing_0_0_1 insertion_engine) = Some O /\
  at_most_one_session (editing_0_0_1 insertion_engine) /\
  let o := run insertion_engine utcDay titleOf (ClickEdit 1 (point_at 2 17967 15))
               (editing_0_0_1 insertion_engine) in
  at_most_one_session (final o) /\
  ~ edit_open (final o) O /\
  (forall d, ~ In (EditNode O d) (dom_items (_element (final o)))) /\
  (returned o = true ->
   exists e', _tripPointEdit (final o) = Some e' /\ e' <> O /\
              edit_open (final o) e').
Proof.
  split; [exact editing_0_0_1_reachable|]. split; [exact editing_0_0_1_opens|].
  split; [exact editing_0_0_1_session|].
  destruct (one_edit_session insertion_engine utcDay titleOf
              (editing_0_0_1 insertion_engine) editing_0_0_1_reachable) as [H1 H2].
  split; [exact H1|].
  exact (H2 _ _ editing_0_0_1_opens editing_0_0_1_session).
Defined.

Lemma update_keeps_tracked_views_witness :
  let w1 := final (update insertion_engine utcDay titleOf
                     (initial (Some trip_single))) in
  exists w2,
    update insertion_engine utcDay titleOf w1 = Ok tt w2 /\
    displayed_records insertion_engine w1 = [point_at 1 17967 9] /\
    _tripPoints w2 = [0; 1]%nat /\
    map tp_element (points w2) = [false; true].
Proof.
  cbv zeta.
  exists (final (update insertion_engine utcDay titleOf
                  (final (update insertion_engine utcDay titleOf
                            (initial (Some trip_single)))))).
  assert (H : update insertion_engine utcDay titleOf
                (final (update insertion_engine utcDay titleOf
                          (initial (Some trip_single))))
              = Ok tt (final (update insertion_engine utcDay titleOf
                  (final (update insertion_engine utcDay titleOf
                            (initial (Some trip_single))))))).
  { vm_compute. reflexivity. }
  split; [exact H|]. split; [vm_compute; reflexivity|]. split.
  - rewrite (update_keeps_tracked_views insertion_engine utcDay titleOf _ _ H).
    vm_compute. reflexivity.
  - vm_compute. reflexivity.
Defined.

Lemma getDisplayedPoints_null_filter_witness :
  _filterFunction (initial (Some trip_0_1_0)) = JNull /\
  getTripPoints (initial (Some trip_0_1_0)) = Some O /\
  (0 < length (arrays (initial (Some trip_0_1_0))))%nat /\
  exists w',
    getDisplayedPoints insertion_engine (initial (Some trip_0_1_0)) = Ok O w' /\
    deref O w' = [point_at 1 17967 9; point_at 3 17967 15; point_at 2 17968 8] /\
    ordered_by (fun point1 point2 => compareDate (dateFrom point1) (dateFrom point2))
               (deref O w').
Proof.
  split; [reflexivity|]. split; [reflexivity|]. split; [simpl; lia|].
  destruct (getDisplayedPoints_null_filter insertion_engine
              (initial (Some trip_0_1_0)) O eq_refl eq_refl ltac:(simpl; lia))
    as (w' & H & _ & _ & _ & Hc & _).
  exists w'. split; [exact H|].
  destruct (Hc _ eq_refl) as (_ & Hd & Ho).
  split; [rewrite Hd; vm_compute; reflexivity | exact (Ho compareDate_consistent)].
Defined.

(** C4, counterexample: with the comparator
    [(a, b) => a.dateFrom > b.dateFrom ? 1 : 0], which is not consistent,
    the array of two records with the later one first is left as it is: the
    comparator never answers "below", and the records returned are not in
    the order of the comparator, which puts the first above the second. *)
Lemma sorted_but_not_in_order :
  let w := set_sortFunction (JFunction above_or_equal) (initial (Some trip_1_0)) in
  _filterFunction w = JNull /\
  getTripPoints w = Some O /\
  (exists w',
     getDisplayedPoints insertion_engine w = Ok O w' /\
     deref O w' = [point_at 2 17968 8; point_at 1 17967 9] /\
     ~ ordered_by above_or_equal (deref O w')) /\
  above_or_equal (point_at 2 17968 8) (point_at 1 17967 9) = 1 /\
  ~ consistent above_or_equal.
Proof.
  cbv zeta. split; [reflexivity|]. split; [reflexivity|]. split; [|split].
  - exists (set_sortFunction (JFunction above_or_equal) (initial (Some trip_1_0))).
    split; [vm_compute; reflexivity|]. split; [reflexivity|].
    intros H.
    change (ordered_by above_or_equal [point_at 2 17968 8; point_at 1 17967 9]) in H.
    inversion H as [|? ? _ Hall]; subst.
    inversion Hall as [|? ? Hle _]; subst.
    vm_compute in Hle. apply Hle. reflexivity.
  - reflexivity.
  - intros (_ & Hsym & _).
    specialize (Hsym (point_at 1 17967 9) (point_at 2 17968 8) eq_refl).
    discriminate Hsym.
Qed.

Lemma failed_request_witness :
  let x := mkTripPointEdit (point_at 1 17967 9) true Unblocked 0 false in
  nth_error (edits (editing_0_0_1 insertion_engine)) O = Some x /\
  exists w',
    (onDelete O (point_at 1 17967 9) ;;
     reject (length (requests (editing_0_0_1 insertion_engine))))
      (editing_0_0_1 insertion_engine) = Ok tt w' /\
    nth_error (edits w') O
    = Some (mkTripPointEdit (point_at 1 17967 9) true Unblocked 0 true) /\
    only_edit_changed O (editing_0_0_1 insertion_engine) w'.
Proof.
  cbv zeta. split; [exact editing_0_0_1_edit|].
  exact (proj2 (failed_request (editing_0_0_1 insertion_engine) O _
                  (point_at 1 17967 9) editing_0_0_1_edit)).
Defined.

Lemma day_numbers_from_trip_start_witness :
  let w := set_filterFunction (JFunction (fun point => id point =? 3))
                              (initial (Some trip_0_2)) in
  let s := dateFrom (point_at 1 17967 9) in
  let it := PointNode 0 (point_at 3 17969 8) in
  source_valid w /\
  least_dateFrom s (source_records w) /\
  In (DayNode (Some 3) (titleOf (dateFrom (point_at 3 17969 8))) [it])
     (_element (final (update insertion_engine utcDay titleOf w))) /\
  (forall it', In it' [it] ->
     In (shown it') (displayed_records insertion_engine w) /\
     Some 3 = Some (calcDaysDiff utcDay s (dateFrom (shown it')) + 1)).
Proof.
  cbv zeta.
  assert (Hv : source_valid (set_filterFunction (JFunction (fun point => id point =? 3))
                                                (initial (Some trip_0_2)))).
  { unfold source_valid. simpl. lia. }
  assert (Hs : least_dateFrom (dateFrom (point_at 1 17967 9))
                 (source_records (set_filterFunction
                    (JFunction (fun point => id point =? 3))
                    (initial (Some trip_0_2))))).
  { split.
    - left. reflexivity.
    - intros r [<-|[<-|[]]]; vm_compute; discriminate. }
  assert (Hin : In (DayNode (Some 3) (titleOf (dateFrom (point_at 3 17969 8)))
                            [PointNode 0 (point_at 3 17969 8)])
                   (_element (final (update insertion_engine utcDay titleOf
                      (set_filterFunction (JFunction (fun point => id point =? 3))
                                          (initial (Some trip_0_2))))))).
  { vm_compute. left. reflexivity. }
  split; [exact Hv|]. split; [exact Hs|]. split; [exact Hin|].
  exact (proj2 (day_numbers_from_trip_start insertion_engine utcDay titleOf
                  _ _ _ _ _ Hv Hs Hin)).
Defined.




Lemma openTripPointInEditMode_unknown_id_witness :
  (forall v p, In v (_tripPoints (viewing_0_0_1 insertion_engine)) ->
               nth_error (points (viewing_0_0_1 insertion_engine)) v = Some p ->
               id (tp_data p) <> 7) /\
  openTripPointInEditMode 7 (viewing_0_0_1 insertion_engine)
  = Ok tt (viewing_0_0_1 insertion_engine).
Proof.
  assert (H : forall v p, In v (_tripPoints (viewing_0_0_1 insertion_engine)) ->
                          nth_error (points (viewing_0_0_1 insertion_engine)) v = Some p ->
                          id (tp_data p) <> 7).
  { assert (Ht : _tripPoints (viewing_0_0_1 insertion_engine) = [0; 1; 2]%nat)
      by (vm_compute; reflexivity).
    assert (Hs : map (fun q => id (tp_data q)) (points (viewing_0_0_1 insertion_engine))
                 = [1; 2; 3])
      by (vm_compute; reflexivity).
    intros v p Hin Hp. rewrite Ht in Hin.
    apply (map_nth_error (fun q => id (tp_data q))) in Hp. rewrite Hs in Hp.
    destruct Hin as [<-|[<-|[<-|[]]]]; simpl in Hp; injection Hp as <-;
      discriminate. }
  split; [exact H|]. exact (openTripPointInEditMode_unknown_id _ _ H).
Defined.



(** ** The defects, run *)

(** After two renderings the first tracked view with a given id is one of
    the first rendering, which holds no element any more: opening it in
    edit mode raises. *)
Example stale_view_found_first :
  let w2 := final (update insertion_engine utcDay titleOf
                     (viewing_0_0_1 insertion_engine)) in
  find (has_id 2 w2) (_tripPoints w2) = Some 1%nat /\
  option_map tp_element (nth_error (points w2) 1) = Some false /\
  returned (openTripPointInEditMode 2 w2) = false.
Proof. vm_compute. repeat split; reflexivity. Qed.

(** A first displayed record on the day of timestamp 0 gets no day section,
    and adding its view to the missing section raises: the view stays in
    the tracked list with an element that has no parent. *)
Example first_record_on_epoch_day :
  let o := update insertion_engine utcDay titleOf (initial (Some trip_epoch)) in
  returned o = false /\ _element (final o) = [] /\
  _tripPoints (final o) = [O] /\
  points (final o) = [mkTripPoint (point_at 1 0 9) true false].
Proof. vm_compute. repeat split; reflexivity. Qed.

(** ** More properties of the code, at work *)

Lemma getDisplayedPoints_filtered_witness :
  let w := set_filterFunction (JFunction (fun point => id point =? 3))
                              (initial (Some trip_0_2)) in
  _filterFunction w = JFunction (fun point => id point =? 3) /\
  getTripPoints w = Some O /\
  (0 < length (arrays w))%nat /\
  exists a w',
    getDisplayedPoints insertion_engine w = Ok a w' /\
    deref O w' = trip_0_2 /\
    deref a w' = [point_at 3 17969 8].
Proof.
  cbv zeta. split; [reflexivity|]. split; [reflexivity|]. split; [simpl; lia|].
  destruct (getDisplayedPoints_filtered insertion_engine
              (set_filterFunction (JFunction (fun point => id point =? 3))
                                  (initial (Some trip_0_2)))
              O (fun point => id point =? 3) eq_refl eq_refl ltac:(simpl; lia))
    as (a & w' & H & _ & Hs & _ & _ & _ & Hc & _).
  exists a, w'. split; [exact H|]. split.
  - rewrite Hs. reflexivity.
  - destruct (Hc _ eq_refl) as [-> _]. vm_compute. reflexivity.
Defined.

Lemma update_renders_views_witness :
  update insertion_engine utcDay titleOf (initial (Some trip_0_0_1))
  = Ok tt (viewing_0_0_1 insertion_engine) /\
  page_records (viewing_0_0_1 insertion_engine) = trip_0_0_1 /\
  _tripPointEdit (viewing_0_0_1 insertion_engine) = None /\
  edit_nodes (viewing_0_0_1 insertion_engine) = [].
Proof.
  split; [exact viewing_0_0_1_returned|].
  destruct (update_renders_views insertion_engine utcDay titleOf _ _
              viewing_0_0_1_returned) as (_ & Hp & _ & Hc & He).
  split; [|split; assumption].
  rewrite Hp. vm_compute. reflexivity.
Defined.

Lemma update_twice_rendered_witness :
  source_valid (initial (Some trip_0_1_0)) /\
  sort_consistent (initial (Some trip_0_1_0)) /\
  let once := update insertion_engine utcDay titleOf (initial (Some trip_0_1_0)) in
  let twice := (update insertion_engine utcDay titleOf ;;
                update insertion_engine utcDay titleOf)
                 (initial (Some trip_0_1_0)) in
  returned twice = returned once /\
  (returned once = true ->
   rendered (_element (final twice)) = rendered (_element (final once)) /\
   _tripPointEdit (final twice) = None).
Proof.
  split; [apply initial_source_valid|]. split; [apply initial_sort_consistent|].
  exact (update_twice_rendered insertion_engine utcDay titleOf
           (initial (Some trip_0_1_0))
           (initial_source_valid _) (initial_sort_consistent _)).
Defined.

Lemma day_sections_are_runs_witness :
  update insertion_engine utcDay titleOf (initial (Some trip_0_0_1))
  = Ok tt (viewing_0_0_1 insertion_engine) /\
  day_runs (fun d => utcDay (dateFrom d))
           (shown_days (_element (viewing_0_0_1 insertion_engine))).
Proof.
  split; [exact viewing_0_0_1_returned|].
  exact (day_sections_are_runs insertion_engine utcDay titleOf _ _
           viewing_0_0_1_returned).
Defined.

Lemma filterFunction_shows_matching_witness :
  let w := initial (Some trip_0_2) in
  let f := fun point => id point =? 3 in
  let w' := final (filterFunction insertion_engine utcDay titleOf (JFunction f) w) in
  filterFunction insertion_engine utcDay titleOf (JFunction f) w = Ok tt w' /\
  _filterFunction w' = JFunction f /\
  page_records w' = [point_at 3 17969 8].
Proof.
  cbv zeta.
  assert (H : filterFunction insertion_engine utcDay titleOf
                (JFunction (fun point => id point =? 3)) (initial (Some trip_0_2))
              = Ok tt (final (filterFunction insertion_engine utcDay titleOf
                                (JFunction (fun point => id point =? 3))
                                (initial (Some trip_0_2)))))
    by (vm_compute; reflexivity).
  split; [exact H|].
  destruct (filterFunction_shows_matching insertion_engine utcDay titleOf _ _ _ H)
    as (Hf & _).
  split; [exact Hf|]. vm_compute. reflexivity.
Defined.

Lemma sortFunction_orders_page_witness :
  let by_date := fun point1 point2 =>
                   compareDate (dateFrom point1) (dateFrom point2) in
  let w := set_sortFunction JNull (initial (Some trip_0_1_0)) in
  let w' := final (sortFunction insertion_engine utcDay titleOf (JFunction by_date) w) in
  sortFunction insertion_engine utcDay titleOf (JFunction by_date) w = Ok tt w' /\
  _sortFunction w' = JFunction by_date /\
  map id (page_records w') = [1; 3; 2] /\
  ordered_by by_date (page_records w').
Proof.
  cbv zeta.
  assert (H : sortFunction insertion_engine utcDay titleOf
                (JFunction (fun point1 point2 =>
                              compareDate (dateFrom point1) (dateFrom point2)))
                (set_sortFunction JNull (initial (Some trip_0_1_0)))
              = Ok tt (final (sortFunction insertion_engine utcDay titleOf
                  (JFunction (fun point1 point2 =>
                                compareDate (dateFrom point1) (dateFrom point2)))
                  (set_sortFunction JNull (initial (Some trip_0_1_0))))))
    by (vm_compute; reflexivity).
  split; [exact H|].
  destruct (sortFunction_orders_page insertion_engine utcDay titleOf _ _ _ H)
    as (Hs & _ & Ho & _).
  split; [exact Hs|]. split; [vm_compute; reflexivity|].
  exact (proj2 (Ho _ eq_refl) compareDate_consistent).
Defined.

Lemma views_on_the_page_witness :
  reachable insertion_engine utcDay titleOf (editing_0_0_1 insertion_engine) /\
  NoDup (point_refs (dom_items (_element (editing_0_0_1 insertion_engine)))) /\
  (forall v d,
     In (PointNode v d) (dom_items (_element (editing_0_0_1 insertion_engine))) ->
     nth_error (points (editing_0_0_1 insertion_engine)) v
     = Some (mkTripPoint d true true)) /\
  (forall v, In v (_tripPoints (editing_0_0_1 insertion_engine)) ->
     (v < length (points (editing_0_0_1 insertion_engine)))%nat) /\
  NoDup (_tripPoints (editing_0_0_1 insertion_engine)).
Proof.
  split; [exact editing_0_0_1_reachable|].
  exact (views_on_the_page insertion_engine utcDay titleOf _ editing_0_0_1_reachable).
Defined.

(** After [update] raised on a record of the day of timestamp 0, the
    tracked view of that record holds an element without parent:
    [openTripPointInEditMode] with its id raises. *)
Lemma opening_returns_witness :
  let w := after_epoch_raise insertion_engine in
  let ev := CallOpenTripPointInEditMode 1 in
  reachable insertion_engine utcDay titleOf w /\
  opens w ev /\
  opened_view w ev = Some O /\
  session_ok w = true /\ holds_element w 0 = true /\ has_parent w 0 = false /\
  returned (run insertion_engine utcDay titleOf ev w) = false.
Proof.
  cbv zeta. split; [exact after_epoch_raise_reachable|].
  split; [exact after_epoch_raise_opens|]. split; [exact after_epoch_raise_found|].
  split; [vm_compute; reflexivity|]. split; [vm_compute; reflexivity|].
  split; [vm_compute; reflexivity|].
  destruct (opening_returns insertion_engine utcDay titleOf
              (after_epoch_raise insertion_engine) _ O
              after_epoch_raise_reachable after_epoch_raise_opens
              after_epoch_raise_found) as [H _].
  rewrite H. vm_compute. reflexivity.
Defined.

Lemma opening_untracks_witness :
  (let w := editing_0_0_1 insertion_engine in
   let ev := ClickEdit 1 (point_at 2 17967 15) in
   reachable insertion_engine utcDay titleOf w /\
   opens w ev /\
   opened_view w ev = Some 1%nat /\
   _tripPoints w = [1; 2]%nat /\
   _tripPoints (final (run insertion_engine utcDay titleOf ev w)) = [2]%nat) /\
  (let w := after_epoch_raise insertion_engine in
   let ev := CallOpenTripPointInEditMode 1 in
   reachable insertion_engine utcDay titleOf w /\
   opens w ev /\
   opened_view w ev = Some O /\
   returned (run insertion_engine utcDay titleOf ev w) = false /\
   _tripPoints w = [O] /\
   _tripPoints (final (run insertion_engine utcDay titleOf ev w)) = [O]).
Proof.
  cbv zeta. split.
  - split; [exact editing_0_0_1_reachable|].
    split; [exact editing_0_0_1_opens|]. split; [reflexivity|].
    assert (Ht : _tripPoints (editing_0_0_1 insertion_engine) = [1; 2]%nat)
      by (vm_compute; reflexivity).
    split; [exact Ht|].
    destruct (opening_untracks insertion_engine utcDay titleOf
                (editing_0_0_1 insertion_engine) _ 1%nat
                editing_0_0_1_reachable editing_0_0_1_opens eq_refl) as (H & _).
    rewrite H.
    + rewrite Ht. reflexivity.
    + vm_compute. reflexivity.
    + rewrite Ht. left. reflexivity.
  - split; [exact after_epoch_raise_reachable|].
    split; [exact after_epoch_raise_opens|].
    split; [exact after_epoch_raise_found|].
    assert (Hr : returned (run insertion_engine utcDay titleOf
                             (CallOpenTripPointInEditMode 1)
                             (after_epoch_raise insertion_engine)) = false)
      by (vm_compute; reflexivity).
    assert (Ht : _tripPoints (after_epoch_raise insertion_engine) = [O])
      by (vm_compute; reflexivity).
    split; [exact Hr|]. split; [exact Ht|].
    destruct (opening_untracks insertion_engine utcDay titleOf
                (after_epoch_raise insertion_engine) _ O
                after_epoch_raise_reachable after_epoch_raise_opens
                after_epoch_raise_found) as (_ & _ & H).
    rewrite (H Hr). exact Ht.
Defined.

Lemma cancel_puts_view_back_witness :
  reachable insertion_engine utcDay titleOf (editing_0_0_1 insertion_engine) /\
  In (EditNode 0 (point_at 1 17967 9))
     (dom_items (_element (editing_0_0_1 insertion_engine))) /\
  let o := onCancel 0 (point_at 1 17967 9) (editing_0_0_1 insertion_engine) in
  returned o = true /\
  _tripPointEdit (final o) = None /\
  edit_nodes (final o) = [] /\
  page_records (final o) = page_records (editing_0_0_1 insertion_engine) /\
  In (PointNode (length (points (editing_0_0_1 insertion_engine)))
                (point_at 1 17967 9))
     (dom_items (_element (final o))) /\
  _tripPoints (final o) = _tripPoints (editing_0_0_1 insertion_engine) /\
  ~ In (length (points (editing_0_0_1 insertion_engine))) (_tripPoints (final o)).
Proof.
  split; [exact editing_0_0_1_reachable|]. split; [exact editing_0_0_1_form|].
  exact (cancel_puts_view_back insertion_engine utcDay titleOf _ _ _
           editing_0_0_1_reachable editing_0_0_1_form).
Defined.

Lemma edit_then_cancel_witness :
  reachable insertion_engine utcDay titleOf (viewing_0_0_1 insertion_engine) /\
  _tripPointEdit (viewing_0_0_1 insertion_engine) = None /\
  In (PointNode 0 (point_at 1 17967 9))
     (dom_items (_element (viewing_0_0_1 insertion_engine))) /\
  let d := point_at 1 17967 9 in
  let e := length (edits (viewing_0_0_1 insertion_engine)) in
  let o := (onEdit 0 d ;; onCancel e d) (viewing_0_0_1 insertion_engine) in
  returned o = true /\
  rendered (_element (final o))
  = rendered (_element (viewing_0_0_1 insertion_engine)) /\
  _tripPoints (final o) = [1; 2]%nat.
Proof.
  split; [exact viewing_0_0_1_reachable|].
  split; [exact viewing_0_0_1_no_session|].
  split; [exact viewing_0_0_1_first|]. cbv zeta.
  destruct (edit_then_cancel insertion_engine utcDay titleOf
              (viewing_0_0_1 insertion_engine) 0 (point_at 1 17967 9)
              viewing_0_0_1_reachable viewing_0_0_1_no_session viewing_0_0_1_first)
    as (_ & _ & Hr & Hl & _ & Ht & _).
  split; [exact Hr|]. split; [exact Hl|].
  rewrite Ht. vm_compute. reflexivity.
Defined.

Lemma settled_request_stays_blocked_witness :
  nth_error (edits (editing_0_0_1 insertion_engine)) O
  = Some (mkTripPointEdit (point_at 1 17967 9) true Unblocked 0 false) /\
  exists w',
    (onSubmit O (point_at 1 17967 10) ;;
     resolve (length (requests (editing_0_0_1 insertion_engine))))
      (editing_0_0_1 insertion_engine) = Ok tt w' /\
    nth_error (edits w') O
    = Some (mkTripPointEdit (point_at 1 17967 9) true SavingBlock 0 false) /\
    only_edit_changed O (editing_0_0_1 insertion_engine) w'.
Proof.
  split; [exact editing_0_0_1_edit|].
  destruct (settled_request_stays_blocked (editing_0_0_1 insertion_engine) O _
              (point_at 1 17967 10) editing_0_0_1_edit) as (_ & _ & H & _).
  exact H.
Defined.

Lemma records_are_kept_witness :
  source_valid (initial (Some trip_0_1_0)) /\
  (forall data, CallUpdate <> SourceChanged data) /\
  source_valid (final (run insertion_engine utcDay titleOf CallUpdate
                         (initial (Some trip_0_1_0)))) /\
  Permutation
    (source_records (final (run insertion_engine utcDay titleOf CallUpdate
                              (initial (Some trip_0_1_0)))))
    (source_records (initial (Some trip_0_1_0))).
Proof.
  assert (H : forall data, CallUpdate <> SourceChanged data) by discriminate.
  split; [apply initial_source_valid|]. split; [exact H|].
  exact (records_are_kept insertion_engine utcDay titleOf
           (initial (Some trip_0_1_0)) CallUpdate (initial_source_valid _) H).
Defined.

Lemma getDisplayedPoints_again_witness :
  source_valid (initial (Some trip_0_1_0)) /\
  sort_consistent (initial (Some trip_0_1_0)) /\
  exists a w1 b w2,
    getDisplayedPoints insertion_engine (initial (Some trip_0_1_0)) = Ok a w1 /\
    getDisplayedPoints insertion_engine w1 = Ok b w2 /\
    deref a w1 = displayed_records insertion_engine (initial (Some trip_0_1_0)) /\
    deref b w2 = deref a w1.
Proof.
  split; [apply initial_source_valid|]. split; [apply initial_sort_consistent|].
  exact (getDisplayedPoints_again insertion_engine (initial (Some trip_0_1_0))
           (initial_source_valid _) (initial_sort_consistent _)).
Defined.

Lemma rendering_again_breaks_opening_witness :
  let w' := final (update insertion_engine utcDay titleOf
                     (viewing_0_0_1 insertion_engine)) in
  reachable insertion_engine utcDay titleOf (viewing_0_0_1 insertion_engine) /\
  In 1%nat (_tripPoints (viewing_0_0_1 insertion_engine)) /\
  has_id 2 (viewing_0_0_1 insertion_engine) 1 = true /\
  update insertion_engine utcDay titleOf (viewing_0_0_1 insertion_engine)
  = Ok tt w' /\
  holds_element w' 1 = false /\
  returned (openTripPointInEditMode 2 w') = false.
Proof.
  cbv zeta. split; [exact viewing_0_0_1_reachable|].
  split; [exact viewing_0_0_1_tracked|]. split; [exact viewing_0_0_1_id|].
  split; [exact viewing_0_0_1_again|].
  destruct (rendering_again_breaks_opening insertion_engine utcDay titleOf
              (viewing_0_0_1 insertion_engine) _ 2 1%nat
              viewing_0_0_1_reachable viewing_0_0_1_tracked viewing_0_0_1_id
              viewing_0_0_1_again) as (H1 & _ & H2).
  split; assumption.
Defined.
